(** * DevCodeX Web: the auto-save editor subsystem

    A shallow embedding of the two timer-driven React hooks of the
    repository,

    - [useAutoSave]  (features/answers/hooks/useAutoSave), and
    - [useDebounce]  (hooks/useDebounce),

    and of the [code] override of the Markdown preview, together with the
    properties the specification states about them.

    A hook instance is a record holding its props, its [useState] cell, its
    [useRef] cells and the part of the browser it talks to: the clock, the
    table of pending [setTimeout] timers and the [onSave] promises that have
    not settled yet.  Everything that happens to a hook (a render with new
    props, time passing, a promise settling, the caller invoking one of the
    returned functions, the unmount) is an event, and [step] runs the code of
    the hook for one event.  What the caller of [useAutoSave] holds of the
    values the hook computes while it renders is kept beside the hook, in
    [AutoSaveView].

    Around the hooks the file embeds the code that uses them and the code
    they reach: the [AnswerEditor] component, which owns the text and calls
    [useAutoSave]; the save of an answer ([handleSaveAnswer] of the question
    page, the mutation of [useSaveAnswer], [answerService.update] and the
    error handling of the API client), which is the [onSave] the editor is
    given; the search box of [QuestionFilters], which calls [useDebounce];
    and the environment configuration the API client reads. *)

From Stdlib Require Import String List Arith Bool Lia PeanoNat ZArith.
Import ListNotations.

(** Decidable equality on the option of a natural number: the value of a
    [useRef<ReturnType<typeof setTimeout> | null>] cell. *)
Definition holds (r : option nat) (id : nat) : bool :=
  match r with
  | Some k => k =? id
  | None => false
  end.

Module AutoSave.

(** ** Data *)

(** [type AutoSaveStatus = 'idle' | 'saving' | 'saved' | 'error'] *)
Inductive AutoSaveStatus : Type := idle | saving | saved | error.

Definition status_eqb (a b : AutoSaveStatus) : bool :=
  match a, b with
  | idle, idle | saving, saving | saved, saved | error, error => true
  | _, _ => false
  end.

(** A value a promise can be rejected with: an [Error] object, or anything
    else (a string, a number, a response object, [undefined]). *)
Inductive JsValue : Type :=
| ErrorInstance (message : string)
| NonError (shown : string).

(** [error instanceof Error] *)
Definition instanceofError (v : JsValue) : bool :=
  match v with
  | ErrorInstance _ => true
  | NonError _ => false
  end.

(** The two closures the hook hands to [setTimeout]:
    [() => { void performSave(content) }] of the debounce effect, which
    captures the content of the render that armed it, and
    [() => { if (isMountedRef.current) setStatus('idle') }]. *)
Inductive TimerCallback : Type :=
| DebouncedSave (contentToSave : string)
| ResetToIdle.

Definition isDebouncedSave (cb : TimerCallback) : bool :=
  match cb with
  | DebouncedSave _ => true
  | ResetToIdle => false
  end.

(** A pending browser timer: its handle, the time [setTimeout] was called,
    the delay it was given and its callback. *)
Record Timer : Type := mkTimer {
  timerId : nat;
  setAt : nat;
  delay : nat;
  callback : TimerCallback
}.

Definition fireAt (tm : Timer) : nat := setAt tm + delay tm.

(** An [onSave] promise that has not settled: the [performSave] call that
    awaits it, the content it was called with, and whether that
    [performSave] call is itself awaited by [forceSave]. *)
Record PendingSave : Type := mkPending {
  promiseId : nat;
  pendingContent : string;
  viaForceSave : bool
}.

(** How the promise returned by a [performSave] call settles. *)
Inductive PromiseOutcome : Type :=
| Fulfilled
| Rejected (reason : JsValue).

Record Settlement : Type := mkSettlement {
  settledId : nat;
  settledForce : bool;
  outcome : PromiseOutcome
}.

(** Calls of the optional callbacks of [UseAutoSaveOptions]. *)
Inductive CallbackCall : Type :=
| OnSuccessCalled
| OnErrorCalled (e : JsValue).

(** One instance of the hook.

    - [content], [enabled], [debounceMs]: the props of the latest render
      (the dependencies of the debounce effect); [hasOnSuccess],
      [hasOnError]: whether the optional callbacks were given, which is
      taken not to change.  A render may still bring a new [onSave],
      [onSuccess] or [onError]; [performSave], which closes over them and is
      a dependency of the debounce effect, is then a new callback too (the
      [fresh] argument of a render).  The callbacks are taken not to throw.
    - [status]: the [useState] cell.
    - [lastSavedContentRef], [timerRef], [isMountedRef]: the [useRef] cells.
    - [effectCleanup]: whether the last run of the debounce effect returned
      its cleanup function (it does not when it leaves early).
    - [lastChangeAt]: the time of the last render in which a dependency of
      the debounce effect changed (the mount included).
    - [now], [timers], [nextTimerId]: the clock and the timer table of the
      browser; the table is kept in firing order.
    - [inflight], [nextPromiseId]: the [onSave] promises not yet settled.
    - [saveCalls], [callbackLog], [settledLog]: what the hook has done to
      its caller so far: the calls of [onSave] with their time, the calls of
      the optional callbacks, and the promises of [performSave] that have
      settled. *)
Record Hook : Type := mkHook {
  content : string;
  enabled : bool;
  debounceMs : nat;
  hasOnSuccess : bool;
  hasOnError : bool;
  status : AutoSaveStatus;
  lastSavedContentRef : string;
  timerRef : option nat;
  isMountedRef : bool;
  effectCleanup : bool;
  lastChangeAt : nat;
  now : nat;
  timers : list Timer;
  nextTimerId : nat;
  inflight : list PendingSave;
  nextPromiseId : nat;
  saveCalls : list (nat * string);
  callbackLog : list CallbackCall;
  settledLog : list Settlement
}.

(** ** Field updates *)

Definition setProps (c : string) (en : bool) (d : nat) (st : Hook) : Hook :=
  mkHook c en d (hasOnSuccess st) (hasOnError st) (status st)
    (lastSavedContentRef st) (timerRef st) (isMountedRef st) (effectCleanup st)
    (lastChangeAt st) (now st) (timers st) (nextTimerId st) (inflight st)
    (nextPromiseId st) (saveCalls st) (callbackLog st) (settledLog st).

Definition setStatus (s : AutoSaveStatus) (st : Hook) : Hook :=
  mkHook (content st) (enabled st) (debounceMs st) (hasOnSuccess st)
    (hasOnError st) s
    (lastSavedContentRef st) (timerRef st) (isMountedRef st) (effectCleanup st)
    (lastChangeAt st) (now st) (timers st) (nextTimerId st) (inflight st)
    (nextPromiseId st) (saveCalls st) (callbackLog st) (settledLog st).

Definition setLastSavedContent (c : string) (st : Hook) : Hook :=
  mkHook (content st) (enabled st) (debounceMs st) (hasOnSuccess st)
    (hasOnError st) (status st)
    c (timerRef st) (isMountedRef st) (effectCleanup st)
    (lastChangeAt st) (now st) (timers st) (nextTimerId st) (inflight st)
    (nextPromiseId st) (saveCalls st) (callbackLog st) (settledLog st).

Definition setTimerRef (r : option nat) (st : Hook) : Hook :=
  mkHook (content st) (enabled st) (debounceMs st) (hasOnSuccess st)
    (hasOnError st) (status st)
    (lastSavedContentRef st) r (isMountedRef st) (effectCleanup st)
    (lastChangeAt st) (now st) (timers st) (nextTimerId st) (inflight st)
    (nextPromiseId st) (saveCalls st) (callbackLog st) (settledLog st).

Definition setIsMounted (m : bool) (st : Hook) : Hook :=
  mkHook (content st) (enabled st) (debounceMs st) (hasOnSuccess st)
    (hasOnError st) (status st)
    (lastSavedContentRef st) (timerRef st) m (effectCleanup st)
    (lastChangeAt st) (now st) (timers st) (nextTimerId st) (inflight st)
    (nextPromiseId st) (saveCalls st) (callbackLog st) (settledLog st).

Definition setEffectCleanup (b : bool) (st : Hook) : Hook :=
  mkHook (content st) (enabled st) (debounceMs st) (hasOnSuccess st)
    (hasOnError st) (status st)
    (lastSavedContentRef st) (timerRef st) (isMountedRef st) b
    (lastChangeAt st) (now st) (timers st) (nextTimerId st) (inflight st)
    (nextPromiseId st) (saveCalls st) (callbackLog st) (settledLog st).

Definition setLastChangeAt (t : nat) (st : Hook) : Hook :=
  mkHook (content st) (enabled st) (debounceMs st) (hasOnSuccess st)
    (hasOnError st) (status st)
    (lastSavedContentRef st) (timerRef st) (isMountedRef st) (effectCleanup st)
    t (now st) (timers st) (nextTimerId st) (inflight st)
    (nextPromiseId st) (saveCalls st) (callbackLog st) (settledLog st).

Definition setNow (t : nat) (st : Hook) : Hook :=
  mkHook (content st) (enabled st) (debounceMs st) (hasOnSuccess st)
    (hasOnError st) (status st)
    (lastSavedContentRef st) (timerRef st) (isMountedRef st) (effectCleanup st)
    (lastChangeAt st) t (timers st) (nextTimerId st) (inflight st)
    (nextPromiseId st) (saveCalls st) (callbackLog st) (settledLog st).

Definition setTimers (q : list Timer) (next : nat) (st : Hook) : Hook :=
  mkHook (content st) (enabled st) (debounceMs st) (hasOnSuccess st)
    (hasOnError st) (status st)
    (lastSavedContentRef st) (timerRef st) (isMountedRef st) (effectCleanup st)
    (lastChangeAt st) (now st) q next (inflight st)
    (nextPromiseId st) (saveCalls st) (callbackLog st) (settledLog st).

Definition setInflight (ps : list PendingSave) (next : nat) (st : Hook) : Hook :=
  mkHook (content st) (enabled st) (debounceMs st) (hasOnSuccess st)
    (hasOnError st) (status st)
    (lastSavedContentRef st) (timerRef st) (isMountedRef st) (effectCleanup st)
    (lastChangeAt st) (now st) (timers st) (nextTimerId st) ps
    next (saveCalls st) (callbackLog st) (settledLog st).

Definition logSaveCall (c : string) (st : Hook) : Hook :=
  mkHook (content st) (enabled st) (debounceMs st) (hasOnSuccess st)
    (hasOnError st) (status st)
    (lastSavedContentRef st) (timerRef st) (isMountedRef st) (effectCleanup st)
    (lastChangeAt st) (now st) (timers st) (nextTimerId st) (inflight st)
    (nextPromiseId st) (saveCalls st ++ [(now st, c)]) (callbackLog st)
    (settledLog st).

Definition logCallback (k : CallbackCall) (st : Hook) : Hook :=
  mkHook (content st) (enabled st) (debounceMs st) (hasOnSuccess st)
    (hasOnError st) (status st)
    (lastSavedContentRef st) (timerRef st) (isMountedRef st) (effectCleanup st)
    (lastChangeAt st) (now st) (timers st) (nextTimerId st) (inflight st)
    (nextPromiseId st) (saveCalls st) (callbackLog st ++ [k]) (settledLog st).

Definition logSettled (s : Settlement) (st : Hook) : Hook :=
  mkHook (content st) (enabled st) (debounceMs st) (hasOnSuccess st)
    (hasOnError st) (status st)
    (lastSavedContentRef st) (timerRef st) (isMountedRef st) (effectCleanup st)
    (lastChangeAt st) (now st) (timers st) (nextTimerId st) (inflight st)
    (nextPromiseId st) (saveCalls st) (callbackLog st) (settledLog st ++ [s]).

(** ** The browser: [setTimeout] and [clearTimeout] *)

(** The timer table is kept in firing order; a timer is placed behind the
    timers that fire at the same time, as the browser runs those in the order
    they were set. *)
Fixpoint enqueue (tm : Timer) (q : list Timer) : list Timer :=
  match q with
  | [] => [tm]
  | x :: q' => if fireAt tm <? fireAt x then tm :: q else x :: enqueue tm q'
  end.

Definition setTimeout (cb : TimerCallback) (ms : nat) (st : Hook) : nat * Hook :=
  let id := nextTimerId st in
  (id, setTimers (enqueue (mkTimer id (now st) ms cb) (timers st)) (S id) st).

Definition keepsTimer (id : nat) (tm : Timer) : bool := negb (timerId tm =? id).

Definition clearTimeout (id : nat) (st : Hook) : Hook :=
  setTimers (filter (keepsTimer id) (timers st)) (nextTimerId st) st.

(** [if (timerRef.current) { clearTimeout(timerRef.current); }] *)
Definition clearTimerRef (st : Hook) : Hook :=
  match timerRef st with
  | Some id => clearTimeout id st
  | None => st
  end.

(** ** The hook *)

(** [performSave], up to its [await]: the mounted guard, the move to
    ['saving'] and the call of [onSave], whose promise is recorded as
    pending.  A call on an unmounted hook returns at once, so its promise is
    fulfilled at once. *)
Definition performSave (contentToSave : string) (force : bool) (st : Hook) : Hook :=
  if negb (isMountedRef st)
  then setInflight (inflight st) (S (nextPromiseId st))
         (logSettled (mkSettlement (nextPromiseId st) force Fulfilled) st)
  else
    let st1 := setStatus saving st in
    let st2 := logSaveCall contentToSave st1 in
    setInflight (inflight st2 ++ [mkPending (nextPromiseId st2) contentToSave force])
      (S (nextPromiseId st2)) st2.

(** [onSuccess?.()] and [onError?.(...)] *)
Definition callOnSuccess (st : Hook) : Hook :=
  if hasOnSuccess st then logCallback OnSuccessCalled st else st.

Definition callOnError (e : JsValue) (st : Hook) : Hook :=
  if hasOnError st then logCallback (OnErrorCalled e) st else st.

(** [performSave] after the [await], when [onSave] resolved (the rest of
    the [try] block). *)
Definition saveResolved (p : PendingSave) (st : Hook) : Hook :=
  let st' :=
    if isMountedRef st then
      let st1 := setLastSavedContent (pendingContent p) st in
      let st2 := setStatus saved st1 in
      let st3 := callOnSuccess st2 in
      snd (setTimeout ResetToIdle 2000 st3)
    else st in
  logSettled (mkSettlement (promiseId p) (viaForceSave p) Fulfilled) st'.

(** [performSave] after the [await], when [onSave] rejected (the [catch]
    block). *)
Definition saveRejected (p : PendingSave) (err : JsValue) (st : Hook) : Hook :=
  let st' :=
    if isMountedRef st then
      let st1 := setStatus error st in
      callOnError (if instanceofError err then err
                   else ErrorInstance "Save failed") st1
    else st in
  logSettled (mkSettlement (promiseId p) (viaForceSave p) Fulfilled) st'.

(** The body of the debounce effect, run with the props of the current
    render. *)
Definition debounceEffect (st : Hook) : Hook :=
  if negb (enabled st) then setEffectCleanup false st
  else if String.eqb (content st) (lastSavedContentRef st)
       then setEffectCleanup false st
  else
    let st1 := clearTimerRef st in
    let (id, st2) := setTimeout (DebouncedSave (content st)) (debounceMs st) st1 in
    setEffectCleanup true (setTimerRef (Some id) st2).

(** The cleanup function the debounce effect returned, if it returned one. *)
Definition runEffectCleanup (st : Hook) : Hook :=
  if effectCleanup st then clearTimerRef st else st.

(** The dependencies of the debounce effect:
    [[content, enabled, debounceMs, performSave]]. *)
Definition depsChanged (c : string) (en : bool) (d : nat) (fresh : bool)
    (st : Hook) : bool :=
  negb (String.eqb c (content st)) || negb (Bool.eqb en (enabled st))
  || negb (d =? debounceMs st) || fresh.

(** A render with the given props.  React runs the cleanup of the previous
    effect and then the effect again exactly when a dependency changed. *)
Definition render (c : string) (en : bool) (d : nat) (fresh : bool)
    (st : Hook) : Hook :=
  if depsChanged c en d fresh st
  then debounceEffect
         (setLastChangeAt (now st) (setProps c en d (runEffectCleanup st)))
  else st.

(** The first render: [useState('idle')], [useRef(content)], [useRef(null)],
    [useRef(true)], then the effects. *)
Definition mount (c : string) (en : bool) (d : nat) (onSuccess onError : bool) : Hook :=
  debounceEffect
    (mkHook c en d onSuccess onError idle c None true false 0 0 [] 1 [] 1 [] [] []).

(** [forceSave] of the latest render. *)
Definition forceSave (st : Hook) : Hook :=
  performSave (content st) true (clearTimerRef st).

(** [resetStatus] *)
Definition resetStatus (st : Hook) : Hook := setStatus idle st.

(** The unmount runs the cleanup of each effect, in the order the effects
    were declared. *)
Definition unmount (st : Hook) : Hook :=
  runEffectCleanup (clearTimerRef (setIsMounted false st)).

(** [content !== lastSavedContentRef.current], the expression a render of
    the hook evaluates for [hasUnsavedChanges]: its value in a render with
    the hook in the state [st].  What the caller holds between renders is
    [AutoSaveView.hasUnsavedChanges]. *)
Definition hasUnsavedChanges (st : Hook) : bool :=
  negb (String.eqb (content st) (lastSavedContentRef st)).

(** ** The event loop *)

(** A timer fires: the clock is at its firing time (or later, when it is
    late) and its callback runs. *)
Definition runTimer (tm : Timer) (st : Hook) : Hook :=
  let st1 := setNow (Nat.max (now st) (fireAt tm)) st in
  match callback tm with
  | DebouncedSave c => performSave c false st1
  | ResetToIdle => if isMountedRef st1 then setStatus idle st1 else st1
  end.

Definition isDue (target : nat) (tm : Timer) : bool := fireAt tm <=? target.

(** [dt] milliseconds pass: the timers that are due by then leave the table
    and run, in firing order. *)
Definition advance (dt : nat) (st : Hook) : Hook :=
  let target := now st + dt in
  let due := filter (isDue target) (timers st) in
  let later := filter (fun tm => negb (isDue target tm)) (timers st) in
  setNow target
    (fold_left (fun s tm => runTimer tm s) due (setTimers later (nextTimerId st) st)).

Definition lookupPending (pid : nat) (st : Hook) : option PendingSave :=
  find (fun p => promiseId p =? pid) (inflight st).

Definition removePending (pid : nat) (st : Hook) : Hook :=
  setInflight (filter (fun p => negb (promiseId p =? pid)) (inflight st))
    (nextPromiseId st) st.

Inductive Event : Type :=
| Render (c : string) (en : bool) (d : nat) (fresh : bool)
| Advance (dt : nat)
| Resolve (pid : nat)
| Reject (pid : nat) (err : JsValue)
| ForceSave
| ResetStatus
| Unmount.

(** One event.  React neither renders an unmounted component nor applies a
    state update the caller asks of it, so [Render] and [ResetStatus] do
    nothing after the unmount; everything else is the hook's own code and its
    own guards. *)
Definition step (e : Event) (st : Hook) : Hook :=
  match e with
  | Render c en d fresh => if isMountedRef st then render c en d fresh st else st
  | Advance dt => advance dt st
  | Resolve pid =>
      match lookupPending pid st with
      | Some p => saveResolved p (removePending pid st)
      | None => st
      end
  | Reject pid err =>
      match lookupPending pid st with
      | Some p => saveRejected p err (removePending pid st)
      | None => st
      end
  | ForceSave => forceSave st
  | ResetStatus => if isMountedRef st then resetStatus st else st
  | Unmount => if isMountedRef st then unmount st else st
  end.

Definition run (evs : list Event) (st : Hook) : Hook :=
  fold_left (fun s e => step e s) evs st.

(** ** The invariant of the event loop *)

(** What holds of a pending timer between two events.  Its handle has been
    handed out and it is not overdue.  A debounce timer is the one
    [timerRef] holds; it was armed by the latest run of the effect, which
    returned its cleanup; it carries the current props; and the hook is
    mounted.  A reset timer is never the one [timerRef] holds. *)
Definition timerOk (st : Hook) (tm : Timer) : bool :=
  (timerId tm <? nextTimerId st) && (now st <=? fireAt tm) &&
  match callback tm with
  | DebouncedSave c =>
      holds (timerRef st) (timerId tm) && effectCleanup st && enabled st
      && isMountedRef st && String.eqb c (content st)
      && (setAt tm =? lastChangeAt st) && (delay tm =? debounceMs st)
  | ResetToIdle => negb (holds (timerRef st) (timerId tm))
  end.

Fixpoint inFiringOrder (q : list Timer) : bool :=
  match q with
  | [] => true
  | x :: q' => forallb (fun y => fireAt x <=? fireAt y) q' && inFiringOrder q'
  end.

Definition handleIssued (st : Hook) : bool :=
  match timerRef st with
  | Some k => k <? nextTimerId st
  | None => true
  end.

Definition wf (st : Hook) : bool :=
  forallb (timerOk st) (timers st) && inFiringOrder (timers st)
  && handleIssued st
  && forallb (fun p => promiseId p <? nextPromiseId st) (inflight st).

(** The debounced saves among a list of timers, as [onSave] sees them. *)
Definition savesOf (q : list Timer) : list (nat * string) :=
  flat_map (fun tm => match callback tm with
                      | DebouncedSave c => [(fireAt tm, c)]
                      | ResetToIdle => []
                      end) q.

Definition debounceTimers (q : list Timer) : list Timer :=
  filter (fun tm => isDebouncedSave (callback tm)) q.

(** The invariant, read as propositions. *)
Definition timerFacts (st : Hook) (tm : Timer) : Prop :=
  timerId tm < nextTimerId st /\ now st <= fireAt tm /\
  match callback tm with
  | DebouncedSave c =>
      timerRef st = Some (timerId tm) /\ effectCleanup st = true
      /\ enabled st = true /\ isMountedRef st = true /\ c = content st
      /\ setAt tm = lastChangeAt st /\ delay tm = debounceMs st
  | ResetToIdle => timerRef st <> Some (timerId tm)
  end.

Record Wf (st : Hook) : Prop := mkWf {
  wf_timers : forall tm, In tm (timers st) -> timerFacts st tm;
  wf_order : inFiringOrder (timers st) = true;
  wf_handle : forall k, timerRef st = Some k -> k < nextTimerId st;
  wf_promises : forall p, In p (inflight st) -> promiseId p < nextPromiseId st
}.

(** What a timer callback and a settling promise leave alone: the props,
    the refs other than the snapshot, and the timer handles in use. *)
Definition sameControl (a b : Hook) : Prop :=
  content b = content a /\ enabled b = enabled a
  /\ debounceMs b = debounceMs a /\ timerRef b = timerRef a
  /\ isMountedRef b = isMountedRef a /\ effectCleanup b = effectCleanup a
  /\ lastChangeAt b = lastChangeAt a.

(** What the callbacks of one [Advance] leave alone. *)
Definition advanceFrame (st : Hook) (later : list Timer) (target : nat)
    (s : Hook) : Prop :=
  sameControl st s /\ timers s = later /\ nextTimerId s = nextTimerId st
  /\ now st <= now s <= target
  /\ lastSavedContentRef s = lastSavedContentRef st
  /\ callbackLog s = callbackLog st
  /\ (forall p, In p (inflight s) -> promiseId p < nextPromiseId s).

(** A burst of typing: every change of the content comes [gap] milliseconds
    after the one before it; the other props stay as they are. *)
Definition typing (en : bool) (d : nat) (changes : list (nat * string)) : list Event :=
  flat_map (fun gc => [Advance (fst gc); Render (snd gc) en d false]) changes.

(** Each content of the list differs from the one before it. *)
Fixpoint realChanges (prev : string) (cs : list string) : bool :=
  match cs with
  | [] => true
  | c :: cs' => negb (String.eqb c prev) && realChanges c cs'
  end.

Definition withinWindow (d : nat) (changes : list (nat * string)) : bool :=
  forallb (fun gc => fst gc <? d) changes.

(** The event settles the promise [pid]. *)
Definition settles (pid : nat) (e : Event) : bool :=
  match e with
  | Resolve q => q =? pid
  | Reject q _ => q =? pid
  | _ => false
  end.

(** The state right after a render that changed the content: the debounce
    effect has just run against the snapshot [L]. *)
Definition justRendered (L : string) (s : Hook) : Prop :=
  Wf s /\ isMountedRef s = true /\ enabled s = true
  /\ lastSavedContentRef s = L /\ lastChangeAt s = now s
  /\ exists id,
       debounceTimers (timers s)
       = if String.eqb (content s) L then []
         else [mkTimer id (now s) (debounceMs s) (DebouncedSave (content s))].

(** The promises that have settled are not pending any more, and their
    handles have been handed out. *)
Definition ledger (st : Hook) : bool :=
  forallb (fun s => (settledId s <? nextPromiseId st)
                    && forallb (fun p => negb (promiseId p =? settledId s))
                         (inflight st))
    (settledLog st).

Definition Ledger (st : Hook) : Prop :=
  (forall p, In p (inflight st) -> promiseId p < nextPromiseId st)
  /\ forall s, In s (settledLog st) ->
       settledId s < nextPromiseId st
       /\ forall p, In p (inflight st) -> promiseId p <> settledId s.

(** The status moves to ['saving'], or [onSave] is called. *)
Definition entersSaving (st st' : Hook) : Prop :=
  (status st <> saving /\ status st' = saving) \/ saveCalls st' <> saveCalls st.

End AutoSave.

(** * [useDebounce] *)

Module Debounce.

Set Implicit Arguments.

Section Hook.

(** The type of the debounced value and React's comparison of a dependency
    with its value in the previous render ([Object.is]). *)
Variable T : Type.
Variable same : T -> T -> bool.

(** A pending timer: its handle, when it was set, the delay it was given,
    and the [value] its callback [() => setDebouncedValue(value)] captured. *)
Record Timer : Type := mkTimer {
  timerId : nat;
  setAt : nat;
  wait : nat;
  payload : T
}.

Definition fireAt (tm : Timer) : nat := setAt tm + wait tm.

(** One instance of the hook: the props of the latest render, the
    [useState] cell, the [timeoutId] the cleanup of the latest effect run
    closes over ([None] once that cleanup has run for the unmount), the time
    of the latest effect run, whether the component is mounted, and the
    clock and timer table of the browser. *)
Record Hook : Type := mkHook {
  value : T;
  delay : nat;
  debouncedValue : T;
  timeoutId : option nat;
  lastChangeAt : nat;
  mounted : bool;
  now : nat;
  timers : list Timer;
  nextTimerId : nat
}.

Fixpoint enqueue (tm : Timer) (q : list Timer) : list Timer :=
  match q with
  | [] => [tm]
  | x :: q' => if fireAt tm <? fireAt x then tm :: q else x :: enqueue tm q'
  end.

Definition keepsTimer (id : nat) (tm : Timer) : bool := negb (timerId tm =? id).

(** The cleanup of the effect: [clearTimeout(timeoutId)]. *)
Definition cleanup (st : Hook) : list Timer :=
  match timeoutId st with
  | Some id => filter (keepsTimer id) (timers st)
  | None => timers st
  end.

(** The effect: it sets the timer and returns the cleanup that clears it. *)
Definition effect (v : T) (d : nat) (st : Hook) : Hook :=
  let id := nextTimerId st in
  mkHook v d (debouncedValue st) (Some id) (now st) (mounted st) (now st)
    (enqueue (mkTimer id (now st) d v) (timers st)) (S id).

(** The first render: [useState(value)], then the effect. *)
Definition mount (v : T) (d : nat) : Hook :=
  effect v d (mkHook v d v None 0 true 0 [] 1).

Definition depsChanged (v : T) (d : nat) (st : Hook) : bool :=
  negb (same v (value st)) || negb (d =? delay st).

(** A later render: when [value] or [delay] changed, the cleanup of the
    previous effect run and then the effect again. *)
Definition render (v : T) (d : nat) (st : Hook) : Hook :=
  if depsChanged v d st
  then effect v d
         (mkHook (value st) (delay st) (debouncedValue st) (timeoutId st)
            (lastChangeAt st) (mounted st) (now st) (cleanup st)
            (nextTimerId st))
  else mkHook v d (debouncedValue st) (timeoutId st) (lastChangeAt st)
         (mounted st) (now st) (timers st) (nextTimerId st).

Definition unmount (st : Hook) : Hook :=
  mkHook (value st) (delay st) (debouncedValue st) None (lastChangeAt st)
    false (now st) (cleanup st) (nextTimerId st).

(** A timer fires: [setDebouncedValue(value)] with the captured value. *)
Definition runTimer (tm : Timer) (st : Hook) : Hook :=
  mkHook (value st) (delay st) (payload tm) (timeoutId st) (lastChangeAt st)
    (mounted st) (Nat.max (now st) (fireAt tm)) (timers st) (nextTimerId st).

Definition isDue (target : nat) (tm : Timer) : bool := fireAt tm <=? target.

Definition advance (dt : nat) (st : Hook) : Hook :=
  let target := now st + dt in
  let due := filter (isDue target) (timers st) in
  let later := filter (fun tm => negb (isDue target tm)) (timers st) in
  let st' :=
    fold_left (fun s tm => runTimer tm s) due
      (mkHook (value st) (delay st) (debouncedValue st) (timeoutId st)
         (lastChangeAt st) (mounted st) (now st) later (nextTimerId st)) in
  mkHook (value st') (delay st') (debouncedValue st') (timeoutId st')
    (lastChangeAt st') (mounted st') target (timers st') (nextTimerId st').

Inductive Event : Type :=
| Render (v : T) (d : nat)
| Advance (dt : nat)
| Unmount.

(** React does not render a component that is unmounted. *)
Definition step (e : Event) (st : Hook) : Hook :=
  match e with
  | Render v d => if mounted st then render v d st else st
  | Advance dt => advance dt st
  | Unmount => if mounted st then unmount st else st
  end.

Definition run (evs : list Event) (st : Hook) : Hook :=
  fold_left (fun s e => step e s) evs st.

(** The invariant: at most one timer is pending, the one the cleanup
    closes over; it was set by the latest effect run and carries the current
    input; and when none is pending on a mounted hook the derived value is
    the input. *)
Definition wf (st : Hook) : bool :=
  match timers st with
  | [] => negb (mounted st) || same (debouncedValue st) (value st)
  | [tm] =>
      mounted st && holds (timeoutId st) (timerId tm)
      && (timerId tm <? nextTimerId st)
      && (setAt tm =? lastChangeAt st) && (wait tm =? delay st)
      && same (payload tm) (value st) && (now st <=? fireAt tm)
  | _ => false
  end.

End Hook.

Unset Implicit Arguments.

End Debounce.

(** * The [code] override of [MarkdownPreview] *)

Module Preview.

(** [\w] of a JavaScript regular expression without the [u] flag. *)
Definition isWordChar (c : Ascii.ascii) : bool :=
  let n := Ascii.nat_of_ascii c in
  ((48 <=? n) && (n <=? 57)) || ((65 <=? n) && (n <=? 90))
  || ((97 <=? n) && (n <=? 122)) || (n =? 95).

(** The longest run of word characters at the start of a string: [\w+]
    is greedy. *)
Fixpoint takeWord (s : string) : string :=
  match s with
  | String c s' => if isWordChar c then String c (takeWord s') else EmptyString
  | EmptyString => EmptyString
  end.

Fixpoint dropPrefix (p s : string) : option string :=
  match p, s with
  | EmptyString, _ => Some s
  | String a p', String b s' => if Ascii.eqb a b then dropPrefix p' s' else None
  | String _ _, EmptyString => None
  end.

(** [/language-(\w+)/] tried at the start of the string. *)
Definition languageHere (s : string) : option string :=
  match dropPrefix "language-" s with
  | Some rest =>
      match takeWord rest with
      | EmptyString => None
      | w => Some w
      end
  | None => None
  end.

(** [/language-(\w+)/.exec(className)], reduced to its capture group: the
    leftmost position at which the pattern matches. *)
Fixpoint languageOf (s : string) : option string :=
  match languageHere s with
  | Some w => Some w
  | None =>
      match s with
      | String _ s' => languageOf s'
      | EmptyString => None
      end
  end.

Definition newline : Ascii.ascii := Ascii.ascii_of_nat 10.

(** [String(children).replace(/\n$/, '')]: without the [m] flag [$] is the
    end of the input, so at most the last character goes. *)
Fixpoint stripFinalNewline (s : string) : string :=
  match s with
  | EmptyString => EmptyString
  | String c EmptyString =>
      if Ascii.eqb c newline then EmptyString else String c EmptyString
  | String c s' => String c (stripFinalNewline s')
  end.

(** A [ReactNode], the type of [children], as far as [String(children)]
    tells nodes apart: [undefined] (what the component is given for an empty
    code block), [null], a boolean, a string, a number (with the text
    [String] makes of it), a React element or another object without a
    [toString] of its own, and an array of nodes. *)
#[warnings="-register-all"]
Inductive ReactNode : Type :=
| NodeUndefined
| NodeNull
| NodeBoolean (b : bool)
| NodeText (s : string)
| NodeNumber (shown : string)
| NodeElement
| NodeArray (items : list ReactNode).

(** [String(children)].  An array is joined with commas, and [undefined]
    and [null] among its items give the empty string. *)
Fixpoint toString (n : ReactNode) : string :=
  match n with
  | NodeUndefined => "undefined"
  | NodeNull => "null"
  | NodeBoolean true => "true"
  | NodeBoolean false => "false"
  | NodeText s => s
  | NodeNumber shown => shown
  | NodeElement => "[object Object]"
  | NodeArray items =>
      (fix join (l : list ReactNode) : string :=
         match l with
         | [] => EmptyString
         | x :: l' =>
             let item := match x with
                         | NodeUndefined | NodeNull => EmptyString
                         | _ => toString x
                         end in
             match l' with
             | [] => item
             | _ :: _ => (item ++ "," ++ join l')%string
             end
         end) items
  end.

(** What the override returns: the inline [<code>] element with its
    children, or the [SyntaxHighlighter] with a language and a text. *)
Inductive Rendered : Type :=
| InlineCode (children : ReactNode)
| Highlighted (language : string) (text : string).

(** The [code] component; [className] is [None] when the prop is absent. *)
Definition code (className : option string) (children : ReactNode) : Rendered :=
  match languageOf (match className with Some c => c | None => EmptyString end) with
  | None => InlineCode children
  | Some lang => Highlighted lang (stripFinalNewline (toString children))
  end.

End Preview.

(** * [useAutoSave]: notions for further properties *)

Module AutoSaveAux.
Import AutoSave.

(** A state with its status put aside. *)
Definition forgetStatus (st : Hook) : Hook := setStatus idle st.

(** The [onSave] promises the debounce timers of a list start when they
    fire in turn on a mounted hook, [next] being the first free handle. *)
Fixpoint pendingOf (next : nat) (q : list Timer) : list PendingSave :=
  match q with
  | [] => []
  | tm :: q' =>
      match callback tm with
      | DebouncedSave c => mkPending next c false :: pendingOf (S next) q'
      | ResetToIdle => pendingOf next q'
      end
  end.

(** The event is the passage of time or a render with the content [c]. *)
Definition keepsContent (c : string) (e : Event) : bool :=
  match e with
  | Advance _ => true
  | Render c' _ _ _ => String.eqb c' c
  | _ => false
  end.

End AutoSaveAux.

(** * [useAutoSave]: what the hook returns *)

(** The hook hands [lastSavedContent] and [hasUnsavedChanges] to its caller
    when it renders; both are read off [lastSavedContentRef] then, and the
    caller keeps them until the hook renders again.  React renders the hook
    when its parent renders it and when a task has set the status to another
    value: setting the status to the value it has commits no render, and
    writing a ref never does. *)
Module AutoSaveView.
Import AutoSave.

(** The hook and, of [UseAutoSaveReturn], the two fields its latest render
    computed from the ref.  (The [status] it returned is the state cell: a
    change of the cell is what commits a render.) *)
Record View : Type := mkView {
  hook : Hook;
  lastSavedContent : string;
  hasUnsavedChanges : bool
}.

(** The hook renders in the state [st] and returns. *)
Definition returns (st : Hook) : View :=
  mkView st (lastSavedContentRef st) (AutoSave.hasUnsavedChanges st).

(** One task of the event loop runs [f], code of the hook: a timer
    callback, the continuation of a settled promise, a call of [forceSave]
    or [resetStatus].  The hook renders again if the task left the status
    changed. *)
Definition task (f : Hook -> Hook) (v : View) : View :=
  let st' := f (hook v) in
  if status_eqb (status (hook v)) (status st')
  then mkView st' (lastSavedContent v) (hasUnsavedChanges v)
  else returns st'.

(** The first render. *)
Definition mount (c : string) (en : bool) (d : nat) (onSuccess onError : bool) :
    View :=
  returns (AutoSave.mount c en d onSuccess onError).

(** [dt] milliseconds pass; each timer that is due runs in a task of its
    own. *)
Definition advance (dt : nat) (v : View) : View :=
  let st := hook v in
  let target := now st + dt in
  let due := filter (isDue target) (timers st) in
  let later := filter (fun tm => negb (isDue target tm)) (timers st) in
  let v' :=
    fold_left (fun w tm => task (runTimer tm) w) due
      (mkView (setTimers later (nextTimerId st) st) (lastSavedContent v)
         (hasUnsavedChanges v)) in
  mkView (setNow target (hook v')) (lastSavedContent v') (hasUnsavedChanges v').

(** One event: what [AutoSave.step] does to the hook, and what the caller
    holds afterwards. *)
Definition step (e : Event) (v : View) : View :=
  match e with
  | Render _ _ _ _ =>
      if isMountedRef (hook v) then returns (AutoSave.step e (hook v)) else v
  | Advance dt => advance dt v
  | _ => task (AutoSave.step e) v
  end.

Definition run (evs : list Event) (v : View) : View :=
  fold_left (fun w e => step e w) evs v.

End AutoSaveView.

(** * The [code] override: a notion for further properties *)

Module PreviewAux.

(** Every character of the string is a word character. *)
Fixpoint allWordChars (s : string) : bool :=
  match s with
  | EmptyString => true
  | String c s' => Preview.isWordChar c && allWordChars s'
  end.

End PreviewAux.

(** * The environment configuration ([core/config/env]) *)

Module Env.

(** [import.meta.env] as Vite provides it: the [VITE_*] variables, each a
    string or undefined, and the built-in [MODE], [DEV] and [PROD]. *)
Record ImportMetaEnv : Type := mkMeta {
  viteVar : string -> option string;
  viteMODE : string;
  viteDEV : bool;
  vitePROD : bool
}.

(** [interface Environment] *)
Record Environment : Type := mkEnvironment {
  API_BASE_URL : string;
  MODE : string;
  IS_DEV : bool;
  IS_PROD : bool;
  APP_NAME : string;
  APP_VERSION : string
}.

(** [import.meta.env[key] as string ?? fallback]: the fallback stands in
    for an undefined variable only. *)
Definition getEnvVar (meta : ImportMetaEnv) (key fallback : string) : string :=
  match viteVar meta key with
  | Some v => v
  | None => fallback
  end.

(** [x || fallback] on strings: the fallback stands in for the empty
    string. *)
Definition orElse (x fallback : string) : string :=
  match x with
  | EmptyString => fallback
  | _ => x
  end.

(** [export const env] *)
Definition env (meta : ImportMetaEnv) : Environment :=
  mkEnvironment
    (getEnvVar meta "VITE_API_BASE_URL" "http://localhost:5151/api")
    (orElse (viteMODE meta) "development")
    (viteDEV meta)
    (vitePROD meta)
    (getEnvVar meta "VITE_APP_NAME" "DevCodeX")
    (getEnvVar meta "VITE_APP_VERSION" "0.0.0").

(** [keyof Environment] *)
Inductive EnvKey : Type :=
| K_API_BASE_URL | K_MODE | K_IS_DEV | K_IS_PROD | K_APP_NAME | K_APP_VERSION.

Definition keyName (k : EnvKey) : string :=
  match k with
  | K_API_BASE_URL => "API_BASE_URL"
  | K_MODE => "MODE"
  | K_IS_DEV => "IS_DEV"
  | K_IS_PROD => "IS_PROD"
  | K_APP_NAME => "APP_NAME"
  | K_APP_VERSION => "APP_VERSION"
  end.

Definition emptyString (s : string) : bool :=
  match s with
  | EmptyString => true
  | _ => false
  end.

(** [!env[key]] *)
Definition falsy (e : Environment) (k : EnvKey) : bool :=
  match k with
  | K_API_BASE_URL => emptyString (API_BASE_URL e)
  | K_MODE => emptyString (MODE e)
  | K_IS_DEV => negb (IS_DEV e)
  | K_IS_PROD => negb (IS_PROD e)
  | K_APP_NAME => emptyString (APP_NAME e)
  | K_APP_VERSION => emptyString (APP_VERSION e)
  end.

Definition required : list EnvKey := [K_API_BASE_URL].

(** [validateEnv]: the warnings it writes to the console. *)
Definition validateEnv (e : Environment) : list string :=
  flat_map (fun k =>
              if falsy e k
              then [("Missing required environment variable: " ++ keyName k)%string]
              else [])
    required.

End Env.

(** * The API client and the save of an answer

    [core/api/client], [answerService.update], the mutation of
    [useSaveAnswer] and [handleSaveAnswer] of the question detail page, which
    is the [onSave] the answer editor is given. *)

Module SaveAnswer.

Inductive ResponseStatus : Type := Succeeded | Failed.

(** Of [ApiResponse<T>], the fields this code reads. *)
Record ApiResponse : Type := mkResponse {
  Status : ResponseStatus;
  Message : option string
}.

(** Of an [AxiosError], the fields [transformError] reads: the response (its
    status and its body, if it has one), whether a request was made, and the
    message. *)
Record ErrorResponse : Type := mkErrorResponse {
  httpStatus : Z;
  data : option ApiResponse
}.

Record AxiosError : Type := mkAxiosError {
  response : option ErrorResponse;
  request : bool;
  errorMessage : string
}.

(** [interface ApiError]; its [status] is always ['Failed']. *)
Record ApiError : Type := mkApiError {
  statusCode : Z;
  message : string
}.

(** [getDefaultErrorMessage] *)
Definition getDefaultErrorMessage (code : Z) : string :=
  if (code =? 400)%Z then "Bad request. Please check your input."
  else if (code =? 401)%Z then "Unauthorized. Please log in again."
  else if (code =? 403)%Z then "Forbidden. You do not have permission."
  else if (code =? 404)%Z then "Resource not found."
  else if (code =? 422)%Z then "Validation error. Please check your data."
  else if (code =? 429)%Z then "Too many requests. Please try again later."
  else if (code =? 500)%Z then "Server error. Please try again later."
  else if (code =? 502)%Z then "Bad gateway. Please try again later."
  else if (code =? 503)%Z then "Service unavailable. Please try again later."
  else "Something went wrong.".

(** [transformError] *)
Definition transformError (error : AxiosError) : ApiError :=
  match response error with
  | Some r =>
      mkApiError (httpStatus r)
        (match data r with
         | Some body =>
             match Message body with
             | Some m => m
             | None => getDefaultErrorMessage (httpStatus r)
             end
         | None => getDefaultErrorMessage (httpStatus r)
         end)
  | None =>
      if request error
      then mkApiError 0%Z "Network error. Please check your connection."
      else mkApiError 0%Z (Env.orElse (errorMessage error)
                           "An unexpected error occurred.")
  end.

(** How a promise settles. *)
Inductive Outcome (A : Type) : Type :=
| Resolved (a : A)
| Rejected (e : AutoSave.JsValue).
Arguments Resolved {A} a.
Arguments Rejected {A} e.

(** A PUT request: its URL and its body, a [SaveAnswerRequest]. *)
Record PutRequest : Type := mkPut {
  url : string;
  QuestionId : string;
  Content : string
}.

(** What the network and the server make of a request: a response with a
    2xx status and its body, or an [AxiosError]. *)
Inductive HttpResult : Type :=
| HttpOk (body : ApiResponse)
| HttpError (error : AxiosError).

(** [put]: the body of the response; the response interceptor turns an
    [AxiosError] into a rejection with [new Error(apiError.message)]. *)
Definition put (backend : PutRequest -> HttpResult) (req : PutRequest) :
    Outcome ApiResponse :=
  match backend req with
  | HttpOk body => Resolved body
  | HttpError error =>
      Rejected (AutoSave.ErrorInstance (message (transformError error)))
  end.

(** [API_ENDPOINTS.answers] *)
Definition answersEndpoint : string := "/answer".

(** [answerService.update] *)
Definition update (backend : PutRequest -> HttpResult) (id : string)
    (questionId content : string) : Outcome ApiResponse :=
  put backend (mkPut (answersEndpoint ++ "/" ++ id)%string questionId content).

(** What the save of an answer does to the world around it. *)
Inductive Effect : Type :=
| Sent (req : PutRequest)
| Invalidated (questionId : string)
| Refetched
| Toasted (title : string).

(** The mutation of [useSaveAnswer]: [mutationFn], and [onSuccess] when it
    resolved.  The result is what [mutateAsync] returns. *)
Definition mutateAsync (backend : PutRequest -> HttpResult)
    (questionId answerId content : string) : list Effect * Outcome ApiResponse :=
  if Env.emptyString answerId
  then ([], Rejected (AutoSave.ErrorInstance
                        "Answer ID is required. This should always exist since Answer is created with Question."))
  else
    let req := mkPut (answersEndpoint ++ "/" ++ answerId)%string questionId content in
    match update backend answerId questionId content with
    | Resolved body => ([Sent req; Invalidated questionId], Resolved body)
    | Rejected e => ([Sent req], Rejected e)
    end.

(** [!x] for an optional string: undefined and the empty string are
    falsy. *)
Definition missing (x : option string) : bool :=
  match x with
  | Some s => Env.emptyString s
  | None => true
  end.

(** Of [QuestionDetailDto], the fields the save reads. *)
Record QuestionDetailDto : Type := mkQuestion {
  AnswerId : option string;
  AnswerContent : option string
}.

(** [question?.AnswerId] *)
Definition answerIdOf (question : option QuestionDetailDto) : option string :=
  match question with
  | Some q => AnswerId q
  | None => None
  end.

(** [handleSaveAnswer] of the question detail page: what it does and how
    the promise it returns settles. *)
Definition handleSaveAnswer (backend : PutRequest -> HttpResult)
    (id : option string) (question : option QuestionDetailDto)
    (content : string) : list Effect * Outcome unit :=
  match id, answerIdOf question with
  | Some qid, Some aid =>
      if missing id || missing (answerIdOf question) then ([], Resolved tt)
      else
        match mutateAsync backend qid aid content with
        | (effects, Resolved r) =>
            match Status r with
            | Succeeded => (effects ++ [Refetched], Resolved tt)
            | Failed =>
                (effects ++ [Toasted (match Message r with
                                      | Some m => m
                                      | None => "Failed to save answer"
                                      end)],
                 Resolved tt)
            end
        | (effects, Rejected _) =>
            (effects ++ [Toasted "An error occurred while saving the answer"],
             Resolved tt)
        end
  | _, _ => ([], Resolved tt)
  end.

(** The event of the auto-save hook that a settled [onSave] promise is. *)
Definition settled (pid : nat) (o : Outcome unit) : AutoSave.Event :=
  match o with
  | Resolved _ => AutoSave.Resolve pid
  | Rejected e => AutoSave.Reject pid e
  end.

Definition isSent (e : Effect) : bool :=
  match e with
  | Sent _ => true
  | _ => false
  end.

Definition isErrorToast (e : Effect) : bool :=
  match e with
  | Toasted _ => true
  | _ => false
  end.

End SaveAnswer.

(** * The answer editor *)

(** [AnswerEditor] holds the text in a [useState] cell and hands it to
    [useAutoSave]; the hook is the one of [AutoSave], called without
    [onSuccess] and [onError]. *)
Module Editor.

(** [AnswerEditorProps], with the defaults filled in; of [onSave] and
    [onCancel], what the component does with them: it calls them. *)
Record Props : Type := mkProps {
  initialContent : string;
  isSaving : bool;
  disabled : bool;
  autoSave : bool;
  autoSaveDelay : nat;
  hasOnCancel : bool
}.

(** One instance of the component: the props of the latest render, the
    [useState] cell, the instance of [useAutoSave], whether the component is
    mounted (and its [keydown] listener registered), and what it has done to
    its caller and to the browser so far: the calls of [onSave] that
    [handleManualSave] made itself, the calls of [onCancel], and the calls
    of [preventDefault]. *)
Record State : Type := mkEditor {
  props : Props;
  content : string;
  hook : AutoSave.Hook;
  mounted : bool;
  directSaves : list string;
  cancelCalls : nat;
  prevented : nat
}.

Definition setHook (h : AutoSave.Hook) (ed : State) : State :=
  mkEditor (props ed) (content ed) h (mounted ed) (directSaves ed)
    (cancelCalls ed) (prevented ed).

Definition setContent (c : string) (ed : State) : State :=
  mkEditor (props ed) c (hook ed) (mounted ed) (directSaves ed)
    (cancelCalls ed) (prevented ed).

Definition setProps (p : Props) (ed : State) : State :=
  mkEditor p (content ed) (hook ed) (mounted ed) (directSaves ed)
    (cancelCalls ed) (prevented ed).

(** [enabled: autoSave && !disabled] *)
Definition hookEnabled (p : Props) : bool := autoSave p && negb (disabled p).

(** The call of [useAutoSave] in a render of the component; [fresh] says
    whether the render brought a new [onSave]. *)
Definition hookRender (fresh : bool) (ed : State) : AutoSave.Event :=
  AutoSave.Render (content ed) (hookEnabled (props ed))
    (autoSaveDelay (props ed)) fresh.

Definition renderHook (fresh : bool) (ed : State) : State :=
  setHook (AutoSave.step (hookRender fresh ed) (hook ed)) ed.

(** The first render: [useState(initialContent)], the hook, then the
    effects; [setContent(initialContent)] leaves the cell as it is. *)
Definition mount (p : Props) : State :=
  mkEditor p (initialContent p)
    (AutoSave.mount (initialContent p) (hookEnabled p) (autoSaveDelay p)
       false false)
    true [] 0 0.

(** [handleChange]: [setContent(value ?? '')], and the render that follows. *)
Definition handleChange (value : option string) (ed : State) : State :=
  renderHook false
    (setContent (match value with Some v => v | None => EmptyString end) ed).

(** A render with new props.  The hook runs with the new props and the
    content of the cell; when [initialContent] changed, the effect then sets
    the content, and the render that follows runs the hook again. *)
Definition receiveProps (p : Props) (fresh : bool) (ed : State) : State :=
  let ed1 := renderHook fresh (setProps p ed) in
  if String.eqb (initialContent p) (initialContent (props ed)) then ed1
  else renderHook false (setContent (initialContent p) ed1).

(** [handleManualSave] of the latest render. *)
Definition handleManualSave (ed : State) : State :=
  if autoSave (props ed)
  then setHook (AutoSave.step AutoSave.ForceSave (hook ed)) ed
  else mkEditor (props ed) (content ed) (hook ed) (mounted ed)
         (directSaves ed ++ [content ed]) (cancelCalls ed) (prevented ed).

Definition callOnCancel (ed : State) : State :=
  mkEditor (props ed) (content ed) (hook ed) (mounted ed) (directSaves ed)
    (S (cancelCalls ed)) (prevented ed).

Definition preventDefault (ed : State) : State :=
  mkEditor (props ed) (content ed) (hook ed) (mounted ed) (directSaves ed)
    (cancelCalls ed) (S (prevented ed)).

(** [handleKeyDown]; the two refs hold the callbacks of the latest
    render. *)
Definition handleKeyDown (ctrlKey metaKey : bool) (key : string)
    (ed : State) : State :=
  let ed1 :=
    if (ctrlKey || metaKey) && String.eqb key "s"
    then handleManualSave (preventDefault ed)
    else ed in
  if String.eqb key "Escape" && hasOnCancel (props ed1)
  then callOnCancel ed1
  else ed1.

(** The "Save Answer" button is rendered when [!autoSave], with
    [disabled={disabled || isSaving || !hasUnsavedChanges}]. *)
Definition saveButtonEnabled (ed : State) : bool :=
  negb (autoSave (props ed))
  && negb (disabled (props ed) || isSaving (props ed)
           || negb (AutoSave.hasUnsavedChanges (hook ed))).

(** The "Cancel" button is rendered when [onCancel] was given, with
    [disabled={disabled || isSaving}]. *)
Definition cancelButtonEnabled (ed : State) : bool :=
  hasOnCancel (props ed)
  && negb (disabled (props ed) || isSaving (props ed)).

Definition clickSave (ed : State) : State :=
  if saveButtonEnabled ed then handleManualSave ed else ed.

Definition clickCancel (ed : State) : State :=
  if cancelButtonEnabled ed then callOnCancel ed else ed.

(** [displayStatus] *)
Definition displayStatus (ed : State) : AutoSave.AutoSaveStatus :=
  if isSaving (props ed) then AutoSave.saving else AutoSave.status (hook ed).

(** Whether the "Unsaved changes" label is rendered. *)
Definition showsUnsaved (ed : State) : bool :=
  negb (autoSave (props ed)) && AutoSave.hasUnsavedChanges (hook ed).

Definition unmount (ed : State) : State :=
  mkEditor (props ed) (content ed)
    (AutoSave.step AutoSave.Unmount (hook ed)) false (directSaves ed)
    (cancelCalls ed) (prevented ed).

Inductive Event : Type :=
| Change (value : option string)
| ReceiveProps (p : Props) (fresh : bool)
| KeyDown (ctrlKey metaKey : bool) (key : string)
| ClickSave
| ClickCancel
| Tick (dt : nat)
| SaveResolved (pid : nat)
| SaveRejected (pid : nat) (err : AutoSave.JsValue)
| Unmount.

(** One event.  What the user and the parent do reaches a mounted
    component only; timers and promises are the hook's own. *)
Definition step (e : Event) (ed : State) : State :=
  match e with
  | Change value => if mounted ed then handleChange value ed else ed
  | ReceiveProps p fresh => if mounted ed then receiveProps p fresh ed else ed
  | KeyDown c m key => if mounted ed then handleKeyDown c m key ed else ed
  | ClickSave => if mounted ed then clickSave ed else ed
  | ClickCancel => if mounted ed then clickCancel ed else ed
  | Tick dt => setHook (AutoSave.step (AutoSave.Advance dt) (hook ed)) ed
  | SaveResolved pid => setHook (AutoSave.step (AutoSave.Resolve pid) (hook ed)) ed
  | SaveRejected pid err =>
      setHook (AutoSave.step (AutoSave.Reject pid err) (hook ed)) ed
  | Unmount => if mounted ed then unmount ed else ed
  end.

Definition run (evs : list Event) (ed : State) : State :=
  fold_left (fun s e => step e s) evs ed.

(** What one event of the component is to its hook. *)
Definition hookEvents (e : Event) (ed : State) : list AutoSave.Event :=
  if mounted ed then
    match e with
    | Change value =>
        [hookRender false
           (setContent (match value with Some v => v | None => EmptyString end)
              ed)]
    | ReceiveProps p fresh =>
        hookRender fresh (setProps p ed)
        :: (if String.eqb (initialContent p) (initialContent (props ed))
            then []
            else [hookRender false (setContent (initialContent p) (setProps p ed))])
    | KeyDown c m key =>
        if (c || m) && String.eqb key "s" && autoSave (props ed)
        then [AutoSave.ForceSave] else []
    | ClickSave => []
    | ClickCancel => []
    | Tick dt => [AutoSave.Advance dt]
    | SaveResolved pid => [AutoSave.Resolve pid]
    | SaveRejected pid err => [AutoSave.Reject pid err]
    | Unmount => [AutoSave.Unmount]
    end
  else
    match e with
    | Tick dt => [AutoSave.Advance dt]
    | SaveResolved pid => [AutoSave.Resolve pid]
    | SaveRejected pid err => [AutoSave.Reject pid err]
    | _ => []
    end.

(** What holds of the component and its hook between two events: the
    hook is in a state of its event loop, it is mounted when the component
    is, and it has the props the latest render gave it. *)
Definition synced (ed : State) : Prop :=
  AutoSave.Wf (hook ed)
  /\ AutoSave.isMountedRef (hook ed) = mounted ed
  /\ (mounted ed = true ->
      AutoSave.content (hook ed) = content ed
      /\ AutoSave.enabled (hook ed) = hookEnabled (props ed)
      /\ AutoSave.debounceMs (hook ed) = autoSaveDelay (props ed)).

(** The hook of a component that has been in manual mode since the mount
    with the initial content [c0]. *)
Definition untouched (c0 : string) (ed : State) : Prop :=
  autoSave (props ed) = false
  /\ AutoSave.enabled (hook ed) = false
  /\ AutoSave.effectCleanup (hook ed) = false
  /\ AutoSave.timerRef (hook ed) = None
  /\ AutoSave.timers (hook ed) = []
  /\ AutoSave.inflight (hook ed) = []
  /\ AutoSave.saveCalls (hook ed) = []
  /\ AutoSave.status (hook ed) = AutoSave.idle
  /\ AutoSave.lastSavedContentRef (hook ed) = c0
  /\ AutoSave.isMountedRef (hook ed) = mounted ed
  /\ (mounted ed = true -> AutoSave.content (hook ed) = content ed).

(** The event leaves [autoSave] off. *)
Definition staysManual (e : Event) : bool :=
  match e with
  | ReceiveProps p _ => negb (autoSave p)
  | _ => true
  end.

End Editor.

(** * The search box of the question filters *)

Module DebounceAux.

(** The values the renders of a list of events pass to [useDebounce]. *)
Definition inputs {T : Type} (evs : list (Debounce.Event T)) : list T :=
  flat_map (fun e => match e with
                     | Debounce.Render v _ => [v]
                     | _ => []
                     end) evs.

End DebounceAux.

(** [QuestionFilters] keeps the text of the search box in a [useState]
    cell, debounces it with [useDebounce] and reports it to its parent in an
    effect; the parent, [QuestionsPage], keeps the filters in a [useState]
    cell and passes its setter as [onChange]. *)
Module Filters.

(** [interface QuestionFilters]; every field is optional. *)
Record QuestionFilters : Type := mkFilters {
  query : option string;
  technologyId : option string;
  difficultyLevel : option nat
}.

(** [debouncedSearch !== filters.query] *)
Definition differs (debouncedSearch : string) (filters : QuestionFilters) : bool :=
  match query filters with
  | Some q => negb (String.eqb debouncedSearch q)
  | None => true
  end.

(** [debouncedSearch || undefined] *)
Definition orUndefined (s : string) : option string :=
  match s with
  | EmptyString => None
  | _ => Some s
  end.

(** One run of the effect: the filters it calls [onChange] with, if it
    calls it. *)
Definition syncEffect (debouncedSearch : string) (filters : QuestionFilters) :
    option QuestionFilters :=
  if differs debouncedSearch filters
  then Some (mkFilters (orUndefined debouncedSearch) (technologyId filters)
               (difficultyLevel filters))
  else None.

(** [handleTechnologyChange] and [handleDifficultyChange]: the filters
    they call [onChange] with. *)
Definition handleTechnologyChange (technology : option string)
    (filters : QuestionFilters) : QuestionFilters :=
  mkFilters (query filters) technology (difficultyLevel filters).

Definition handleDifficultyChange (level : option nat)
    (filters : QuestionFilters) : QuestionFilters :=
  mkFilters (query filters) (technologyId filters) level.

(** The component under [QuestionsPage].  [onChange] is [setFilters], and
    the object it is given is a new one, so every call renders the page and
    the component again with new [filters], a dependency of the effect, which
    therefore runs again.  [renders] bounds the number of renders looked at;
    the result is the number of calls of [onChange] and the filters of the
    page after them. *)
Fixpoint settle (renders : nat) (debouncedSearch : string)
    (filters : QuestionFilters) : nat * QuestionFilters :=
  match renders with
  | 0 => (0, filters)
  | S n =>
      match syncEffect debouncedSearch filters with
      | Some filters' =>
          let (calls, final) := settle n debouncedSearch filters' in
          (S calls, final)
      | None => (0, filters)
      end
  end.

End Filters.

(** * A shared fact *)

Lemma holds_true (r : option nat) (id : nat) : holds r id = true <-> r = Some id.
Proof.
  destruct r as [k|]; simpl.
  - rewrite Nat.eqb_eq. split; [intros ->; reflexivity | intros [= ->]; reflexivity].
  - split; discriminate.
Qed.

(** * Properties of [useAutoSave] *)

Module AutoSaveFacts.
Import AutoSave.

(** ** Lists of timers *)

Lemma forallb_filter_true (A : Type) (f g : A -> bool) (l : list A) :
  forallb f l = true -> forallb f (filter g l) = true.
Proof.
  rewrite !forallb_forall. intros H x Hx. apply filter_In in Hx. apply H, Hx.
Qed.

Lemma In_enqueue (tm x : Timer) (q : list Timer) :
  In x (enqueue tm q) <-> x = tm \/ In x q.
Proof.
  induction q as [|y q IH]; simpl.
  - split; intros [H|H]; auto; contradiction.
  - destruct (fireAt tm <? fireAt y); simpl; rewrite ?IH;
      split; intros H; repeat destruct H as [H|H]; auto.
Qed.

Lemma inFiringOrder_filter (f : Timer -> bool) (q : list Timer) :
  inFiringOrder q = true -> inFiringOrder (filter f q) = true.
Proof.
  induction q as [|x q IH]; simpl; auto.
  rewrite andb_true_iff. intros [H1 H2].
  destruct (f x); simpl; auto.
  rewrite andb_true_iff; split; auto using forallb_filter_true.
Qed.

Lemma inFiringOrder_enqueue (tm : Timer) (q : list Timer) :
  inFiringOrder q = true -> inFiringOrder (enqueue tm q) = true.
Proof.
  induction q as [|x q IH]; simpl; auto.
  rewrite andb_true_iff. intros [H1 H2].
  destruct (fireAt tm <? fireAt x) eqn:E; simpl.
  - apply Nat.ltb_lt in E. rewrite H1, H2, !andb_true_r.
    rewrite andb_true_iff; split; [apply Nat.leb_le; lia|].
    rewrite forallb_forall in *. intros y Hy.
    specialize (H1 y Hy). apply Nat.leb_le in H1. apply Nat.leb_le. lia.
  - apply Nat.ltb_ge in E. rewrite andb_true_iff; split; auto.
    rewrite forallb_forall in *. intros y Hy.
    apply In_enqueue in Hy. destruct Hy as [->|Hy]; auto.
    apply Nat.leb_le; lia.
Qed.

(** ** The invariant *)

Lemma timerOk_facts (st : Hook) (tm : Timer) :
  timerOk st tm = true <-> timerFacts st tm.
Proof.
  unfold timerOk, timerFacts.
  rewrite !andb_true_iff, Nat.ltb_lt, Nat.leb_le.
  destruct (callback tm).
  - rewrite !andb_true_iff, holds_true, String.eqb_eq, !Nat.eqb_eq. tauto.
  - rewrite negb_true_iff, <- not_true_iff_false, holds_true. tauto.
Qed.

Lemma wf_Wf (st : Hook) : wf st = true <-> Wf st.
Proof.
  unfold wf. rewrite !andb_true_iff, !forallb_forall. split.
  - intros [[[H1 H2] H3] H4]. constructor; auto.
    + intros tm Htm. apply timerOk_facts; auto.
    + unfold handleIssued in H3. intros k Hk. rewrite Hk in H3.
      apply Nat.ltb_lt; auto.
    + intros p Hp. apply Nat.ltb_lt; auto.
  - intros [H1 H2 H3 H4]. repeat split; auto.
    + intros tm Htm. apply timerOk_facts; auto.
    + unfold handleIssued. destruct (timerRef st); auto.
      apply Nat.ltb_lt; auto.
    + intros p Hp. apply Nat.ltb_lt; auto.
Qed.

Lemma Wf_mount (c : string) (en : bool) (d : nat) (s e : bool) :
  Wf (mount c en d s e).
Proof.
  unfold mount, debounceEffect; simpl.
  rewrite String.eqb_refl.
  destruct en; simpl; constructor; simpl; intros; try contradiction;
    try discriminate; auto.
Qed.

Lemma timerFacts_reset (st st' : Hook) (tm : Timer) :
  callback tm = ResetToIdle ->
  timerFacts st tm ->
  nextTimerId st <= nextTimerId st' ->
  now st' <= fireAt tm ->
  (forall k, timerRef st' = Some k -> timerRef st = Some k \/ nextTimerId st <= k) ->
  timerFacts st' tm.
Proof.
  unfold timerFacts. intros Hcb (H1 & H2 & H3) Hn Hnow Href.
  rewrite Hcb in *. repeat split; try lia.
  intros Hk. destruct (Href _ Hk) as [H|H]; [auto | lia].
Qed.

Lemma timerFacts_same (st st' : Hook) (tm : Timer) :
  timerFacts st tm ->
  sameControl st st' ->
  nextTimerId st <= nextTimerId st' ->
  now st' <= fireAt tm ->
  timerFacts st' tm.
Proof.
  unfold timerFacts, sameControl.
  intros (H1 & H2 & H3) (E1 & E2 & E3 & E4 & E5 & E6 & E7) Hn Hnow.
  rewrite E1, E2, E3, E4, E5, E6, E7. repeat split; auto; lia.
Qed.

Lemma sameControl_refl (st : Hook) : sameControl st st.
Proof. unfold sameControl; auto 10. Qed.

Lemma sameControl_trans (a b c : Hook) :
  sameControl a b -> sameControl b c -> sameControl a c.
Proof.
  unfold sameControl. intros (A1 & A2 & A3 & A4 & A5 & A6 & A7)
    (B1 & B2 & B3 & B4 & B5 & B6 & B7).
  repeat split; congruence.
Qed.

(** After the cleanup of the debounce effect only reset timers are left. *)
Lemma cleanup_leaves_resets (st : Hook) (tm : Timer) :
  Wf st -> In tm (timers (runEffectCleanup st)) -> callback tm = ResetToIdle.
Proof.
  intros W Hin. destruct (callback tm) as [c|] eqn:Hcb; auto. exfalso.
  assert (Hin' : In tm (timers st)).
  { unfold runEffectCleanup, clearTimerRef, clearTimeout in Hin.
    destruct (effectCleanup st); auto. destruct (timerRef st); auto.
    simpl in Hin. apply filter_In in Hin. tauto. }
  pose proof (wf_timers _ W _ Hin') as (_ & _ & F). rewrite Hcb in F.
  destruct F as (Fr & Fc & _).
  unfold runEffectCleanup, clearTimerRef, clearTimeout in Hin.
  rewrite Fc, Fr in Hin. simpl in Hin. apply filter_In in Hin.
  destruct Hin as [_ Hk]. unfold keepsTimer in Hk.
  rewrite Nat.eqb_refl in Hk. discriminate.
Qed.

Lemma clearTimerRef_leaves_resets (st : Hook) (tm : Timer) :
  Wf st -> In tm (timers (clearTimerRef st)) -> callback tm = ResetToIdle.
Proof.
  intros W Hin. destruct (callback tm) as [c|] eqn:Hcb; auto. exfalso.
  assert (Hin' : In tm (timers st)).
  { unfold clearTimerRef, clearTimeout in Hin.
    destruct (timerRef st); auto.
    simpl in Hin. apply filter_In in Hin. tauto. }
  pose proof (wf_timers _ W _ Hin') as (_ & _ & F). rewrite Hcb in F.
  destruct F as (Fr & _).
  unfold clearTimerRef, clearTimeout in Hin.
  rewrite Fr in Hin. simpl in Hin. apply filter_In in Hin.
  destruct Hin as [_ Hk]. unfold keepsTimer in Hk.
  rewrite Nat.eqb_refl in Hk. discriminate.
Qed.

Lemma Wf_clearTimerRef (st : Hook) : Wf st -> Wf (clearTimerRef st).
Proof.
  intros W. unfold clearTimerRef, clearTimeout.
  destruct (timerRef st) as [id|] eqn:Href; auto.
  destruct W as [W1 W2 W3 W4]. constructor; simpl; auto.
  - intros tm Hin. apply filter_In in Hin. destruct Hin as [Hin _].
    eapply timerFacts_same; [exact (W1 _ Hin) | | | ]; simpl; auto.
    + unfold sameControl; simpl; auto 10.
    + apply (W1 _ Hin).
  - apply inFiringOrder_filter; auto.
Qed.

Lemma Wf_runEffectCleanup (st : Hook) : Wf st -> Wf (runEffectCleanup st).
Proof.
  intros W. unfold runEffectCleanup.
  destruct (effectCleanup st); auto using Wf_clearTimerRef.
Qed.

Lemma fold_left_invariant (A B : Type) (P : A -> Prop) (Q : B -> Prop)
    (f : A -> B -> A) (l : list B) (a : A) :
  (forall x y, P x -> Q y -> P (f x y)) ->
  P a -> Forall Q l -> P (fold_left f l a).
Proof.
  intros Hf. revert a. induction l as [|b l IH]; simpl; intros a Ha Hl; auto.
  inversion Hl; subst. apply IH; auto.
Qed.

Lemma Wf_same (st st' : Hook) :
  Wf st -> sameControl st st' ->
  timers st' = timers st -> nextTimerId st' = nextTimerId st ->
  now st' = now st ->
  (forall p, In p (inflight st') -> promiseId p < nextPromiseId st') ->
  Wf st'.
Proof.
  intros [W1 W2 W3 W4] S Ht Hn Hnow Hp. constructor; auto.
  - rewrite Ht. intros tm Hin.
    eapply timerFacts_same; [exact (W1 _ Hin) | auto | lia | ].
    rewrite Hnow. apply (W1 _ Hin).
  - rewrite Ht; auto.
  - destruct S as (_ & _ & _ & E & _). rewrite E, Hn. auto.
Qed.

Lemma Wf_debounceEffect (st : Hook) :
  Wf st -> (forall tm, In tm (timers st) -> callback tm = ResetToIdle) ->
  lastChangeAt st = now st -> isMountedRef st = true ->
  Wf (debounceEffect st).
Proof.
  intros W R Hlc Hm.
  assert (Early : Wf (setEffectCleanup false st)).
  { destruct W as [W1 W2 W3 W4]. constructor; simpl; auto.
    intros tm Hin. eapply timerFacts_reset; eauto; simpl; auto.
    apply (W1 _ Hin). }
  unfold debounceEffect.
  destruct (enabled st) eqn:Hen; simpl; auto.
  destruct (String.eqb (content st) (lastSavedContentRef st)); auto.
  pose proof (Wf_clearTimerRef _ W) as [W1 W2 W3 W4].
  assert (Hnow : now (clearTimerRef st) = now st).
  { unfold clearTimerRef. destruct (timerRef st); reflexivity. }
  assert (Hsub : forall tm, In tm (timers (clearTimerRef st)) -> In tm (timers st)).
  { unfold clearTimerRef, clearTimeout. destruct (timerRef st); auto.
    simpl. intros tm Hin. apply filter_In in Hin. tauto. }
  assert (Hprops : sameControl st (clearTimerRef st)).
  { unfold clearTimerRef. destruct (timerRef st); simpl;
      unfold sameControl; simpl; auto 10. }
  constructor; simpl; auto.
  - intros tm Hin. apply In_enqueue in Hin. destruct Hin as [->|Hin].
    + unfold timerFacts; simpl. unfold fireAt; simpl.
      destruct Hprops as (E1 & E2 & E3 & E4 & E5 & E6 & E7).
      rewrite E1, E2, E3, E5, E7, Hnow. repeat split; auto; lia.
    + eapply timerFacts_reset; eauto; simpl; auto.
      * apply (W1 _ Hin).
      * intros k [= <-]. auto.
  - apply inFiringOrder_enqueue; auto.
  - intros k [= <-]. auto.
Qed.

Lemma Wf_render (c : string) (en : bool) (d : nat) (fresh : bool)
    (st : Hook) :
  Wf st -> isMountedRef st = true -> Wf (render c en d fresh st).
Proof.
  intros W Hm. unfold render. destruct (depsChanged c en d fresh st); auto.
  pose proof (Wf_runEffectCleanup _ W) as W'.
  assert (Hm' : isMountedRef (runEffectCleanup st) = true).
  { unfold runEffectCleanup, clearTimerRef.
    destruct (effectCleanup st); auto. destruct (timerRef st); auto. }
  assert (Hnow : now (runEffectCleanup st) = now st).
  { unfold runEffectCleanup, clearTimerRef.
    destruct (effectCleanup st); auto. destruct (timerRef st); auto. }
  apply Wf_debounceEffect; simpl; auto.
  - destruct W' as [W1 W2 W3 W4]. constructor; simpl; auto.
    intros tm Hin. eapply timerFacts_reset; eauto; simpl; auto.
    + eapply cleanup_leaves_resets; [exact W | exact Hin].
    + apply (W1 _ Hin).
  - intros tm Hin. eapply cleanup_leaves_resets; [exact W | exact Hin].
Qed.

Lemma performSave_frame (c : string) (f : bool) (st : Hook) :
  sameControl st (performSave c f st)
  /\ timers (performSave c f st) = timers st
  /\ nextTimerId (performSave c f st) = nextTimerId st
  /\ now (performSave c f st) = now st
  /\ lastSavedContentRef (performSave c f st) = lastSavedContentRef st
  /\ callbackLog (performSave c f st) = callbackLog st
  /\ ((forall p, In p (inflight st) -> promiseId p < nextPromiseId st) ->
      forall p, In p (inflight (performSave c f st)) ->
                promiseId p < nextPromiseId (performSave c f st)).
Proof.
  unfold performSave, sameControl.
  destruct (isMountedRef st) eqn:Hm; simpl;
    (repeat match goal with |- _ /\ _ => split end); auto.
  - intros H p Hin. apply in_app_or in Hin. destruct Hin as [Hin|[<-|[]]].
    + specialize (H _ Hin). lia.
    + simpl. lia.
Qed.

Lemma runTimer_frame (tm : Timer) (st : Hook) :
  sameControl st (runTimer tm st)
  /\ timers (runTimer tm st) = timers st
  /\ nextTimerId (runTimer tm st) = nextTimerId st
  /\ now (runTimer tm st) = Nat.max (now st) (fireAt tm)
  /\ lastSavedContentRef (runTimer tm st) = lastSavedContentRef st
  /\ callbackLog (runTimer tm st) = callbackLog st
  /\ ((forall p, In p (inflight st) -> promiseId p < nextPromiseId st) ->
      forall p, In p (inflight (runTimer tm st)) ->
                promiseId p < nextPromiseId (runTimer tm st)).
Proof.
  unfold runTimer. destruct (callback tm) as [c|].
  - pose proof (performSave_frame c false
                  (setNow (Nat.max (now st) (fireAt tm)) st)) as H.
    simpl in H. exact H.
  - simpl. destruct (isMountedRef st) eqn:Hm; unfold sameControl; simpl;
      (repeat match goal with |- _ /\ _ => split end); auto.
Qed.

Lemma advanceFrame_runTimer (st : Hook) (later : list Timer) (target : nat)
    (s : Hook) (tm : Timer) :
  advanceFrame st later target s -> fireAt tm <= target ->
  advanceFrame st later target (runTimer tm s).
Proof.
  intros (S & Ht & Hn & Hnow & Hl & Hc & Hp) Hdue.
  destruct (runTimer_frame tm s) as (S' & Ht' & Hn' & Hnow' & Hl' & Hc' & Hp').
  unfold advanceFrame. repeat match goal with |- _ /\ _ => split end;
    try congruence; try lia; auto.
  eapply sameControl_trans; eauto.
Qed.

Lemma advance_frame (dt : nat) (st : Hook) :
  (forall p, In p (inflight st) -> promiseId p < nextPromiseId st) ->
  exists s,
    advance dt st = setNow (now st + dt) s
    /\ advanceFrame st (filter (fun tm => negb (isDue (now st + dt) tm)) (timers st))
         (now st + dt) s.
Proof.
  intros Hp. unfold advance. eexists; split; [reflexivity|].
  apply fold_left_invariant with (Q := fun tm => fireAt tm <= now st + dt).
  - intros x y Hx Hy. apply advanceFrame_runTimer; auto.
  - unfold advanceFrame, sameControl; simpl.
    repeat match goal with |- _ /\ _ => split end; auto; lia.
  - apply Forall_forall. intros tm Hin. apply filter_In in Hin.
    destruct Hin as [_ H]. apply Nat.leb_le in H. exact H.
Qed.

Lemma Wf_advance (dt : nat) (st : Hook) : Wf st -> Wf (advance dt st).
Proof.
  intros [W1 W2 W3 W4].
  destruct (advance_frame dt st W4) as (s & -> & S & Ht & Hn & Hnow & _ & _ & Hp).
  constructor; simpl; auto.
  - rewrite Ht. intros tm Hin. apply filter_In in Hin. destruct Hin as [Hin Hd].
    unfold isDue in Hd. apply negb_true_iff, Nat.leb_gt in Hd.
    eapply timerFacts_same; [exact (W1 _ Hin) | | | ]; simpl; try lia.
    unfold sameControl in *; simpl; tauto.
  - rewrite Ht. apply inFiringOrder_filter; auto.
  - destruct S as (_ & _ & _ & E & _). rewrite E, Hn. auto.
Qed.

Lemma In_removePending (pid : nat) (st : Hook) (p : PendingSave) :
  In p (inflight (removePending pid st)) -> In p (inflight st).
Proof.
  unfold removePending; simpl. intros H. apply filter_In in H. tauto.
Qed.

Lemma Wf_removePending (pid : nat) (st : Hook) :
  Wf st -> Wf (removePending pid st).
Proof.
  intros W. eapply Wf_same; [exact W | | | | | ];
    try reflexivity.
  - unfold sameControl; simpl; auto 10.
  - intros p Hin. apply In_removePending in Hin. apply (wf_promises _ W _ Hin).
Qed.

Lemma Wf_setTimeout_reset (ms : nat) (st : Hook) :
  Wf st -> Wf (snd (setTimeout ResetToIdle ms st)).
Proof.
  intros [W1 W2 W3 W4]. constructor; simpl; auto.
  - intros tm Hin. apply In_enqueue in Hin. destruct Hin as [->|Hin].
    + unfold timerFacts, fireAt; simpl. repeat split; try lia.
      intros Hk. apply W3 in Hk. lia.
    + eapply timerFacts_same; [exact (W1 _ Hin) | | | ]; simpl; auto.
      * unfold sameControl; simpl; auto 10.
      * apply (W1 _ Hin).
  - apply inFiringOrder_enqueue; auto.
  - intros k Hk. apply W3 in Hk. lia.
Qed.

Lemma Wf_log (st st' : Hook) :
  Wf st -> sameControl st st' ->
  timers st' = timers st -> nextTimerId st' = nextTimerId st ->
  now st' = now st -> inflight st' = inflight st ->
  nextPromiseId st' = nextPromiseId st ->
  Wf st'.
Proof.
  intros W S Ht Hn Hnow Hi Hp. eapply Wf_same; eauto.
  rewrite Hi, Hp. apply (wf_promises _ W).
Qed.

Lemma Wf_saveResolved (p : PendingSave) (st : Hook) :
  Wf st -> Wf (saveResolved p st).
Proof.
  intros W. unfold saveResolved.
  assert (L : forall s x, Wf s -> Wf (logSettled x s)).
  { intros s x Ws. eapply Wf_log; [exact Ws | | | | | | ]; try reflexivity.
    unfold sameControl; simpl; auto 10. }
  apply L. destruct (isMountedRef st); auto.
  apply Wf_setTimeout_reset. unfold callOnSuccess; simpl.
  destruct (hasOnSuccess st);
    (eapply Wf_log; [exact W | | | | | | ]; try reflexivity;
     unfold sameControl; simpl; auto 10).
Qed.

Lemma Wf_saveRejected (p : PendingSave) (err : JsValue) (st : Hook) :
  Wf st -> Wf (saveRejected p err st).
Proof.
  intros W. unfold saveRejected, callOnError.
  destruct (isMountedRef st) eqn:Hm; simpl;
    [destruct (hasOnError st) eqn:He; simpl; rewrite ?He|];
    (eapply Wf_same; [exact W | | | | | ]; try reflexivity;
     [ unfold sameControl; simpl; auto 10 | simpl; apply (wf_promises _ W) ]).
Qed.

Lemma Wf_forceSave (st : Hook) : Wf st -> Wf (forceSave st).
Proof.
  intros W. apply Wf_clearTimerRef in W. unfold forceSave.
  destruct (performSave_frame (content st) true (clearTimerRef st))
    as (S & Ht & Hn & Hnow & _ & _ & Hp).
  eapply Wf_same; [exact W | | | | | ]; auto.
  apply Hp, (wf_promises _ W).
Qed.

Lemma unmount_unfold (st : Hook) :
  unmount st =
  match timerRef st with
  | Some id =>
      setTimers (filter (fun tm => keepsTimer id tm
                                   && (negb (effectCleanup st) || keepsTimer id tm))
                   (timers st))
        (nextTimerId st) (setIsMounted false st)
  | None => setIsMounted false st
  end.
Proof.
  unfold unmount, runEffectCleanup, clearTimerRef, clearTimeout; simpl.
  destruct (timerRef st) as [id|] eqn:Hr; simpl;
    destruct (effectCleanup st); simpl; rewrite ?Hr; simpl; auto;
    unfold setTimers; simpl; f_equal.
  - induction (timers st) as [|x q IH]; simpl; auto.
    destruct (keepsTimer id x) eqn:E; simpl; rewrite ?E; simpl; congruence.
  - apply filter_ext. intros x. rewrite andb_true_r. reflexivity.
Qed.

Lemma unmount_timers (st : Hook) (tm : Timer) :
  Wf st -> In tm (timers (unmount st)) ->
  In tm (timers st) /\ callback tm = ResetToIdle.
Proof.
  intros W Hin. rewrite unmount_unfold in Hin.
  assert (Hsub : In tm (timers st)).
  { destruct (timerRef st); simpl in Hin; auto.
    apply filter_In in Hin. tauto. }
  split; auto.
  destruct (callback tm) as [c|] eqn:Hcb; auto. exfalso.
  pose proof (wf_timers _ W _ Hsub) as (_ & _ & F). rewrite Hcb in F.
  destruct F as (Fr & _). rewrite Fr in Hin. simpl in Hin.
  apply filter_In in Hin. destruct Hin as [_ Hk].
  unfold keepsTimer in Hk. rewrite Nat.eqb_refl in Hk. discriminate.
Qed.

Lemma unmount_frame (st : Hook) :
  isMountedRef (unmount st) = false
  /\ timerRef (unmount st) = timerRef st
  /\ nextTimerId (unmount st) = nextTimerId st
  /\ now (unmount st) = now st
  /\ inflight (unmount st) = inflight st
  /\ nextPromiseId (unmount st) = nextPromiseId st
  /\ status (unmount st) = status st
  /\ lastSavedContentRef (unmount st) = lastSavedContentRef st
  /\ saveCalls (unmount st) = saveCalls st
  /\ callbackLog (unmount st) = callbackLog st
  /\ exists f, timers (unmount st) = filter f (timers st).
Proof.
  rewrite unmount_unfold.
  destruct (timerRef st) as [id|] eqn:Hr; simpl;
    repeat match goal with |- _ /\ _ => split end; auto.
  - eexists; reflexivity.
  - exists (fun _ => true). induction (timers st) as [|x q IH]; simpl; congruence.
Qed.

Lemma Wf_unmount (st : Hook) : Wf st -> Wf (unmount st).
Proof.
  intros W.
  destruct (unmount_frame st) as (Hm & Hr & Hn & Hnow & Hi & Hp & _ & _ & _ & _ & f & Hf).
  constructor.
  - intros tm Hin. destruct (unmount_timers _ _ W Hin) as [Hsub Hcb].
    eapply timerFacts_reset; [exact Hcb | exact (wf_timers _ W _ Hsub) | | | ].
    + lia.
    + rewrite Hnow. apply (wf_timers _ W _ Hsub).
    + intros k Hk. left. congruence.
  - rewrite Hf. apply inFiringOrder_filter, (wf_order _ W).
  - rewrite Hr, Hn. apply (wf_handle _ W).
  - rewrite Hi, Hp. apply (wf_promises _ W).
Qed.

Lemma lookupPending_In (pid : nat) (st : Hook) (p : PendingSave) :
  lookupPending pid st = Some p -> In p (inflight st) /\ promiseId p = pid.
Proof.
  unfold lookupPending. intros H. apply find_some in H.
  destruct H as [H1 H2]. apply Nat.eqb_eq in H2. auto.
Qed.

(** The invariant holds at the mount and every event keeps it. *)
Lemma Wf_step (e : Event) (st : Hook) : Wf st -> Wf (step e st).
Proof.
  intros W. destruct e as [c en d fresh|dt|pid|pid err| | |]; simpl.
  - destruct (isMountedRef st) eqn:Hm; auto using Wf_render.
  - apply Wf_advance; auto.
  - destruct (lookupPending pid st); auto.
    apply Wf_saveResolved, Wf_removePending; auto.
  - destruct (lookupPending pid st); auto.
    apply Wf_saveRejected, Wf_removePending; auto.
  - apply Wf_forceSave; auto.
  - destruct (isMountedRef st); auto. unfold resetStatus.
    eapply Wf_same; [exact W | | | | | ]; try reflexivity.
    + unfold sameControl; simpl; auto 10.
    + apply (wf_promises _ W).
  - destruct (isMountedRef st); auto using Wf_unmount.
Qed.

Lemma Wf_run (evs : list Event) (st : Hook) : Wf st -> Wf (run evs st).
Proof.
  revert st. induction evs as [|e evs IH]; simpl; intros st W; auto.
  apply IH, Wf_step, W.
Qed.

Lemma wf_mount (c : string) (en : bool) (d : nat) (s e : bool) :
  wf (mount c en d s e) = true.
Proof. apply wf_Wf, Wf_mount. Qed.

Lemma wf_step (e : Event) (st : Hook) : wf st = true -> wf (step e st) = true.
Proof. rewrite !wf_Wf. apply Wf_step. Qed.

Lemma wf_run (evs : list Event) (st : Hook) :
  wf st = true -> wf (run evs st) = true.
Proof. rewrite !wf_Wf. apply Wf_run. Qed.

(** ** When a save settles *)

Lemma saveResolved_mounted (p : PendingSave) (st : Hook) :
  isMountedRef st = true ->
  lastSavedContentRef (saveResolved p st) = pendingContent p
  /\ status (saveResolved p st) = saved
  /\ content (saveResolved p st) = content st
  /\ callbackLog (saveResolved p st)
     = callbackLog st ++ (if hasOnSuccess st then [OnSuccessCalled] else [])
  /\ timers (saveResolved p st)
     = enqueue (mkTimer (nextTimerId st) (now st) 2000 ResetToIdle) (timers st)
  /\ now (saveResolved p st) = now st
  /\ isMountedRef (saveResolved p st) = true
  /\ saveCalls (saveResolved p st) = saveCalls st.
Proof.
  intros Hm. unfold saveResolved, callOnSuccess. rewrite Hm. simpl.
  destruct (hasOnSuccess st); simpl; rewrite ?app_nil_r; auto 10.
Qed.

Lemma saveRejected_mounted (p : PendingSave) (err : JsValue) (st : Hook) :
  isMountedRef st = true ->
  status (saveRejected p err st) = error
  /\ lastSavedContentRef (saveRejected p err st) = lastSavedContentRef st
  /\ content (saveRejected p err st) = content st
  /\ callbackLog (saveRejected p err st)
     = callbackLog st ++
       (if hasOnError st
        then [OnErrorCalled (if instanceofError err then err
                             else ErrorInstance "Save failed")]
        else [])
  /\ timers (saveRejected p err st) = timers st
  /\ now (saveRejected p err st) = now st
  /\ isMountedRef (saveRejected p err st) = true
  /\ saveCalls (saveRejected p err st) = saveCalls st
  /\ enabled (saveRejected p err st) = enabled st
  /\ debounceMs (saveRejected p err st) = debounceMs st.
Proof.
  intros Hm. unfold saveRejected, callOnError. rewrite Hm. simpl.
  destruct (hasOnError st); simpl; rewrite ?app_nil_r; auto 12.
Qed.

Lemma settled_after_resolve (p : PendingSave) (st : Hook) :
  settledLog (saveResolved p st)
  = settledLog st ++ [mkSettlement (promiseId p) (viaForceSave p) Fulfilled].
Proof.
  unfold saveResolved, callOnSuccess.
  destruct (isMountedRef st); simpl; auto.
  destruct (hasOnSuccess st); reflexivity.
Qed.

Lemma settled_after_reject (p : PendingSave) (err : JsValue) (st : Hook) :
  settledLog (saveRejected p err st)
  = settledLog st ++ [mkSettlement (promiseId p) (viaForceSave p) Fulfilled].
Proof.
  unfold saveRejected, callOnError.
  destruct (isMountedRef st); simpl; auto.
  destruct (hasOnError st); reflexivity.
Qed.

(** C10.  The argument of [onError] is the rejection value when that value
    is an [Error], and a fresh [Error('Save failed')] otherwise: a
    rejection value that is not an [Error] does not reach the callback. *)
Theorem onError_receives_error_or_generic (st : Hook) (pid : nat)
    (p : PendingSave) (err : JsValue) :
  isMountedRef st = true ->
  hasOnError st = true ->
  lookupPending pid st = Some p ->
  let st' := step (Reject pid err) st in
  (instanceofError err = true ->
   callbackLog st' = callbackLog st ++ [OnErrorCalled err])
  /\ (instanceofError err = false ->
      callbackLog st'
      = callbackLog st ++ [OnErrorCalled (ErrorInstance "Save failed")]).
Proof.
  intros Hm He Hp. simpl. rewrite Hp.
  destruct (saveRejected_mounted p err (removePending pid st) Hm)
    as (_ & _ & _ & H4 & _).
  rewrite H4. simpl. rewrite He.
  split; intros ->; reflexivity.
Qed.

(** ** After the unmount *)

Lemma performSave_unmounted (c : string) (f : bool) (st : Hook) :
  isMountedRef st = false ->
  status (performSave c f st) = status st
  /\ lastSavedContentRef (performSave c f st) = lastSavedContentRef st
  /\ saveCalls (performSave c f st) = saveCalls st
  /\ callbackLog (performSave c f st) = callbackLog st
  /\ isMountedRef (performSave c f st) = false.
Proof.
  intros Hm. unfold performSave. rewrite Hm. simpl. auto.
Qed.

(** A timer that fires after the unmount changes nothing a consumer of the
    hook can see. *)
Lemma runTimer_unmounted (tm : Timer) (st : Hook) :
  isMountedRef st = false ->
  status (runTimer tm st) = status st
  /\ lastSavedContentRef (runTimer tm st) = lastSavedContentRef st
  /\ saveCalls (runTimer tm st) = saveCalls st
  /\ callbackLog (runTimer tm st) = callbackLog st
  /\ isMountedRef (runTimer tm st) = false.
Proof.
  intros Hm. unfold runTimer. destruct (callback tm) as [c|].
  - apply (performSave_unmounted c false
             (setNow (Nat.max (now st) (fireAt tm)) st)). exact Hm.
  - simpl. rewrite Hm. simpl. auto.
Qed.

Lemma step_unmounted (e : Event) (st : Hook) :
  isMountedRef st = false ->
  status (step e st) = status st
  /\ lastSavedContentRef (step e st) = lastSavedContentRef st
  /\ saveCalls (step e st) = saveCalls st
  /\ callbackLog (step e st) = callbackLog st
  /\ isMountedRef (step e st) = false.
Proof.
  intros Hm. destruct e as [c en d fresh|dt|pid|pid err| | |]; simpl;
    rewrite ?Hm; auto.
  - unfold advance. simpl.
    set (s0 := setTimers _ _ st).
    assert (H0 : status s0 = status st
                 /\ lastSavedContentRef s0 = lastSavedContentRef st
                 /\ saveCalls s0 = saveCalls st
                 /\ callbackLog s0 = callbackLog st
                 /\ isMountedRef s0 = false) by (subst s0; simpl; auto).
    clearbody s0.
    generalize dependent s0.
    induction (filter (isDue (now st + dt)) (timers st)) as [|tm l IH];
      simpl; intros s0 H0; auto.
    apply IH.
    destruct H0 as (A & B & C & D & E).
    destruct (runTimer_unmounted tm s0 E) as (A' & B' & C' & D' & E').
    repeat split; congruence.
  - destruct (lookupPending pid st); auto.
    unfold saveResolved. simpl. rewrite Hm. simpl. auto.
  - destruct (lookupPending pid st); auto.
    unfold saveRejected. simpl. rewrite Hm. simpl. auto.
  - unfold forceSave.
    assert (Hc : isMountedRef (clearTimerRef st) = false
                 /\ status (clearTimerRef st) = status st
                 /\ lastSavedContentRef (clearTimerRef st) = lastSavedContentRef st
                 /\ saveCalls (clearTimerRef st) = saveCalls st
                 /\ callbackLog (clearTimerRef st) = callbackLog st
                 /\ content (clearTimerRef st) = content st).
    { unfold clearTimerRef. destruct (timerRef st); simpl; auto 10. }
    destruct Hc as (H0 & H1 & H2 & H3 & H4 & H5).
    destruct (performSave_unmounted (content st) true (clearTimerRef st) H0)
      as (A & B & C & D & E).
    repeat split; congruence.
Qed.

(** C7.  The unmount cancels the pending debounce timer, and nothing that
    happens afterwards (a timer, a promise settling, a stale callback) moves
    the status, the snapshot, or calls [onSave] or a callback. *)
Theorem unmount_cancels_and_silences (st : Hook) (evs : list Event) :
  wf st = true ->
  isMountedRef st = true ->
  let st0 := step Unmount st in
  let st' := run evs st0 in
  debounceTimers (timers st0) = []
  /\ status st0 = status st
  /\ lastSavedContentRef st0 = lastSavedContentRef st
  /\ status st' = status st0
  /\ lastSavedContentRef st' = lastSavedContentRef st0
  /\ saveCalls st' = saveCalls st0
  /\ callbackLog st' = callbackLog st0.
Proof.
  intros W Hm. apply wf_Wf in W. simpl. rewrite Hm.
  destruct (unmount_frame st) as (Hu & _ & _ & _ & _ & _ & Hs & Hl & _).
  split; [|split; [exact Hs | split; [exact Hl|]]].
  - unfold debounceTimers.
    destruct (filter _ (timers (unmount st))) as [|tm l] eqn:E; auto.
    assert (Hin : In tm (filter (fun tm => isDebouncedSave (callback tm))
                           (timers (unmount st)))) by (rewrite E; simpl; auto).
    apply filter_In in Hin. destruct Hin as [Hin Hd].
    apply (unmount_timers _ _ W) in Hin. destruct Hin as [_ Hcb].
    rewrite Hcb in Hd. discriminate.
  - generalize (unmount st) Hu. clear.
    induction evs as [|e evs IH]; simpl; intros s Hs; auto.
    destruct (step_unmounted e s Hs) as (A & B & C & D & E).
    destruct (IH _ E) as (A' & B' & C' & D').
    repeat split; congruence.
Qed.

(** ** What the passage of time does *)

Lemma debounceTimers_nil (q : list Timer) :
  debounceTimers q = [] <-> forall tm, In tm q -> callback tm = ResetToIdle.
Proof.
  unfold debounceTimers. induction q as [|x q IH]; simpl.
  - split; auto. intros _ tm [].
  - destruct (callback x) eqn:Hx; simpl.
    + split; [discriminate|]. intros H. specialize (H x (or_introl eq_refl)).
      congruence.
    + rewrite IH. split.
      * intros H tm [<-|Hin]; auto.
      * intros H tm Hin. apply H; auto.
Qed.

Lemma debounceTimers_enqueue (tm : Timer) (q : list Timer) :
  debounceTimers q = [] ->
  debounceTimers (enqueue tm q)
  = if isDebouncedSave (callback tm) then [tm] else [].
Proof.
  unfold debounceTimers. induction q as [|x q IH]; simpl; auto.
  destruct (isDebouncedSave (callback x)) eqn:Hx; [discriminate|].
  intros H. destruct (fireAt tm <? fireAt x); simpl; rewrite Hx.
  - rewrite H. reflexivity.
  - apply IH, H.
Qed.

Lemma debounceTimers_filter (f : Timer -> bool) (q : list Timer) :
  debounceTimers (filter f q) = filter f (debounceTimers q).
Proof.
  unfold debounceTimers. induction q as [|x q IH]; simpl; auto.
  destruct (f x) eqn:Hf, (isDebouncedSave (callback x)) eqn:Hx; simpl;
    rewrite ?Hf, ?Hx; congruence.
Qed.

Lemma savesOf_debounceTimers (q : list Timer) :
  savesOf q = savesOf (debounceTimers q).
Proof.
  unfold savesOf, debounceTimers. induction q as [|x q IH]; simpl; auto.
  destruct (callback x) eqn:Hx; simpl; rewrite ?Hx; simpl; congruence.
Qed.

(** The timers that are due run in firing order, so each debounced save
    reaches [onSave] at the firing time of its timer. *)
Lemma fold_runTimer_saves (l : list Timer) (s : Hook) :
  isMountedRef s = true ->
  inFiringOrder l = true ->
  (forall tm, In tm l -> now s <= fireAt tm) ->
  saveCalls (fold_left (fun s tm => runTimer tm s) l s) = saveCalls s ++ savesOf l.
Proof.
  revert s. induction l as [|tm l IH]; simpl; intros s Hm Ho Hn.
  - rewrite app_nil_r. reflexivity.
  - apply andb_true_iff in Ho. destruct Ho as [Ho1 Ho2].
    rewrite forallb_forall in Ho1.
    destruct (runTimer_frame tm s) as (S & _ & _ & Hnow & _).
    assert (Hmax : Nat.max (now s) (fireAt tm) = fireAt tm).
    { apply Nat.max_r, Hn. auto. }
    rewrite IH; auto.
    + unfold savesOf; simpl. rewrite app_assoc. f_equal.
      unfold runTimer, performSave. rewrite Hmax.
      destruct (callback tm) as [c|]; simpl; rewrite Hm; simpl; auto.
      rewrite app_nil_r. reflexivity.
    + destruct S as (_ & _ & _ & _ & E & _). congruence.
    + intros x Hx. rewrite Hnow, Hmax. apply Nat.leb_le, Ho1, Hx.
Qed.

Lemma advance_saves (dt : nat) (st : Hook) :
  Wf st -> isMountedRef st = true ->
  saveCalls (advance dt st)
  = saveCalls st ++ savesOf (filter (isDue (now st + dt)) (timers st)).
Proof.
  intros W Hm. unfold advance. simpl.
  rewrite fold_runTimer_saves; simpl; auto.
  - apply inFiringOrder_filter, (wf_order _ W).
  - intros tm Hin. apply filter_In in Hin. destruct Hin as [Hin _].
    apply (wf_timers _ W _ Hin).
Qed.

Lemma advance_fields (dt : nat) (st : Hook) :
  Wf st ->
  content (advance dt st) = content st
  /\ enabled (advance dt st) = enabled st
  /\ debounceMs (advance dt st) = debounceMs st
  /\ isMountedRef (advance dt st) = isMountedRef st
  /\ lastChangeAt (advance dt st) = lastChangeAt st
  /\ lastSavedContentRef (advance dt st) = lastSavedContentRef st
  /\ callbackLog (advance dt st) = callbackLog st
  /\ now (advance dt st) = now st + dt
  /\ timers (advance dt st)
     = filter (fun tm => negb (isDue (now st + dt) tm)) (timers st).
Proof.
  intros W.
  destruct (advance_frame dt st (wf_promises _ W))
    as (s & -> & S & Ht & _ & _ & Hl & Hc & _).
  destruct S as (E1 & E2 & E3 & E4 & E5 & E6 & E7). simpl. auto 10.
Qed.

(** A run of the debounce effect after a change of its dependencies leaves
    exactly the timer it armed, or none when it left early. *)
Lemma render_changed (c : string) (en : bool) (d : nat) (fresh : bool)
    (st : Hook) :
  Wf st -> depsChanged c en d fresh st = true ->
  let st' := render c en d fresh st in
  content st' = c /\ enabled st' = en /\ debounceMs st' = d
  /\ isMountedRef st' = isMountedRef st
  /\ lastChangeAt st' = now st /\ now st' = now st
  /\ lastSavedContentRef st' = lastSavedContentRef st
  /\ saveCalls st' = saveCalls st /\ status st' = status st
  /\ callbackLog st' = callbackLog st
  /\ debounceTimers (timers st')
     = if en && negb (String.eqb c (lastSavedContentRef st))
       then [mkTimer (nextTimerId st) (now st) d (DebouncedSave c)]
       else [].
Proof.
  intros W Hd. unfold render. rewrite Hd.
  set (s1 := setLastChangeAt (now st) (setProps c en d (runEffectCleanup st))).
  assert (F : content s1 = c /\ enabled s1 = en /\ debounceMs s1 = d
              /\ isMountedRef s1 = isMountedRef st
              /\ lastChangeAt s1 = now st /\ now s1 = now st
              /\ lastSavedContentRef s1 = lastSavedContentRef st
              /\ saveCalls s1 = saveCalls st /\ status s1 = status st
              /\ callbackLog s1 = callbackLog st
              /\ nextTimerId s1 = nextTimerId st
              /\ debounceTimers (timers s1) = []).
  { subst s1. simpl.
    assert (R : debounceTimers (timers (runEffectCleanup st)) = []).
    { apply debounceTimers_nil. intros tm Hin.
      eapply cleanup_leaves_resets; [exact W | exact Hin]. }
    revert R. unfold runEffectCleanup, clearTimerRef.
    destruct (effectCleanup st); [destruct (timerRef st)|]; simpl; auto 12. }
  clearbody s1.
  destruct F as (F1 & F2 & F3 & F4 & F5 & F6 & F7 & F8 & F9 & F10 & F11 & F12).
  unfold debounceEffect. rewrite F1, F2, F3, F7.
  destruct en; simpl; auto 12.
  destruct (String.eqb c (lastSavedContentRef st)); simpl; auto 12.
  assert (C : debounceTimers (timers (clearTimerRef s1)) = []
              /\ nextTimerId (clearTimerRef s1) = nextTimerId st
              /\ now (clearTimerRef s1) = now st
              /\ isMountedRef (clearTimerRef s1) = isMountedRef st
              /\ lastChangeAt (clearTimerRef s1) = now st
              /\ lastSavedContentRef (clearTimerRef s1) = lastSavedContentRef st
              /\ saveCalls (clearTimerRef s1) = saveCalls st
              /\ status (clearTimerRef s1) = status st
              /\ callbackLog (clearTimerRef s1) = callbackLog st
              /\ content (clearTimerRef s1) = c
              /\ enabled (clearTimerRef s1) = true
              /\ debounceMs (clearTimerRef s1) = d).
  { unfold clearTimerRef, clearTimeout. destruct (timerRef s1); simpl; auto 15.
    rewrite debounceTimers_filter, F12. simpl. auto 15. }
  destruct C as (C1 & C2 & C3 & C4 & C5 & C6 & C7 & C8 & C9 & C10 & C11 & C12).
  rewrite (debounceTimers_enqueue _ _ C1). simpl. rewrite C2, C3.
  auto 12.
Qed.

(** ** Bursts of changes *)

Lemma last_cons_default (A : Type) (x d : A) (l : list A) :
  last (x :: l) d = last l x.
Proof.
  revert x d. induction l as [|y l IH]; intros x d; auto.
  change (last (x :: y :: l) d) with (last (y :: l) d).
  rewrite !IH. reflexivity.
Qed.

Lemma burst_after_render (rest : list (nat * string)) (L : string) (s : Hook) :
  justRendered L s ->
  withinWindow (debounceMs s) rest = true ->
  realChanges (content s) (map snd rest) = true ->
  saveCalls (run (typing true (debounceMs s) rest ++ [Advance (debounceMs s)]) s)
  = saveCalls s ++
    (if String.eqb (last (map snd rest) (content s)) L then []
     else [(now s + list_sum (map fst rest) + debounceMs s,
            last (map snd rest) (content s))]).
Proof.
  revert s. induction rest as [|[g c'] rest IH];
    intros s (W & Hm & Hen & HL & Hlc & id & HT) Hw Hr.
  - cbn [typing flat_map app run fold_left step map last list_sum].
    rewrite advance_saves by auto.
    rewrite savesOf_debounceTimers, debounceTimers_filter, HT.
    destruct (String.eqb (content s) L); simpl; auto.
    unfold isDue, fireAt; simpl. rewrite Nat.leb_refl. simpl.
    unfold fireAt; simpl. rewrite Nat.add_0_r. reflexivity.
  - simpl in Hw, Hr. apply andb_true_iff in Hw. destruct Hw as [Hg Hw].
    apply andb_true_iff in Hr. destruct Hr as [Hc Hr].
    apply Nat.ltb_lt in Hg. apply negb_true_iff in Hc.
    destruct (advance_fields g s W)
      as (A1 & A2 & A3 & A4 & A5 & A6 & A7 & A8 & A9).
    assert (W1 : Wf (advance g s)) by (apply Wf_advance, W).
    assert (S1 : saveCalls (advance g s) = saveCalls s).
    { rewrite advance_saves by auto.
      rewrite savesOf_debounceTimers, debounceTimers_filter, HT.
      destruct (String.eqb (content s) L); simpl; [apply app_nil_r|].
      unfold isDue, fireAt; simpl.
      replace (now s + debounceMs s <=? now s + g) with false
        by (symmetry; apply Nat.leb_gt; lia).
      simpl. apply app_nil_r. }
    assert (Hd : depsChanged c' true (debounceMs s) false (advance g s) = true).
    { unfold depsChanged. rewrite A1, Hc. reflexivity. }
    change (run (typing true (debounceMs s) ((g, c') :: rest)
                   ++ [Advance (debounceMs s)]) s)
      with (run (typing true (debounceMs s) rest ++ [Advance (debounceMs s)])
              (step (Render c' true (debounceMs s) false) (advance g s))).
    remember (advance g s) as s1 eqn:Es1.
    pose proof (render_changed c' true (debounceMs s) false s1 W1 Hd) as R.
    cbv zeta in R.
    destruct R as (R1 & R2 & R3 & R4 & R5 & R6 & R7 & R8 & R9 & R10 & R11).
    cbn [step]. rewrite A4, Hm.
    remember (render c' true (debounceMs s) false s1) as s2 eqn:Es2.
    assert (J : justRendered L s2).
    { unfold justRendered. repeat match goal with |- _ /\ _ => split end.
      - rewrite Es2. apply Wf_render; auto. congruence.
      - congruence.
      - auto.
      - congruence.
      - congruence.
      - exists (nextTimerId s1). rewrite R11, R1, R3, R6, A6, HL.
        simpl. destruct (String.eqb c' L); reflexivity. }
    rewrite <- R3 at 1 2. rewrite IH; auto; try (rewrite R3; auto);
      try (rewrite R1; auto).
    rewrite R8, S1, R6, A8. simpl map. rewrite last_cons_default.
    destruct (String.eqb (last (map snd rest) c') L); auto.
    simpl list_sum. do 3 f_equal. lia.
Qed.

Lemma burst_saves (st : Hook) (c0 : string) (rest : list (nat * string)) :
  Wf st -> isMountedRef st = true -> enabled st = true ->
  realChanges (content st) (c0 :: map snd rest) = true ->
  withinWindow (debounceMs st) rest = true ->
  saveCalls (run (Render c0 true (debounceMs st) false
                  :: typing true (debounceMs st) rest
                     ++ [Advance (debounceMs st)]) st)
  = saveCalls st ++
    (if String.eqb (last (map snd rest) c0) (lastSavedContentRef st) then []
     else [(now st + list_sum (map fst rest) + debounceMs st,
            last (map snd rest) c0)]).
Proof.
  intros W Hm Hen Hr Hw. simpl in Hr.
  apply andb_true_iff in Hr. destruct Hr as [Hc Hr].
  apply negb_true_iff in Hc.
  assert (Hd : depsChanged c0 true (debounceMs st) false st = true).
  { unfold depsChanged. rewrite Hc. reflexivity. }
  pose proof (render_changed c0 true (debounceMs st) false st W Hd) as R.
  cbv zeta in R.
  destruct R as (R1 & R2 & R3 & R4 & R5 & R6 & R7 & R8 & R9 & R10 & R11).
  cbn [run fold_left step]. rewrite Hm.
  remember (render c0 true (debounceMs st) false st) as s0 eqn:Es0.
  fold (run (typing true (debounceMs st) rest ++ [Advance (debounceMs st)]) s0).
  assert (J : justRendered (lastSavedContentRef st) s0).
  { unfold justRendered. repeat match goal with |- _ /\ _ => split end.
    - rewrite Es0. apply Wf_render; auto.
    - congruence.
    - auto.
    - auto.
    - congruence.
    - exists (nextTimerId st). rewrite R11, R1, R3, R6. simpl.
      destruct (String.eqb c0 (lastSavedContentRef st)); reflexivity. }
  rewrite <- R3 at 1 2.
  rewrite (burst_after_render rest _ s0 J); try (rewrite R3; auto);
    try (rewrite R1; auto).
  rewrite R8, R6. reflexivity.
Qed.

(** ** [forceSave] and the pending promises *)

Lemma find_app_fresh (A : Type) (f : A -> bool) (l : list A) (x : A) :
  (forall y, In y l -> f y = false) -> f x = true ->
  find f (l ++ [x]) = Some x.
Proof.
  induction l as [|y l IH]; simpl; intros H Hx.
  - rewrite Hx. reflexivity.
  - rewrite (H y (or_introl eq_refl)). apply IH; auto.
Qed.

Lemma find_app_found (A : Type) (f : A -> bool) (l l' : list A) (x : A) :
  find f l = Some x -> find f (l ++ l') = Some x.
Proof.
  induction l as [|y l IH]; simpl; [discriminate|].
  destruct (f y); auto.
Qed.

Lemma find_filter_found (A : Type) (f g : A -> bool) (l : list A) (x : A) :
  find f l = Some x -> g x = true -> find f (filter g l) = Some x.
Proof.
  induction l as [|y l IH]; simpl; [discriminate|].
  destruct (f y) eqn:Hf.
  - intros [= ->] Hg. rewrite Hg. simpl. rewrite Hf. reflexivity.
  - intros H Hg. destruct (g y); simpl; rewrite ?Hf; auto.
Qed.

Lemma clearTimerRef_fields (st : Hook) :
  content (clearTimerRef st) = content st
  /\ isMountedRef (clearTimerRef st) = isMountedRef st
  /\ now (clearTimerRef st) = now st
  /\ status (clearTimerRef st) = status st
  /\ saveCalls (clearTimerRef st) = saveCalls st
  /\ inflight (clearTimerRef st) = inflight st
  /\ nextPromiseId (clearTimerRef st) = nextPromiseId st
  /\ settledLog (clearTimerRef st) = settledLog st
  /\ lastSavedContentRef (clearTimerRef st) = lastSavedContentRef st
  /\ timerRef (clearTimerRef st) = timerRef st.
Proof.
  unfold clearTimerRef. destruct (timerRef st) eqn:E; simpl; auto 12.
Qed.

Lemma forceSave_mounted (st : Hook) :
  isMountedRef st = true ->
  timers (forceSave st) = timers (clearTimerRef st)
  /\ now (forceSave st) = now st
  /\ status (forceSave st) = saving
  /\ saveCalls (forceSave st) = saveCalls st ++ [(now st, content st)]
  /\ inflight (forceSave st)
     = inflight st ++ [mkPending (nextPromiseId st) (content st) true]
  /\ settledLog (forceSave st) = settledLog st
  /\ lastSavedContentRef (forceSave st) = lastSavedContentRef st.
Proof.
  intros Hm.
  destruct (clearTimerRef_fields st)
    as (C1 & C2 & C3 & C4 & C5 & C6 & C7 & C8 & C9 & _).
  unfold forceSave, performSave. rewrite C2, Hm. simpl.
  rewrite C3, C5, C6, C7, C8, C9. auto 10.
Qed.

Lemma render_keeps_promises (c : string) (en : bool) (d : nat) (fresh : bool)
    (st : Hook) :
  inflight (render c en d fresh st) = inflight st
  /\ nextPromiseId (render c en d fresh st) = nextPromiseId st
  /\ settledLog (render c en d fresh st) = settledLog st.
Proof.
  unfold render, debounceEffect, runEffectCleanup, clearTimerRef, clearTimeout.
  simpl.
  repeat match goal with
         | |- context [if ?b then _ else _] => destruct b; simpl
         | |- context [match ?r with Some _ => _ | None => _ end] =>
             destruct r; simpl
         end; auto.
Qed.

Lemma runTimer_grows_promises (tm : Timer) (s : Hook) :
  exists extra, inflight (runTimer tm s) = inflight s ++ extra.
Proof.
  unfold runTimer, performSave. destruct (callback tm) as [c|]; simpl.
  - destruct (isMountedRef s); simpl; eexists;
      [reflexivity | symmetry; apply app_nil_r].
  - destruct (isMountedRef s); simpl; exists []; symmetry; apply app_nil_r.
Qed.

Lemma advance_grows_promises (dt : nat) (st : Hook) :
  exists extra, inflight (advance dt st) = inflight st ++ extra.
Proof.
  unfold advance. simpl.
  set (s0 := setTimers _ _ st).
  assert (H0 : exists extra, inflight s0 = inflight st ++ extra)
    by (exists []; subst s0; simpl; symmetry; apply app_nil_r).
  clearbody s0. revert s0 H0.
  induction (filter (isDue (now st + dt)) (timers st)) as [|tm l IH];
    simpl; intros s0 H0; auto.
  apply IH. destruct H0 as [x Hx].
  destruct (runTimer_grows_promises tm s0) as [y Hy].
  exists (x ++ y). rewrite Hy, Hx, app_assoc. reflexivity.
Qed.

(** A pending promise stays pending until the event that settles it. *)
Lemma pending_until_settled (pid : nat) (p : PendingSave) (e : Event) (st : Hook) :
  lookupPending pid st = Some p -> settles pid e = false ->
  lookupPending pid (step e st) = Some p.
Proof.
  intros Hp He. unfold lookupPending in *.
  assert (Filter : forall q, (q =? pid) = false ->
            find (fun x => promiseId x =? pid)
              (filter (fun x => negb (promiseId x =? q)) (inflight st)) = Some p).
  { intros q Hq. apply find_filter_found; auto.
    apply find_some in Hp. destruct Hp as [_ Hp]. apply Nat.eqb_eq in Hp.
    rewrite Hp, Nat.eqb_sym, Hq. reflexivity. }
  destruct e as [c en d fresh|dt|q|q err| | |]; cbn [step settles] in *.
  - destruct (isMountedRef st); auto.
    destruct (render_keeps_promises c en d fresh st) as (-> & _). auto.
  - destruct (advance_grows_promises dt st) as [x ->].
    apply find_app_found; auto.
  - destruct (lookupPending q st) as [p'|]; auto.
    unfold saveResolved, callOnSuccess.
    destruct (isMountedRef _) eqn:Hm; simpl; auto.
    destruct (hasOnSuccess st); simpl; auto.
  - destruct (lookupPending q st) as [p'|]; auto.
    unfold saveRejected, callOnError.
    destruct (isMountedRef _) eqn:Hm; simpl; auto.
    destruct (hasOnError st); simpl; auto.
  - unfold forceSave, performSave.
    destruct (clearTimerRef_fields st) as (_ & _ & _ & _ & _ & C6 & _).
    destruct (isMountedRef (clearTimerRef st)); simpl; rewrite C6; auto.
    apply find_app_found; auto.
  - destruct (isMountedRef st); auto.
  - destruct (isMountedRef st); auto.
    destruct (unmount_frame st) as (_ & _ & _ & _ & -> & _). auto.
Qed.

Lemma pending_through_run (pid : nat) (p : PendingSave) (evs : list Event)
    (st : Hook) :
  lookupPending pid st = Some p ->
  forallb (fun e => negb (settles pid e)) evs = true ->
  lookupPending pid (run evs st) = Some p.
Proof.
  revert st. induction evs as [|e evs IH]; simpl; intros st Hp He; auto.
  apply andb_true_iff in He. destruct He as [He1 He2].
  apply negb_true_iff in He1. apply IH; auto.
  apply pending_until_settled; auto.
Qed.

Lemma ledger_Ledger (st : Hook) :
  Wf st -> ledger st = true -> Ledger st.
Proof.
  intros W H. split; [apply (wf_promises _ W)|].
  unfold ledger in H. rewrite forallb_forall in H.
  intros s Hs. specialize (H s Hs). apply andb_true_iff in H.
  destruct H as [H1 H2]. apply Nat.ltb_lt in H1. split; auto.
  rewrite forallb_forall in H2. intros p Hp. specialize (H2 p Hp).
  apply negb_true_iff, Nat.eqb_neq in H2. exact H2.
Qed.

Lemma Ledger_ledger (st : Hook) : Ledger st -> ledger st = true.
Proof.
  intros [_ H]. unfold ledger. apply forallb_forall. intros s Hs.
  destruct (H s Hs) as [H1 H2]. apply andb_true_iff. split.
  - apply Nat.ltb_lt, H1.
  - apply forallb_forall. intros p Hp.
    apply negb_true_iff, Nat.eqb_neq, H2, Hp.
Qed.

Lemma Ledger_same (st st' : Hook) :
  Ledger st -> inflight st' = inflight st ->
  nextPromiseId st' = nextPromiseId st -> settledLog st' = settledLog st ->
  Ledger st'.
Proof.
  unfold Ledger. intros H -> -> ->. exact H.
Qed.

Lemma Ledger_performSave (c : string) (f : bool) (st : Hook) :
  Ledger st -> Ledger (performSave c f st).
Proof.
  intros [H1 H2]. unfold performSave, Ledger.
  destruct (isMountedRef st); simpl.
  - split.
    + intros p Hp. apply in_app_or in Hp. destruct Hp as [Hp|[<-|[]]].
      * apply H1 in Hp. lia.
      * simpl. lia.
    + intros s Hs. destruct (H2 s Hs) as [A B]. split; [lia|].
      intros p Hp. apply in_app_or in Hp. destruct Hp as [Hp|[<-|[]]]; auto.
      simpl. lia.
  - split.
    + intros p Hp. apply H1 in Hp. lia.
    + intros s Hs. apply in_app_or in Hs. destruct Hs as [Hs|[<-|[]]].
      * destruct (H2 s Hs) as [A B]. split; [lia|auto].
      * simpl. split; [lia|]. intros p Hp. apply H1 in Hp. lia.
Qed.

Lemma Ledger_runTimer (tm : Timer) (st : Hook) :
  Ledger st -> Ledger (runTimer tm st).
Proof.
  intros H. unfold runTimer. destruct (callback tm) as [c|].
  - apply Ledger_performSave. eapply Ledger_same; [exact H | | | ]; reflexivity.
  - simpl. destruct (isMountedRef st);
      (eapply Ledger_same; [exact H | | | ]; reflexivity).
Qed.

Lemma Ledger_settle (pid : nat) (p : PendingSave) (st st' : Hook) :
  Ledger st -> lookupPending pid st = Some p ->
  inflight st' = inflight (removePending pid st) ->
  nextPromiseId st' = nextPromiseId st ->
  settledLog st'
  = settledLog st ++ [mkSettlement (promiseId p) (viaForceSave p) Fulfilled] ->
  Ledger st'.
Proof.
  intros [H1 H2] Hp Hi Hn Hs. apply lookupPending_In in Hp.
  destruct Hp as [Hin Hid]. unfold Ledger. rewrite Hi, Hn, Hs. simpl. split.
  - intros q Hq. apply filter_In in Hq. apply H1, Hq.
  - intros s Hin'. apply in_app_or in Hin'. destruct Hin' as [Hin'|[<-|[]]].
    + destruct (H2 s Hin') as [A B]. split; auto.
      intros q Hq. apply filter_In in Hq. apply B, Hq.
    + simpl. split; [apply H1, Hin|].
      intros q Hq. apply filter_In in Hq. destruct Hq as [_ Hq].
      apply negb_true_iff, Nat.eqb_neq in Hq. congruence.
Qed.

Lemma Ledger_step (e : Event) (st : Hook) : Ledger st -> Ledger (step e st).
Proof.
  intros H. destruct e as [c en d fresh|dt|pid|pid err| | |]; cbn [step].
  - destruct (isMountedRef st); auto.
    destruct (render_keeps_promises c en d fresh st) as (A & B & C).
    eapply Ledger_same; eauto.
  - unfold advance.
    eapply Ledger_same with
      (st := fold_left (fun s tm => runTimer tm s)
               (filter (isDue (now st + dt)) (timers st))
               (setTimers (filter (fun tm => negb (isDue (now st + dt) tm))
                             (timers st)) (nextTimerId st) st));
      try reflexivity.
    apply fold_left_invariant with (Q := fun _ : Timer => True).
    + intros x y Hx _. apply Ledger_runTimer, Hx.
    + eapply Ledger_same; [exact H | | | ]; reflexivity.
    + apply Forall_forall. auto.
  - destruct (lookupPending pid st) as [p|] eqn:Hp; auto.
    eapply Ledger_settle; [exact H | exact Hp | | | ].
    + unfold saveResolved, callOnSuccess.
      destruct (isMountedRef _); simpl; auto.
      destruct (hasOnSuccess st); reflexivity.
    + unfold saveResolved, callOnSuccess.
      destruct (isMountedRef _); simpl; auto.
      destruct (hasOnSuccess st); reflexivity.
    + rewrite settled_after_resolve. reflexivity.
  - destruct (lookupPending pid st) as [p|] eqn:Hp; auto.
    eapply Ledger_settle; [exact H | exact Hp | | | ].
    + unfold saveRejected, callOnError.
      destruct (isMountedRef _); simpl; auto.
      destruct (hasOnError st); reflexivity.
    + unfold saveRejected, callOnError.
      destruct (isMountedRef _); simpl; auto.
      destruct (hasOnError st); reflexivity.
    + rewrite settled_after_reject. reflexivity.
  - unfold forceSave. apply Ledger_performSave.
    destruct (clearTimerRef_fields st) as (_ & _ & _ & _ & _ & A & B & C & _).
    eapply Ledger_same; eauto.
  - destruct (isMountedRef st); auto.
  - destruct (isMountedRef st); auto.
    rewrite unmount_unfold.
    destruct (timerRef st);
      (eapply Ledger_same; [exact H | | | ]; reflexivity).
Qed.

Lemma Ledger_run (evs : list Event) (st : Hook) :
  Ledger st -> Ledger (run evs st).
Proof.
  revert st. induction evs as [|e evs IH]; simpl; intros st H; auto.
  apply IH, Ledger_step, H.
Qed.

Lemma ledger_mount (c : string) (en : bool) (d : nat) (s e : bool) :
  ledger (mount c en d s e) = true.
Proof.
  unfold mount, debounceEffect; simpl.
  destruct en; simpl; [destruct (String.eqb c c)|]; reflexivity.
Qed.

Lemma ledger_step (e : Event) (st : Hook) :
  wf st = true -> ledger st = true -> ledger (step e st) = true.
Proof.
  intros W L. apply wf_Wf in W.
  apply Ledger_ledger, Ledger_step, ledger_Ledger; auto.
Qed.

(** C5 (amended).  On a mounted hook with auto-save enabled, a burst of
    content changes, each coming less than [debounceMs] after the one before
    it, followed by a quiet period of [debounceMs], calls [onSave] exactly
    once, with the final content and at the end of the quiet period, when the
    final content differs from the last-saved snapshot; it calls [onSave] not
    at all when the burst ends on the snapshot. *)
Theorem burst_saves_final_content_once (st : Hook) (c0 : string)
    (rest : list (nat * string)) :
  wf st = true ->
  isMountedRef st = true ->
  enabled st = true ->
  realChanges (content st) (c0 :: map snd rest) = true ->
  withinWindow (debounceMs st) rest = true ->
  let d := debounceMs st in
  let final := last (map snd rest) c0 in
  let st' := run (Render c0 true d false :: typing true d rest ++ [Advance d]) st in
  saveCalls st'
  = saveCalls st ++
    (if String.eqb final (lastSavedContentRef st) then []
     else [(now st + list_sum (map fst rest) + d, final)]).
Proof.
  intros W Hm Hen Hr Hw. apply wf_Wf in W.
  apply burst_saves; auto.
Qed.

(** C6.  On a mounted hook [forceSave] leaves no debounce timer pending and
    calls [onSave] with the current content at once, in the same instant.  The
    promise it returns stays pending as long as the [onSave] promise does, and
    is fulfilled when that promise settles, whether it resolves or rejects. *)
Theorem forceSave_saves_at_once (st : Hook) (evs : list Event) (err : JsValue) :
  wf st = true ->
  ledger st = true ->
  isMountedRef st = true ->
  let pid := nextPromiseId st in
  forallb (fun e => negb (settles pid e)) evs = true ->
  let st1 := step ForceSave st in
  let st2 := run evs st1 in
  let done := mkSettlement pid true Fulfilled in
  debounceTimers (timers st1) = []
  /\ now st1 = now st
  /\ status st1 = saving
  /\ saveCalls st1 = saveCalls st ++ [(now st, content st)]
  /\ lookupPending pid st2 = Some (mkPending pid (content st) true)
  /\ (forall s, In s (settledLog st2) -> settledId s <> pid)
  /\ settledLog (step (Resolve pid) st2) = settledLog st2 ++ [done]
  /\ settledLog (step (Reject pid err) st2) = settledLog st2 ++ [done].
Proof.
  intros W L Hm pid Hev st1 st2 done. apply wf_Wf in W.
  pose proof (ledger_Ledger st W L) as Ld.
  destruct (forceSave_mounted st Hm) as (F1 & F2 & F3 & F4 & F5 & F6 & F7).
  assert (P1 : lookupPending pid st1 = Some (mkPending pid (content st) true)).
  { unfold lookupPending, st1. cbn [step]. rewrite F5.
    apply find_app_fresh.
    - intros y Hy. apply Nat.eqb_neq. apply (wf_promises _ W) in Hy.
      unfold pid. lia.
    - simpl. apply Nat.eqb_refl. }
  assert (P2 : lookupPending pid st2 = Some (mkPending pid (content st) true)).
  { unfold st2. apply pending_through_run; auto. }
  repeat match goal with |- _ /\ _ => split end; auto.
  - unfold st1. cbn [step]. rewrite F1. apply debounceTimers_nil.
    intros tm Hin. eapply clearTimerRef_leaves_resets; [exact W | exact Hin].
  - assert (L2 : Ledger st2).
    { unfold st2. apply Ledger_run. unfold st1. apply Ledger_step, Ld. }
    intros s Hs Heq. destruct L2 as [_ L2].
    destruct (L2 s Hs) as [_ B].
    apply lookupPending_In in P2. destruct P2 as [Hin Hid].
    apply (B _ Hin). simpl. congruence.
  - cbn [step]. rewrite P2. rewrite settled_after_resolve. reflexivity.
  - cbn [step]. rewrite P2. rewrite settled_after_reject. reflexivity.
Qed.

(** ** What moves the status to ['saving'] *)

Lemma fold_runTimer_quiet (l : list Timer) (s : Hook) :
  isMountedRef s = false \/ debounceTimers l = [] ->
  saveCalls (fold_left (fun s tm => runTimer tm s) l s) = saveCalls s
  /\ (status (fold_left (fun s tm => runTimer tm s) l s) = status s
      \/ status (fold_left (fun s tm => runTimer tm s) l s) = idle).
Proof.
  revert s. induction l as [|tm l IH]; simpl; intros s H; auto.
  assert (Step : saveCalls (runTimer tm s) = saveCalls s
                 /\ (status (runTimer tm s) = status s
                     \/ status (runTimer tm s) = idle)
                 /\ (isMountedRef (runTimer tm s) = false
                     \/ debounceTimers l = [])).
  { destruct H as [H|H].
    - destruct (runTimer_unmounted tm s H) as (A & _ & C & _ & E). auto.
    - unfold debounceTimers in H. simpl in H.
      unfold runTimer. destruct (callback tm); simpl in *; [discriminate|].
      destruct (isMountedRef s); simpl; auto. }
  destruct Step as (A & B & C).
  destruct (IH _ C) as [A' B']. split; [congruence|].
  destruct B' as [B'|B']; auto. rewrite B'. exact B.
Qed.

Lemma clearTimerRef_subset (st : Hook) (tm : Timer) :
  In tm (timers (clearTimerRef st)) -> In tm (timers st).
Proof.
  unfold clearTimerRef, clearTimeout. destruct (timerRef st); auto.
  simpl. intros H. apply filter_In in H. tauto.
Qed.

(** A debounce timer appears only in a render that changed a dependency,
    with auto-save enabled and a content other than the snapshot. *)
Lemma debounce_timer_origin (e : Event) (st : Hook) (tm : Timer) :
  Wf st ->
  In tm (timers (step e st)) -> isDebouncedSave (callback tm) = true ->
  In tm (timers st)
  \/ exists c d fresh, e = Render c true d fresh
       /\ isMountedRef st = true
       /\ depsChanged c true d fresh st = true
       /\ String.eqb c (lastSavedContentRef st) = false
       /\ tm = mkTimer (nextTimerId st) (now st) d (DebouncedSave c).
Proof.
  intros W Hin Hd. destruct e as [c en d fresh|dt|pid|pid err| | |]; cbn [step] in Hin.
  - destruct (isMountedRef st) eqn:Hm; auto.
    destruct (depsChanged c en d fresh st) eqn:Hc;
      [|unfold render in Hin; rewrite Hc in Hin; auto].
    pose proof (render_changed c en d fresh st W Hc) as R. cbv zeta in R.
    destruct R as (_ & _ & _ & _ & _ & _ & _ & _ & _ & _ & R).
    assert (Hin' : In tm (debounceTimers (timers (render c en d fresh st)))).
    { unfold debounceTimers. apply filter_In. auto. }
    rewrite R in Hin'.
    destruct en; simpl in Hin'; [|contradiction].
    destruct (String.eqb c (lastSavedContentRef st)) eqn:E; simpl in Hin';
      [contradiction|].
    destruct Hin' as [<-|[]]. right. exists c, d, fresh. auto 10.
  - destruct (advance_fields dt st W) as (_ & _ & _ & _ & _ & _ & _ & _ & T).
    rewrite T in Hin. apply filter_In in Hin. tauto.
  - destruct (lookupPending pid st) as [p|]; auto.
    unfold saveResolved, callOnSuccess in Hin.
    destruct (isMountedRef (removePending pid st)); simpl in Hin; auto.
    destruct (hasOnSuccess st); simpl in Hin;
      apply In_enqueue in Hin; destruct Hin as [->|Hin]; auto; discriminate.
  - destruct (lookupPending pid st) as [p|]; auto.
    unfold saveRejected, callOnError in Hin.
    destruct (isMountedRef (removePending pid st)); simpl in Hin; auto.
    destruct (hasOnError st); simpl in Hin; auto.
  - unfold forceSave in Hin.
    destruct (performSave_frame (content st) true (clearTimerRef st))
      as (_ & T & _).
    rewrite T in Hin. left. apply clearTimerRef_subset, Hin.
  - destruct (isMountedRef st); auto.
  - destruct (isMountedRef st); auto.
    left. apply (unmount_timers _ _ W Hin).
Qed.

Lemma settle_is_not_saving (e : Event) (st : Hook) :
  match e with Resolve _ | Reject _ _ | ResetStatus | Unmount => True
             | _ => False end ->
  saveCalls (step e st) = saveCalls st
  /\ (status (step e st) = status st \/ status (step e st) <> saving).
Proof.
  destruct e as [c en d fresh|dt|pid|pid err| | |]; cbn [step]; intros H;
    try contradiction.
  - destruct (lookupPending pid st) as [p|]; auto.
    unfold saveResolved, callOnSuccess.
    destruct (isMountedRef (removePending pid st)); simpl; auto.
    destruct (hasOnSuccess st); simpl; split; auto; right; discriminate.
  - destruct (lookupPending pid st) as [p|]; auto.
    unfold saveRejected, callOnError.
    destruct (isMountedRef (removePending pid st)); simpl; auto.
    destruct (hasOnError st); simpl; split; auto; right; discriminate.
  - destruct (isMountedRef st); simpl; auto. split; auto. right; discriminate.
  - destruct (isMountedRef st); auto.
    destruct (unmount_frame st) as (_ & _ & _ & _ & _ & _ & A & _ & B & _).
    auto.
Qed.

(** C1 (amended).  The status moves to ['saving'] (and [onSave] is called)
    only on a mounted hook and only in two ways: by [forceSave], whatever
    [enabled], the snapshot and the clock say; or by a pending debounce timer
    that has come due, in which case auto-save is enabled, the timer carries
    the current content, and [debounceMs] have passed since the last render
    that changed a dependency of the debounce effect (the content, [enabled],
    [debounceMs] or a callback).  A debounce timer
    is armed only by a render that leaves auto-save enabled and the content
    different from the last-saved snapshot. *)
Theorem saving_only_by_forceSave_or_due_timer (st : Hook) (e : Event) :
  wf st = true ->
  let st' := step e st in
  (entersSaving st st' ->
   isMountedRef st = true
   /\ (e = ForceSave
       \/ exists dt tm,
            e = Advance dt /\ In tm (timers st)
            /\ callback tm = DebouncedSave (content st)
            /\ enabled st = true
            /\ setAt tm = lastChangeAt st /\ delay tm = debounceMs st
            /\ lastChangeAt st + debounceMs st <= now st + dt))
  /\ (forall tm,
        In tm (timers st') -> isDebouncedSave (callback tm) = true ->
        ~ In tm (timers st) ->
        (exists c d fresh, e = Render c true d fresh)
        /\ enabled st' = true /\ hasUnsavedChanges st' = true
        /\ tm = mkTimer (nextTimerId st) (now st) (debounceMs st')
                  (DebouncedSave (content st'))).
Proof.
  intros W st'. apply wf_Wf in W. split.
  - intros Hent.
    assert (Quiet : saveCalls st' = saveCalls st
                    /\ (status st' = status st \/ status st' <> saving) -> False).
    { intros [A B]. destruct Hent as [[H1 H2]|H]; [|auto].
      destruct B as [B|B]; congruence. }
    destruct (isMountedRef st) eqn:Hm.
    2:{ exfalso. apply Quiet.
        destruct (step_unmounted e st Hm) as (A & _ & C & _). auto. }
    split; auto.
    destruct e as [c en d fresh|dt|pid|pid err| | |]; auto;
      try (exfalso; apply Quiet; apply settle_is_not_saving; exact I).
    + exfalso. apply Quiet. unfold st'. cbn [step]. rewrite Hm.
      destruct (depsChanged c en d fresh st) eqn:Hc;
        [|unfold render; rewrite Hc; auto].
      pose proof (render_changed c en d fresh st W Hc) as R. cbv zeta in R.
      destruct R as (_ & _ & _ & _ & _ & _ & _ & R8 & R9 & _). auto.
    + right.
      destruct (debounceTimers (filter (isDue (now st + dt)) (timers st)))
        as [|tm l] eqn:E.
      * exfalso. apply Quiet. unfold st'. cbn [step]. unfold advance. simpl.
        destruct (fold_runTimer_quiet (filter (isDue (now st + dt)) (timers st))
                    (setTimers (filter (fun tm => negb (isDue (now st + dt) tm))
                                  (timers st)) (nextTimerId st) st)
                    (or_intror E)) as [A B].
        split; [exact A|]. simpl in B. destruct B as [B|B]; auto.
        right. rewrite B. discriminate.
      * assert (Hin : In tm (debounceTimers
                               (filter (isDue (now st + dt)) (timers st))))
          by (rewrite E; simpl; auto).
        unfold debounceTimers in Hin. apply filter_In in Hin.
        destruct Hin as [Hin Hd]. apply filter_In in Hin.
        destruct Hin as [Hin Hdue]. unfold isDue in Hdue.
        apply Nat.leb_le in Hdue. unfold fireAt in Hdue.
        pose proof (wf_timers _ W _ Hin) as (_ & _ & F).
        destruct (callback tm) as [c|] eqn:Hcb; [|discriminate].
        destruct F as (_ & _ & F3 & _ & F5 & F6 & F7).
        exists dt, tm. subst c. rewrite <- F6, <- F7. auto 10.
  - intros tm Hin Hd Hnew.
    destruct (debounce_timer_origin e st tm W Hin Hd)
      as [H|(c & d & fresh & -> & Hm & Hc & HL & ->)]; [contradiction|].
    unfold st'. cbn [step]. rewrite Hm.
    pose proof (render_changed c true d fresh st W Hc) as R. cbv zeta in R.
    destruct R as (R1 & R2 & R3 & _ & _ & _ & R7 & _).
    unfold hasUnsavedChanges. rewrite R1, R2, R3, R7, HL.
    repeat split; eauto.
Qed.

(** ** The reset timer *)

Lemma clearTimerRef_keeps (st : Hook) (tm : Timer) :
  In tm (timers st) -> timerRef st <> Some (timerId tm) ->
  In tm (timers (clearTimerRef st)).
Proof.
  intros Hin Hr. unfold clearTimerRef, clearTimeout.
  destruct (timerRef st) as [id|]; auto. simpl.
  apply filter_In. split; auto. unfold keepsTimer.
  apply negb_true_iff, Nat.eqb_neq. congruence.
Qed.

Lemma render_keeps_resets (c : string) (en : bool) (d : nat) (fresh : bool)
    (st : Hook)
    (tm : Timer) :
  In tm (timers st) -> timerRef st <> Some (timerId tm) ->
  In tm (timers (render c en d fresh st)).
Proof.
  intros Hin Hr. unfold render. destruct (depsChanged c en d fresh st); auto.
  assert (H1 : In tm (timers (runEffectCleanup st))
               /\ timerRef (runEffectCleanup st) = timerRef st).
  { unfold runEffectCleanup. destruct (effectCleanup st); auto.
    split; [apply clearTimerRef_keeps; auto | apply clearTimerRef_fields]. }
  destruct H1 as [H1 H2].
  set (s1 := setLastChangeAt (now st) (setProps c en d (runEffectCleanup st))).
  assert (H3 : In tm (timers s1) /\ timerRef s1 <> Some (timerId tm))
    by (subst s1; simpl; split; congruence).
  clearbody s1. destruct H3 as [H3 H4].
  unfold debounceEffect.
  destruct (enabled s1); simpl; auto.
  destruct (String.eqb (content s1) (lastSavedContentRef s1)); simpl; auto.
  apply In_enqueue. right. apply clearTimerRef_keeps; auto.
Qed.

(** Nothing but its own firing takes a reset timer out of the table. *)
Lemma reset_survives_step (e : Event) (st : Hook) (tm : Timer) :
  Wf st -> In tm (timers st) -> callback tm = ResetToIdle ->
  In tm (timers (step e st)) \/ fireAt tm <= now (step e st).
Proof.
  intros W Hin Hcb.
  pose proof (wf_timers _ W _ Hin) as (_ & _ & F). rewrite Hcb in F.
  destruct e as [c en d fresh|dt|pid|pid err| | |]; cbn [step].
  - left. destruct (isMountedRef st); auto. apply render_keeps_resets; auto.
  - destruct (advance_fields dt st W) as (_ & _ & _ & _ & _ & _ & _ & N & T).
    rewrite N, T. destruct (isDue (now st + dt) tm) eqn:E.
    + right. apply Nat.leb_le, E.
    + left. apply filter_In. rewrite E. auto.
  - left. destruct (lookupPending pid st) as [p|]; auto.
    unfold saveResolved, callOnSuccess.
    destruct (isMountedRef (removePending pid st)); simpl; auto.
    destruct (hasOnSuccess st); simpl; apply In_enqueue; auto.
  - left. destruct (lookupPending pid st) as [p|]; auto.
    unfold saveRejected, callOnError.
    destruct (isMountedRef (removePending pid st)); simpl; auto.
    destruct (hasOnError st); simpl; auto.
  - left. unfold forceSave.
    destruct (performSave_frame (content st) true (clearTimerRef st))
      as (_ & T & _).
    rewrite T. apply clearTimerRef_keeps; auto.
  - left. destruct (isMountedRef st); auto.
  - left. destruct (isMountedRef st); auto. rewrite unmount_unfold.
    destruct (timerRef st) as [id|] eqn:Hr; simpl; auto.
    apply filter_In. split; auto.
    assert (K : keepsTimer id tm = true).
    { unfold keepsTimer. apply negb_true_iff, Nat.eqb_neq. congruence. }
    rewrite K, orb_true_r. reflexivity.
Qed.

Lemma now_monotone (e : Event) (st : Hook) : Wf st -> now st <= now (step e st).
Proof.
  intros W. destruct e as [c en d fresh|dt|pid|pid err| | |]; cbn [step].
  - destruct (isMountedRef st); auto.
    destruct (depsChanged c en d fresh st) eqn:Hc;
      [|unfold render; rewrite Hc; auto].
    pose proof (render_changed c en d fresh st W Hc) as R. cbv zeta in R.
    destruct R as (_ & _ & _ & _ & _ & -> & _). auto.
  - destruct (advance_fields dt st W) as (_ & _ & _ & _ & _ & _ & _ & -> & _).
    lia.
  - destruct (lookupPending pid st) as [p|]; auto.
    unfold saveResolved, callOnSuccess.
    destruct (isMountedRef (removePending pid st)); simpl; auto.
    destruct (hasOnSuccess st); simpl; auto.
  - destruct (lookupPending pid st) as [p|]; auto.
    unfold saveRejected, callOnError.
    destruct (isMountedRef (removePending pid st)); simpl; auto.
    destruct (hasOnError st); simpl; auto.
  - destruct (performSave_frame (content st) true (clearTimerRef st))
      as (_ & _ & _ & N & _).
    unfold forceSave. rewrite N.
    destruct (clearTimerRef_fields st) as (_ & _ & -> & _). auto.
  - destruct (isMountedRef st); auto.
  - destruct (isMountedRef st); auto.
    destruct (unmount_frame st) as (_ & _ & _ & -> & _). auto.
Qed.

Lemma reset_survives_run (evs : list Event) (st : Hook) (tm : Timer) :
  Wf st -> In tm (timers st) -> callback tm = ResetToIdle ->
  In tm (timers (run evs st)) \/ fireAt tm <= now (run evs st).
Proof.
  revert st. induction evs as [|e evs IH]; simpl; intros st W Hin Hcb; auto.
  destruct (reset_survives_step e st tm W Hin Hcb) as [H|H].
  - apply IH; auto using Wf_step.
  - right. clear IH Hin.
    assert (M : forall l s, Wf s -> now s <= now (run l s)).
    { induction l as [|x l IHl]; simpl; intros s Ws; auto.
      specialize (IHl _ (Wf_step x s Ws)).
      pose proof (now_monotone x s Ws). lia. }
    eapply Nat.le_trans; [exact H | apply (M evs _ (Wf_step e st W))].
Qed.

Lemma fold_resets_idle (l : list Timer) (s : Hook) :
  l <> [] -> debounceTimers l = [] -> isMountedRef s = true ->
  status (fold_left (fun s tm => runTimer tm s) l s) = idle.
Proof.
  intros Hl Hd Hm. destruct l as [|tm l]; [contradiction|]. clear Hl.
  revert tm s Hd Hm. induction l as [|x l IH]; intros tm s Hd Hm.
  - simpl. unfold runTimer. unfold debounceTimers in Hd. simpl in Hd.
    destruct (callback tm); [discriminate|]. simpl. rewrite Hm. reflexivity.
  - change (fold_left (fun s tm => runTimer tm s) (tm :: x :: l) s)
      with (fold_left (fun s tm => runTimer tm s) (x :: l) (runTimer tm s)).
    unfold debounceTimers in Hd. simpl in Hd.
    destruct (isDebouncedSave (callback tm)) eqn:E; [discriminate|].
    apply IH; auto.
    destruct (runTimer_frame tm s) as (S & _).
    destruct S as (_ & _ & _ & _ & M & _). congruence.
Qed.

(** C2 (amended).  When [onSave] resolves on a mounted hook the status
    becomes ['saved'] and a timer is set that nothing cancels: whatever
    happens in the 2000 ms that follow, once they have passed and the hook is
    still mounted, the status is ['idle'], also when a newer ['saving'],
    ['error'] or ['saved'] had replaced the ['saved'] the timer belongs to.
    (The premise on the debounce timers only says that no debounced save runs
    in the very step that fires the reset.) *)
Theorem saved_resets_to_idle_after_2000 (st : Hook) (pid : nat)
    (p : PendingSave) (evs : list Event) (dt : nat) :
  wf st = true ->
  isMountedRef st = true ->
  lookupPending pid st = Some p ->
  let st1 := step (Resolve pid) st in
  let st2 := run evs st1 in
  status st1 = saved
  /\ In (mkTimer (nextTimerId st) (now st) 2000 ResetToIdle) (timers st1)
  /\ (isMountedRef st2 = true ->
      now st2 < now st + 2000 ->
      now st + 2000 <= now st2 + dt ->
      debounceTimers (filter (isDue (now st2 + dt)) (timers st2)) = [] ->
      status (step (Advance dt) st2) = idle).
Proof.
  intros W Hm Hp st1 st2. apply wf_Wf in W.
  assert (W1 : Wf st1) by (apply Wf_step, W).
  destruct (saveResolved_mounted p (removePending pid st) Hm)
    as (_ & H2 & _ & _ & H5 & _).
  assert (T : In (mkTimer (nextTimerId st) (now st) 2000 ResetToIdle)
                (timers st1)).
  { unfold st1. cbn [step]. rewrite Hp, H5. apply In_enqueue. auto. }
  split; [|split; auto].
  - unfold st1. cbn [step]. rewrite Hp. exact H2.
  - intros Hm2 Hlt Hge Hd.
    destruct (reset_survives_run evs st1 _ W1 T eq_refl) as [Hin|Hfired];
      [|fold st2 in Hfired; unfold fireAt in Hfired; simpl in Hfired; lia].
    fold st2 in Hin. cbn [step]. unfold advance. simpl.
    apply fold_resets_idle; auto.
    intros E.
    assert (Hin' : In (mkTimer (nextTimerId st) (now st) 2000 ResetToIdle)
                     (filter (isDue (now st2 + dt)) (timers st2))).
    { apply filter_In. split; auto. unfold isDue, fireAt. simpl.
      apply Nat.leb_le. lia. }
    rewrite E in Hin'. contradiction.
Qed.

(** ** The theorems at work, and where the specification goes too far *)

(** Typing "Hello" and waiting out the debounce delay: the state in which
    [onSave("Hello")] is pending. *)
Lemma saving_hello :
  let st := run [Render "Hello" true 1000 false; Advance 1000]
              (mount "" true 1000 true true) in
  wf st = true /\ ledger st = true /\ isMountedRef st = true
  /\ status st = saving
  /\ lookupPending 1 st = Some (mkPending 1 "Hello" false).
Proof. vm_compute. auto. Qed.

Lemma saving_only_by_forceSave_or_due_timer_witness :
  let st := run [Render "Hello" true 1000 false] (mount "" true 1000 true true) in
  wf st = true
  /\ entersSaving st (step (Advance 1000) st)
  /\ isMountedRef st = true
  /\ (Advance 1000 = ForceSave
      \/ exists dt tm,
           Advance 1000 = Advance dt /\ In tm (timers st)
           /\ callback tm = DebouncedSave (content st)
           /\ enabled st = true
           /\ setAt tm = lastChangeAt st /\ delay tm = debounceMs st
           /\ lastChangeAt st + debounceMs st <= now st + dt).
Proof.
  intros st.
  assert (W : wf st = true) by reflexivity.
  assert (E : entersSaving st (step (Advance 1000) st)).
  { left. split; [discriminate | reflexivity]. }
  split; [exact W | split; [exact E|]].
  exact (proj1 (saving_only_by_forceSave_or_due_timer st (Advance 1000) W) E).
Defined.

(** C1 as stated fails.  [forceSave] moves the status to ['saving'] and
    calls [onSave] with auto-save disabled and the content equal to the
    snapshot; and with auto-save enabled it does so in the instant of the
    change, before any of the debounce delay has passed. *)
Lemma forceSave_enters_saving_unconditionally :
  let off := mount "x" false 1000 false false in
  let typed := step (Render "xy" true 1000 false) (mount "x" true 1000 false false) in
  (enabled off = false /\ hasUnsavedChanges off = false /\ status off = idle
   /\ status (step ForceSave off) = saving
   /\ saveCalls (step ForceSave off) = [(0, "x"%string)])
  /\ (lastChangeAt typed = 0 /\ debounceMs typed = 1000 /\ now typed = 0
      /\ status typed = idle
      /\ status (step ForceSave typed) = saving
      /\ saveCalls (step ForceSave typed) = [(0, "xy"%string)]).
Proof. vm_compute. auto 12. Qed.

Lemma saved_resets_to_idle_after_2000_witness :
  let st := run [Render "Hello" true 1000 false; Advance 1000]
              (mount "" true 1000 true true) in
  let st1 := step (Resolve 1) st in
  let st2 := run [Advance 500; ForceSave; Reject 2 (NonError "offline")] st1 in
  status st1 = saved /\ status st2 = error
  /\ status (step (Advance 1500) st2) = idle.
Proof.
  intros st st1 st2.
  destruct (saved_resets_to_idle_after_2000 st 1 (mkPending 1 "Hello" false)
              [Advance 500; ForceSave; Reject 2 (NonError "offline")] 1500
              eq_refl eq_refl eq_refl) as (H1 & _ & H3).
  split; [exact H1 | split; [reflexivity|]].
  apply H3; [reflexivity | vm_compute; lia | vm_compute; lia | reflexivity].
Defined.

(** C2 as stated fails.  The content is saved at 1000 ms; at 2500 ms a
    force-save moves the status on to ['saving'], and its promise is still
    pending at 3000 ms, when the reset of the first save fires and
    overwrites the newer ['saving'] with ['idle']. *)
Lemma stale_reset_overwrites_newer_status :
  let st := run [Render "a" true 1000 false; Advance 1000; Resolve 1;
                 Advance 1500; ForceSave]
              (mount "" true 1000 false false) in
  now st = 2500 /\ status st = saving
  /\ inflight st = [mkPending 2 "a" true]
  /\ now (step (Advance 500) st) = 3000
  /\ inflight (step (Advance 500) st) = [mkPending 2 "a" true]
  /\ status (step (Advance 500) st) = idle.
Proof. vm_compute. auto 12. Qed.

Lemma burst_saves_final_content_once_witness :
  let st := mount "" true 1000 false false in
  saveCalls (run (Render "a" true 1000 false
                  :: typing true 1000 [(300, "ab"%string); (300, "abc"%string)]
                     ++ [Advance 1000]) st)
  = [(1600, "abc"%string)].
Proof.
  exact (burst_saves_final_content_once (mount "" true 1000 false false) "a"
           [(300, "ab"%string); (300, "abc"%string)]
           eq_refl eq_refl eq_refl eq_refl eq_refl).
Defined.

(** C5 as stated fails.  Typing a character and deleting it again, 300 ms
    apart with a delay of 1000 ms, is a burst of changes within the
    debounce window, and no save follows it: the burst ends on the
    snapshot. *)
Lemma burst_back_to_snapshot_saves_nothing :
  let st := mount "" true 1000 false false in
  let changes := [(300, ""%string)] in
  wf st = true /\ isMountedRef st = true /\ enabled st = true
  /\ realChanges (content st) ("a"%string :: map snd changes) = true
  /\ withinWindow (debounceMs st) changes = true
  /\ saveCalls (run (Render "a" true 1000 false :: typing true 1000 changes
                     ++ [Advance 1000; Advance 1000]) st) = [].
Proof. vm_compute. auto 12. Qed.

Lemma forceSave_saves_at_once_witness :
  let st := run [Render "Hello" true 1000 false; Advance 400]
              (mount "" true 1000 true true) in
  let st1 := step ForceSave st in
  let st2 := run [Advance 5000] st1 in
  debounceTimers (timers st) <> []
  /\ debounceTimers (timers st1) = []
  /\ saveCalls st1 = [(400, "Hello"%string)]
  /\ saveCalls st2 = [(400, "Hello"%string)]
  /\ settledLog st2 = []
  /\ settledLog (step (Resolve 1) st2) = [mkSettlement 1 true Fulfilled]
  /\ settledLog (step (Reject 1 (ErrorInstance "500")) st2)
     = [mkSettlement 1 true Fulfilled].
Proof.
  intros st st1 st2.
  destruct (forceSave_saves_at_once st [Advance 5000] (ErrorInstance "500")
              eq_refl eq_refl eq_refl eq_refl)
    as (H1 & _ & _ & H4 & _ & _ & H7 & H8).
  split; [discriminate|].
  split; [exact H1 | split; [exact H4|]].
  split; [reflexivity | split; [reflexivity | split; [exact H7 | exact H8]]].
Defined.

Lemma unmount_cancels_and_silences_witness :
  let st := run [Render "Hello" true 1000 false; Advance 1000; Render "Hello!" true 1000 false]
              (mount "" true 1000 true true) in
  let st0 := step Unmount st in
  let st' := run [Advance 1000; Resolve 1; Advance 2000; ForceSave] st0 in
  debounceTimers (timers st) <> []
  /\ debounceTimers (timers st0) = []
  /\ status st' = saving
  /\ lastSavedContentRef st' = ""%string
  /\ saveCalls st' = [(1000, "Hello"%string)]
  /\ callbackLog st' = [].
Proof.
  intros st st0 st'.
  destruct (unmount_cancels_and_silences st
              [Advance 1000; Resolve 1; Advance 2000; ForceSave]
              eq_refl eq_refl) as (H1 & _ & _ & H4 & H5 & H6 & H7).
  split; [discriminate|].
  split; [exact H1 | split; [exact H4 | split; [exact H5|]]].
  split; [exact H6 | exact H7].
Defined.

Lemma onError_receives_error_or_generic_witness :
  let st := run [Render "Hello" true 1000 false; Advance 1000]
              (mount "" true 1000 true true) in
  callbackLog (step (Reject 1 (ErrorInstance "timeout")) st)
  = [OnErrorCalled (ErrorInstance "timeout")]
  /\ callbackLog (step (Reject 1 (NonError "{status: 500}")) st)
     = [OnErrorCalled (ErrorInstance "Save failed")].
Proof.
  intros st. split.
  - exact (proj1 (onError_receives_error_or_generic st 1
                    (mkPending 1 "Hello" false) (ErrorInstance "timeout")
                    eq_refl eq_refl eq_refl) eq_refl).
  - exact (proj2 (onError_receives_error_or_generic st 1
                    (mkPending 1 "Hello" false) (NonError "{status: 500}")
                    eq_refl eq_refl eq_refl) eq_refl).
Defined.

(** ** What the hook returns *)

Lemma status_eqb_eq (a b : AutoSaveStatus) : status_eqb a b = true <-> a = b.
Proof. destruct a, b; simpl; split; intros H; try reflexivity; discriminate. Qed.

Lemma view_task_hook (f : Hook -> Hook) (v : AutoSaveView.View) :
  AutoSaveView.hook (AutoSaveView.task f v) = f (AutoSaveView.hook v).
Proof.
  unfold AutoSaveView.task. destruct (status_eqb _ _); reflexivity.
Qed.

Lemma view_fold_hook (l : list Timer) (v : AutoSaveView.View) :
  AutoSaveView.hook
    (fold_left (fun w tm => AutoSaveView.task (runTimer tm) w) l v)
  = fold_left (fun s tm => runTimer tm s) l (AutoSaveView.hook v).
Proof.
  revert v. induction l as [|tm l IH]; intros v; [reflexivity|].
  cbn [fold_left]. rewrite IH, view_task_hook. reflexivity.
Qed.

(** The view adds what the caller holds and leaves the hook to [step]. *)
Lemma view_step_hook (e : Event) (v : AutoSaveView.View) :
  AutoSaveView.hook (AutoSaveView.step e v) = step e (AutoSaveView.hook v).
Proof.
  destruct e; cbn [AutoSaveView.step]; try apply view_task_hook.
  - cbn [step]. destruct (isMountedRef (AutoSaveView.hook v)); reflexivity.
  - unfold AutoSaveView.advance. cbn [AutoSaveView.hook step].
    rewrite view_fold_hook. reflexivity.
Qed.

Lemma view_run_hook (evs : list Event) (v : AutoSaveView.View) :
  AutoSaveView.hook (AutoSaveView.run evs v) = run evs (AutoSaveView.hook v).
Proof.
  revert v. induction evs as [|e evs IH]; intros v; [reflexivity|].
  change (AutoSaveView.hook (AutoSaveView.run evs (AutoSaveView.step e v))
          = run evs (step e (AutoSaveView.hook v))).
  rewrite IH, view_step_hook. reflexivity.
Qed.

(** A task that changes the status is followed by a render; one that
    leaves it alone is not. *)
Lemma view_task_returned (f : Hook -> Hook) (v : AutoSaveView.View) :
  (status (f (AutoSaveView.hook v)) <> status (AutoSaveView.hook v) ->
   AutoSaveView.task f v = AutoSaveView.returns (f (AutoSaveView.hook v)))
  /\ (status (f (AutoSaveView.hook v)) = status (AutoSaveView.hook v) ->
      AutoSaveView.lastSavedContent (AutoSaveView.task f v)
      = AutoSaveView.lastSavedContent v
      /\ AutoSaveView.hasUnsavedChanges (AutoSaveView.task f v)
         = AutoSaveView.hasUnsavedChanges v).
Proof.
  unfold AutoSaveView.task.
  destruct (status_eqb _ _) eqn:E.
  - apply status_eqb_eq in E. split; [congruence | auto].
  - split; [reflexivity|]. intros H. rewrite H in E.
    assert (E' : status_eqb (status (AutoSaveView.hook v))
                   (status (AutoSaveView.hook v)) = true)
      by (apply status_eqb_eq; reflexivity).
    congruence.
Qed.








(** What a rejection leaves of the hook. *)
Lemma rejected_save_frame (st : Hook) (pid : nat) (p : PendingSave)
    (err : JsValue) (c : string) :
  Wf st ->
  isMountedRef st = true ->
  lookupPending pid st = Some p ->
  let st' := step (Reject pid err) st in
  status st' = error
  /\ lastSavedContentRef st' = lastSavedContentRef st
  /\ content st' = content st
  /\ isMountedRef st' = true
  /\ settledLog st' = settledLog st ++ [mkSettlement pid (viaForceSave p) Fulfilled]
  /\ saveCalls (step ForceSave st') = saveCalls st' ++ [(now st', content st')]
  /\ (enabled st = true -> c <> content st -> c <> lastSavedContentRef st ->
      saveCalls (run [Render c true (debounceMs st) false; Advance (debounceMs st)] st')
      = saveCalls st' ++ [(now st + debounceMs st, c)]).
Proof.
  intros W Hm Hp.
  pose proof (Wf_step (Reject pid err) st W) as W'.
  cbn [step] in *. rewrite Hp in *.
  destruct (lookupPending_In _ _ _ Hp) as [_ Hid].
  pose proof (saveRejected_mounted p err (removePending pid st) Hm) as H.
  remember (saveRejected p err (removePending pid st)) as st' eqn:Es.
  destruct H as (H1 & H2 & H3 & H4 & H5 & H6 & H7 & H8 & H9 & H10).
  change (lastSavedContentRef st' = lastSavedContentRef st) in H2.
  change (content st' = content st) in H3.
  change (now st' = now st) in H6.
  change (enabled st' = enabled st) in H9.
  change (debounceMs st' = debounceMs st) in H10.
  repeat match goal with |- _ /\ _ => split end; auto.
  - rewrite Es, settled_after_reject, Hid. reflexivity.
  - destruct (forceSave_mounted st' H7) as (_ & _ & _ & F & _). exact F.
  - intros Hen Hc HL.
    pose proof (burst_saves st' c [] W' H7) as B.
    rewrite H9, H10, H3, H2, H6 in B. simpl in B.
    assert (E1 : String.eqb c (content st) = false)
      by (apply String.eqb_neq; auto).
    assert (E2 : String.eqb c (lastSavedContentRef st) = false)
      by (apply String.eqb_neq; auto).
    rewrite E1, E2 in B. simpl in B. rewrite Nat.add_0_r in B.
    apply B; auto.
Qed.

(** C4 (amended).  When [onSave] rejects on a mounted hook, the status
    becomes ['error'] and the snapshot stays as it was; the promise of
    [performSave] is fulfilled (the rejection goes no further), and both a
    force-save and a later change of the content call [onSave] again.
    [hasUnsavedChanges] is what the latest render returned: when the status
    was not ['error'] already, the hook renders and returns it for the
    unchanged snapshot, true if the content differs from the snapshot and
    false if it does not (the save of a [forceSave] on saved content); when
    the status was ['error'], the hook does not render and it stays what it
    was. *)
Theorem save_rejected_keeps_snapshot (v : AutoSaveView.View) (pid : nat)
    (p : PendingSave) (err : JsValue) (c : string) :
  let st := AutoSaveView.hook v in
  wf st = true ->
  isMountedRef st = true ->
  lookupPending pid st = Some p ->
  let v' := AutoSaveView.step (Reject pid err) v in
  let st' := AutoSaveView.hook v' in
  status st' = error
  /\ lastSavedContentRef st' = lastSavedContentRef st
  /\ (status st <> error ->
      AutoSaveView.hasUnsavedChanges v'
      = negb (String.eqb (content st) (lastSavedContentRef st))
      /\ (content st <> lastSavedContentRef st ->
          AutoSaveView.hasUnsavedChanges v' = true)
      /\ (content st = lastSavedContentRef st ->
          AutoSaveView.hasUnsavedChanges v' = false))
  /\ (status st = error ->
      AutoSaveView.hasUnsavedChanges v' = AutoSaveView.hasUnsavedChanges v)
  /\ settledLog st' = settledLog st ++ [mkSettlement pid (viaForceSave p) Fulfilled]
  /\ saveCalls (step ForceSave st') = saveCalls st' ++ [(now st', content st')]
  /\ (enabled st = true -> c <> content st -> c <> lastSavedContentRef st ->
      saveCalls (run [Render c true (debounceMs st) false; Advance (debounceMs st)] st')
      = saveCalls st' ++ [(now st + debounceMs st, c)]).
Proof.
  intros st W Hm Hp v' st'. apply wf_Wf in W.
  assert (Eh : step (Reject pid err) st = st').
  { unfold st', v'. rewrite view_step_hook. reflexivity. }
  destruct (rejected_save_frame st pid p err c W Hm Hp)
    as (H1 & H2 & H3 & _ & H5 & H6 & H7).
  rewrite Eh in H1, H2, H3, H5, H6, H7.
  destruct (view_task_returned (step (Reject pid err)) v) as [T1 T2].
  fold st in T1, T2.
  change (AutoSaveView.task (step (Reject pid err)) v) with v' in T1, T2.
  rewrite Eh in T1, T2.
  split; [exact H1|]. split; [exact H2|].
  split; [|split; [|split; [exact H5 | split; [exact H6 | exact H7]]]].
  - intros Hs. rewrite T1 by congruence.
    cbn [AutoSaveView.returns AutoSaveView.hasUnsavedChanges].
    unfold hasUnsavedChanges. rewrite H2, H3.
    split; [reflexivity|]. split.
    + intros Hc. apply negb_true_iff, String.eqb_neq. exact Hc.
    + intros ->. rewrite String.eqb_refl. reflexivity.
  - intros Hs. apply T2. congruence.
Qed.

(** C4 as stated fails.  [forceSave] is called while the
    content is the snapshot, as Ctrl+S in an editor without changes, and the
    save is rejected: [hasUnsavedChanges] was false and is false, it does not
    remain true. *)
Lemma rejected_save_of_saved_content_is_not_unsaved :
  let v := AutoSaveView.run [ForceSave]
             (AutoSaveView.mount "a" true 1000 false false) in
  let v' := AutoSaveView.step (Reject 1 (ErrorInstance "offline")) v in
  wf (AutoSaveView.hook v) = true
  /\ isMountedRef (AutoSaveView.hook v) = true
  /\ lookupPending 1 (AutoSaveView.hook v) = Some (mkPending 1 "a" true)
  /\ AutoSaveView.hasUnsavedChanges v = false
  /\ status (AutoSaveView.hook v') = error
  /\ lastSavedContentRef (AutoSaveView.hook v')
     = lastSavedContentRef (AutoSaveView.hook v)
  /\ AutoSaveView.hasUnsavedChanges v' = false.
Proof. vm_compute. repeat split. Qed.

Lemma save_rejected_keeps_snapshot_witness :
  let v := AutoSaveView.run [Render "Hello" true 1000 false; Advance 1000]
             (AutoSaveView.mount "" true 1000 true true) in
  let v' := AutoSaveView.step (Reject 1 (NonError "offline")) v in
  let st' := AutoSaveView.hook v' in
  status (AutoSaveView.hook v) = saving
  /\ status st' = error
  /\ lastSavedContentRef st' = ""%string
  /\ AutoSaveView.hasUnsavedChanges v' = true
  /\ saveCalls (step ForceSave st') = [(1000, "Hello"%string); (1000, "Hello"%string)]
  /\ saveCalls (run [Render "Hello!" true 1000 false; Advance 1000] st')
     = [(1000, "Hello"%string); (2000, "Hello!"%string)].
Proof.
  intros v v' st'.
  destruct (save_rejected_keeps_snapshot v 1 (mkPending 1 "Hello" false)
              (NonError "offline") "Hello!" eq_refl eq_refl eq_refl)
    as (H1 & H2 & H3 & _ & _ & H6 & H7).
  split; [reflexivity|].
  split; [exact H1 | split; [exact H2|]].
  split; [|split; [exact H6|]].
  - destruct H3 as (_ & H3 & _); [discriminate|].
    apply H3. discriminate.
  - apply H7; [reflexivity | discriminate | discriminate].
Defined.

End AutoSaveFacts.

(** * Properties of [useDebounce] *)

Module DebounceFacts.
Import Debounce.

Section Facts.

Variable T : Type.
Variable same : T -> T -> bool.
Hypothesis same_eq : forall a b, same a b = true <-> a = b.

Local Abbreviation Hook := (Hook T).
Local Abbreviation Event := (Event T).
Local Abbreviation wf := (wf same).
Local Abbreviation step := (step same).
Local Abbreviation run := (run same).

Lemma same_refl (a : T) : same a a = true.
Proof. apply same_eq. reflexivity. Qed.

Lemma same_neq (a b : T) : a <> b -> same a b = false.
Proof.
  intros H. destruct (same a b) eqn:E; auto.
  apply same_eq in E. contradiction.
Qed.

(** What the invariant says of the timer table. *)
Lemma wf_cases (st : Hook) :
  wf st = true ->
  (timers st = [] /\ (mounted st = true -> debouncedValue st = value st))
  \/ exists tm,
       timers st = [tm] /\ mounted st = true
       /\ timeoutId st = Some (timerId tm)
       /\ timerId tm < nextTimerId st
       /\ setAt tm = lastChangeAt st /\ wait tm = delay st
       /\ payload tm = value st /\ now st <= fireAt tm.
Proof.
  unfold Debounce.wf. destruct (timers st) as [|tm [|tm' q]]; intros H.
  - left. split; auto. intros Hm. rewrite Hm in H. simpl in H.
    apply same_eq, H.
  - right. exists tm. rewrite !andb_true_iff in H.
    destruct H as ((((((H1 & H2) & H3) & H4) & H5) & H6) & H7).
    apply holds_true in H2. apply Nat.ltb_lt in H3.
    apply Nat.eqb_eq in H4. apply Nat.eqb_eq in H5.
    apply same_eq in H6. apply Nat.leb_le in H7. auto 10.
  - discriminate.
Qed.

Lemma debounce_wf_mount (v : T) (d : nat) : wf (mount v d) = true.
Proof.
  unfold Debounce.wf, Debounce.mount, effect; simpl.
  rewrite Nat.eqb_refl, same_refl. reflexivity.
Qed.

Lemma cleanup_clears (st : Hook) : wf st = true -> cleanup st = [].
Proof.
  intros W. unfold cleanup.
  destruct (wf_cases st W) as [[Ht _]|(tm & Ht & _ & Hid & _)]; rewrite Ht.
  - destruct (timeoutId st); reflexivity.
  - rewrite Hid. simpl. unfold keepsTimer. rewrite Nat.eqb_refl. reflexivity.
Qed.

Lemma effect_rerun (v : T) (d : nat) (st : Hook) :
  wf st = true -> depsChanged same v d st = true ->
  render same v d st
  = mkHook v d (debouncedValue st) (Some (nextTimerId st)) (now st)
      (mounted st) (now st) [mkTimer (nextTimerId st) (now st) d v]
      (S (nextTimerId st)).
Proof.
  intros W Hc. unfold render. rewrite Hc. unfold effect. simpl.
  rewrite (cleanup_clears st W). reflexivity.
Qed.

Lemma effect_kept (v : T) (d : nat) (st : Hook) :
  depsChanged same v d st = false -> render same v d st = st.
Proof.
  intros Hc. unfold render. rewrite Hc. unfold depsChanged in Hc.
  apply orb_false_iff in Hc. destruct Hc as [H1 H2].
  apply negb_false_iff in H1, H2. apply same_eq in H1.
  apply Nat.eqb_eq in H2. subst. destruct st; reflexivity.
Qed.

(** [advance], computed on the two shapes the timer table can have. *)
Lemma advance_idle (dt : nat) (st : Hook) :
  timers st = [] ->
  advance dt st
  = mkHook (value st) (delay st) (debouncedValue st) (timeoutId st)
      (lastChangeAt st) (mounted st) (now st + dt) [] (nextTimerId st).
Proof. intros H. unfold advance. rewrite H. reflexivity. Qed.

Lemma advance_pending (dt : nat) (st : Hook) (tm : Timer T) :
  timers st = [tm] ->
  advance dt st
  = if fireAt tm <=? now st + dt
    then mkHook (value st) (delay st) (payload tm) (timeoutId st)
           (lastChangeAt st) (mounted st) (now st + dt) [] (nextTimerId st)
    else mkHook (value st) (delay st) (debouncedValue st) (timeoutId st)
           (lastChangeAt st) (mounted st) (now st + dt) [tm] (nextTimerId st).
Proof.
  intros H. unfold advance. rewrite H. simpl. unfold isDue.
  destruct (fireAt tm <=? now st + dt); reflexivity.
Qed.

Lemma debounce_wf_step (e : Event) (st : Hook) : wf st = true -> wf (step e st) = true.
Proof.
  intros W. destruct e as [v d|dt|]; cbn [Debounce.step].
  - destruct (mounted st) eqn:Hm; auto.
    destruct (depsChanged same v d st) eqn:Hc.
    + rewrite (effect_rerun v d st W Hc). unfold Debounce.wf; simpl.
      rewrite Hm, !Nat.eqb_refl, same_refl. simpl.
      rewrite !andb_true_r, andb_true_iff, Nat.ltb_lt, Nat.leb_le.
      unfold fireAt; simpl. lia.
    + rewrite (effect_kept v d st Hc). exact W.
  - destruct (wf_cases st W) as [[Ht Hd]|(tm & Ht & Hm & Hid & Hn & Hs & Hw & Hp & Hf)].
    + rewrite (advance_idle dt st Ht). unfold Debounce.wf; simpl.
      destruct (mounted st); simpl; auto. apply same_eq. auto.
    + rewrite (advance_pending dt st tm Ht).
      destruct (fireAt tm <=? now st + dt) eqn:E; unfold Debounce.wf; simpl.
      * rewrite Hm. simpl. apply same_eq, Hp.
      * rewrite Hm, Hid. simpl. rewrite Nat.eqb_refl. simpl.
        apply Nat.leb_gt in E.
        rewrite !andb_true_iff, Nat.ltb_lt, !Nat.eqb_eq, same_eq, Nat.leb_le.
        repeat split; auto; lia.
  - destruct (mounted st) eqn:Hm; auto.
    unfold unmount, Debounce.wf; simpl. rewrite (cleanup_clears st W).
    reflexivity.
Qed.

Lemma unmounted_stays (evs : list Event) (st : Hook) :
  mounted st = false -> timers st = [] ->
  debouncedValue (run evs st) = debouncedValue st.
Proof.
  revert st. induction evs as [|e evs IH]; simpl; intros st Hm Ht; auto.
  destruct e as [v d|dt|]; cbn [Debounce.step]; rewrite ?Hm; auto.
  rewrite (advance_idle dt st Ht). rewrite IH; auto.
Qed.

(** C8.  The derived value changes only when time passes, and then only to
    the current input and only once the effect's dependencies (the input and
    the delay) have been unchanged for [delay]; once they have been, the
    derived value is the input.  A new input drops the pending timer and sets
    one for [delay] from now, so the wait starts again.  The unmount clears
    the pending timer and the derived value never changes afterwards. *)
Theorem debounced_value_follows_quiet_input (st : Hook) (e : Event) (v : T)
    (d dt : nat) (evs : list Event) :
  wf st = true ->
  mounted st = true ->
  (debouncedValue (step e st) <> debouncedValue st ->
   exists dt', e = Advance T dt'
     /\ debouncedValue (step e st) = value st
     /\ lastChangeAt st + delay st <= now st + dt')
  /\ (lastChangeAt st + delay st <= now st + dt ->
      debouncedValue (step (Advance T dt) st) = value st)
  /\ (v <> value st ->
      let st' := step (Render v d) st in
      timers st' = [mkTimer (nextTimerId st) (now st) d v]
      /\ (dt < d -> debouncedValue (step (Advance T dt) st') = debouncedValue st)
      /\ debouncedValue (step (Advance T d) st') = v)
  /\ (timers (step (Unmount T) st) = []
      /\ debouncedValue (run evs (step (Unmount T) st)) = debouncedValue st).
Proof.
  intros W Hm.
  repeat match goal with |- _ /\ _ => split end.
  - intros Hne. destruct e as [v' d'|dt'|]; cbn [Debounce.step] in *.
    + rewrite Hm in Hne.
      destruct (depsChanged same v' d' st) eqn:Hc.
      * rewrite (effect_rerun v' d' st W Hc) in Hne. simpl in Hne.
        contradiction.
      * rewrite (effect_kept v' d' st Hc) in Hne. contradiction.
    + exists dt'.
      destruct (wf_cases st W)
        as [[Ht Hd]|(tm & Ht & _ & Hid & Hn & Hs & Hw & Hp & Hf)].
      * rewrite (advance_idle dt' st Ht) in Hne. simpl in Hne. contradiction.
      * rewrite (advance_pending dt' st tm Ht) in *.
        destruct (fireAt tm <=? now st + dt') eqn:E; simpl in *;
          [|contradiction].
        apply Nat.leb_le in E. unfold fireAt in E.
        repeat split; auto; lia.
    + rewrite Hm in Hne. simpl in Hne. contradiction.
  - intros Hq. cbn [Debounce.step].
    destruct (wf_cases st W)
      as [[Ht Hd]|(tm & Ht & _ & Hid & Hn & Hs & Hw & Hp & Hf)].
    + rewrite (advance_idle dt st Ht). simpl. auto.
    + rewrite (advance_pending dt st tm Ht).
      replace (fireAt tm <=? now st + dt) with true; auto.
      symmetry. apply Nat.leb_le. unfold fireAt. lia.
  - intros Hv. cbn [Debounce.step]. rewrite Hm.
    rewrite (effect_rerun v d st W)
      by (unfold depsChanged; rewrite (same_neq v (value st)); auto).
    cbv zeta. split; [reflexivity|]. split.
    + intros Hlt. erewrite advance_pending by reflexivity.
      unfold fireAt; simpl.
      replace (now st + d <=? now st + dt) with false; auto.
      symmetry. apply Nat.leb_gt. lia.
    + erewrite advance_pending by reflexivity.
      unfold fireAt; simpl. rewrite Nat.leb_refl. reflexivity.
  - cbn [Debounce.step]. rewrite Hm. unfold unmount; simpl. apply cleanup_clears, W.
  - cbn [Debounce.step]. rewrite Hm. rewrite unmounted_stays; auto.
    unfold unmount; simpl. apply cleanup_clears, W.
Qed.

End Facts.

(** Typing "r" and then "re" into an input debounced by 300 ms. *)
Lemma debounced_value_follows_quiet_input_witness :
  let st := Debounce.run String.eqb
              [Render "r"%string 300; Advance string 100]
              (Debounce.mount ""%string 300) in
  debouncedValue st = ""%string
  /\ debouncedValue (Debounce.step String.eqb (Advance string 300) st)
     = "r"%string
  /\ debouncedValue
       (Debounce.step String.eqb (Advance string 299)
          (Debounce.step String.eqb (Render "re"%string 300) st))
     = ""%string
  /\ debouncedValue
       (Debounce.step String.eqb (Advance string 300)
          (Debounce.step String.eqb (Render "re"%string 300) st))
     = "re"%string
  /\ debouncedValue
       (Debounce.run String.eqb [Advance string 1000]
          (Debounce.step String.eqb (Unmount string) st))
     = ""%string.
Proof.
  intros st.
  destruct (debounced_value_follows_quiet_input string String.eqb String.eqb_eq st
              (Advance string 300) "re"%string 300 299 [Advance string 1000]
              eq_refl eq_refl) as (_ & H2 & H3 & _ & _).
  destruct (H3 ltac:(discriminate)) as (_ & H4 & H5).
  destruct (debounced_value_follows_quiet_input string String.eqb String.eqb_eq st
              (Advance string 300) "re"%string 300 300 [Advance string 1000]
              eq_refl eq_refl) as (_ & H2' & _ & _ & H6).
  split; [reflexivity|].
  split; [apply H2'; vm_compute; lia|].
  split; [apply H4; lia|].
  split; [exact H5 | exact H6].
Defined.

End DebounceFacts.

(** * Properties of the [code] override *)

Module PreviewFacts.
Import Preview.

Lemma stripFinalNewline_app (s : string) :
  stripFinalNewline (s ++ String newline EmptyString) = s.
Proof.
  induction s as [|c s IH]; [reflexivity|].
  change (stripFinalNewline (String c (s ++ String newline EmptyString))
          = String c s).
  destruct s as [|c' s]; [reflexivity|].
  change (String c (stripFinalNewline (String c' s ++ String newline EmptyString))
          = String c (String c' s)).
  rewrite IH. reflexivity.
Qed.

Lemma stripFinalNewline_keeps (s : string) :
  stripFinalNewline s = s
  \/ (stripFinalNewline s ++ String newline EmptyString)%string = s.
Proof.
  induction s as [|c s IH]; [left; reflexivity|].
  destruct s as [|c' s].
  - simpl. destruct (Ascii.eqb c newline) eqn:E; [|left; reflexivity].
    right. apply Ascii.eqb_eq in E. subst. reflexivity.
  - change (stripFinalNewline (String c (String c' s)))
      with (String c (stripFinalNewline (String c' s))).
    destruct IH as [IH|IH]; [left|right]; simpl in *; rewrite IH; reflexivity.
Qed.

(** Whatever [className] and [children] are, the override returns an
    element: the inline one with [children] as they came, or the highlighter
    with the text of [String(children)], short of at most one final
    newline. *)
Lemma code_keeps_text (className : option string) (children : ReactNode) :
  match code className children with
  | InlineCode n => n = children
  | Highlighted _ t =>
      t = toString children
      \/ (t ++ String newline EmptyString)%string = toString children
  end.
Proof.
  unfold code. destruct (languageOf _); [|reflexivity].
  apply stripFinalNewline_keeps.
Qed.

(** A class that starts with [language-] and a word character selects the
    highlighter, with the word as the language, registered or not; the code,
    which arrives with a newline appended, is handed on without it. *)
Lemma code_with_language (c : Ascii.ascii) (tag src : string) :
  isWordChar c = true ->
  code (Some ("language-" ++ String c tag)%string)
       (NodeText (src ++ String newline EmptyString))
  = Highlighted (String c (takeWord tag)) src.
Proof.
  intros H. unfold code.
  assert (L : languageOf ("language-" ++ String c tag)%string
              = Some (String c (takeWord tag))).
  { simpl. unfold languageHere. simpl. rewrite H. reflexivity. }
  rewrite L. cbn [toString]. rewrite stripFinalNewline_app. reflexivity.
Qed.

(** Without a class, as for a fence without a language tag, the inline
    branch is taken and [children] is handed on as it came. *)
Lemma code_without_class (children : ReactNode) :
  code None children = InlineCode children.
Proof. reflexivity. Qed.

(** The language the highlighter is given is the first run of word
    characters of the tag: for a fence tagged [c++] it is [c]. *)
Lemma code_cpp_fence :
  code (Some "language-c++"%string) (NodeText "int x;
") = Highlighted "c" "int x;".
Proof. reflexivity. Qed.

(** An empty code block with a language has no children, and the
    highlighter is given the text of [String(undefined)]. *)
Lemma code_empty_fence :
  code (Some "language-js"%string) NodeUndefined = Highlighted "js" "undefined".
Proof. reflexivity. Qed.

End PreviewFacts.

(** * Further properties of [useAutoSave] *)

Module AutoSaveMore.
Import AutoSave AutoSaveAux AutoSaveFacts.

(** ** At most one debounce timer *)

Lemma debounceTimers_enqueue_reset (tm : Timer) (q : list Timer) :
  isDebouncedSave (callback tm) = false ->
  debounceTimers (enqueue tm q) = debounceTimers q.
Proof.
  intros H. unfold debounceTimers.
  induction q as [|x q IH]; simpl; [rewrite H; reflexivity|].
  destruct (fireAt tm <? fireAt x); simpl; rewrite ?H, ?IH; reflexivity.
Qed.

Lemma filter_length_le (A : Type) (f : A -> bool) (l : list A) :
  length (filter f l) <= length l.
Proof.
  induction l as [|x l IH]; simpl; auto.
  destruct (f x); simpl; lia.
Qed.

Lemma clearTimerRef_debounceTimers (st : Hook) :
  length (debounceTimers (timers (clearTimerRef st)))
  <= length (debounceTimers (timers st)).
Proof.
  unfold clearTimerRef, clearTimeout. destruct (timerRef st); simpl; auto.
  rewrite debounceTimers_filter. apply filter_length_le.
Qed.

Lemma one_timer_step (e : Event) (st : Hook) :
  Wf st ->
  length (debounceTimers (timers st)) <= 1 ->
  length (debounceTimers (timers (step e st))) <= 1.
Proof.
  intros W H. destruct e as [c en d fresh|dt|pid|pid err| | |]; cbn [step].
  - destruct (isMountedRef st); auto.
    destruct (depsChanged c en d fresh st) eqn:Hc;
      [|unfold render; rewrite Hc; auto].
    pose proof (render_changed c en d fresh st W Hc) as R. cbv zeta in R.
    destruct R as (_ & _ & _ & _ & _ & _ & _ & _ & _ & _ & ->).
    destruct (en && negb (String.eqb c (lastSavedContentRef st))); simpl; lia.
  - destruct (advance_fields dt st W) as (_ & _ & _ & _ & _ & _ & _ & _ & ->).
    rewrite debounceTimers_filter.
    pose proof (filter_length_le _ (fun tm => negb (isDue (now st + dt) tm))
                  (debounceTimers (timers st))). lia.
  - destruct (lookupPending pid st) as [p|]; auto.
    unfold saveResolved, callOnSuccess.
    destruct (isMountedRef (removePending pid st)); simpl; auto.
    destruct (hasOnSuccess st); simpl;
      rewrite debounceTimers_enqueue_reset; auto.
  - destruct (lookupPending pid st) as [p|]; auto.
    unfold saveRejected, callOnError.
    destruct (isMountedRef (removePending pid st)); simpl; auto.
    destruct (hasOnError st); simpl; auto.
  - unfold forceSave.
    destruct (performSave_frame (content st) true (clearTimerRef st))
      as (_ & -> & _).
    pose proof (clearTimerRef_debounceTimers st). lia.
  - destruct (isMountedRef st); auto.
  - destruct (isMountedRef st); auto.
    destruct (unmount_frame st)
      as (_ & _ & _ & _ & _ & _ & _ & _ & _ & _ & f & ->).
    rewrite debounceTimers_filter.
    pose proof (filter_length_le _ f (debounceTimers (timers st))). lia.
Qed.

(** X1.  However the hook is mounted and whatever happens to it, at most
    one debounce timer is pending, and [timerRef] holds the handle of every
    pending debounce timer. *)
Theorem at_most_one_debounce_timer (c : string) (en : bool) (d : nat)
    (onSuccess onError : bool) (evs : list Event) :
  let st := run evs (mount c en d onSuccess onError) in
  length (debounceTimers (timers st)) <= 1
  /\ forall tm, In tm (debounceTimers (timers st)) ->
       timerRef st = Some (timerId tm).
Proof.
  intros st.
  assert (G : forall evs s, Wf s -> length (debounceTimers (timers s)) <= 1 ->
              length (debounceTimers (timers (run evs s))) <= 1).
  { induction evs0 as [|e evs0 IH]; simpl; intros s W H; auto.
    apply IH; [apply Wf_step, W | apply one_timer_step; auto]. }
  split.
  - apply G; [apply Wf_mount|].
    unfold mount, debounceEffect; simpl. rewrite String.eqb_refl.
    destruct en; simpl; lia.
  - intros tm Hin. unfold debounceTimers in Hin. apply filter_In in Hin.
    destruct Hin as [Hin Hd].
    pose proof (Wf_run evs _ (Wf_mount c en d onSuccess onError)) as W.
    pose proof (wf_timers _ W _ Hin) as (_ & _ & F).
    destruct (callback tm); [|discriminate]. apply F.
Qed.

(** ** The status is only ever written *)

Lemma forget_eq (a b : Hook) :
  forgetStatus a = forgetStatus b -> a = setStatus (status a) b.
Proof.
  destruct a, b. unfold forgetStatus, setStatus; simpl.
  intros [= -> -> -> -> -> -> -> -> -> -> -> -> -> -> -> -> -> ->].
  reflexivity.
Qed.

Lemma forget_lift (f : Hook -> Hook) :
  (forall s st, forgetStatus (f (setStatus s st)) = forgetStatus (f st)) ->
  forall a b, forgetStatus a = forgetStatus b ->
              forgetStatus (f a) = forgetStatus (f b).
Proof.
  intros H a b E. rewrite (forget_eq a b E). apply H.
Qed.

Lemma forget_clearTimerRef (s : AutoSaveStatus) (st : Hook) :
  clearTimerRef (setStatus s st) = setStatus s (clearTimerRef st).
Proof.
  unfold clearTimerRef, clearTimeout; simpl. destruct (timerRef st); reflexivity.
Qed.

Lemma forget_performSave (c : string) (f : bool) (s : AutoSaveStatus) (st : Hook) :
  forgetStatus (performSave c f (setStatus s st))
  = forgetStatus (performSave c f st).
Proof.
  unfold performSave; simpl. destruct (isMountedRef st); reflexivity.
Qed.

Lemma forget_runTimer (tm : Timer) (s : AutoSaveStatus) (st : Hook) :
  forgetStatus (runTimer tm (setStatus s st)) = forgetStatus (runTimer tm st).
Proof.
  unfold runTimer. destruct (callback tm) as [c|]; simpl.
  - apply (forget_performSave c false s
             (setNow (Nat.max (now st) (fireAt tm)) st)).
  - destruct (isMountedRef st); reflexivity.
Qed.

Lemma forget_fold (l : list Timer) (a b : Hook) :
  forgetStatus a = forgetStatus b ->
  forgetStatus (fold_left (fun s tm => runTimer tm s) l a)
  = forgetStatus (fold_left (fun s tm => runTimer tm s) l b).
Proof.
  revert a b. induction l as [|tm l IH]; simpl; intros a b E; auto.
  apply IH. apply (forget_lift (runTimer tm)); auto.
  intros s st. apply forget_runTimer.
Qed.

Lemma comm_runEffectCleanup (s : AutoSaveStatus) (st : Hook) :
  runEffectCleanup (setStatus s st) = setStatus s (runEffectCleanup st).
Proof.
  unfold runEffectCleanup; simpl.
  destruct (effectCleanup st); [apply forget_clearTimerRef | reflexivity].
Qed.

Lemma comm_debounceEffect (s : AutoSaveStatus) (st : Hook) :
  debounceEffect (setStatus s st) = setStatus s (debounceEffect st).
Proof.
  unfold debounceEffect; simpl.
  destruct (enabled st); simpl; [|reflexivity].
  destruct (String.eqb (content st) (lastSavedContentRef st)); [reflexivity|].
  rewrite forget_clearTimerRef. reflexivity.
Qed.

Lemma forget_render (c : string) (en : bool) (d : nat) (fresh : bool)
    (s : AutoSaveStatus) (st : Hook) :
  forgetStatus (render c en d fresh (setStatus s st))
  = forgetStatus (render c en d fresh st).
Proof.
  unfold render, depsChanged; simpl.
  destruct (negb (String.eqb c (content st)) || negb (Bool.eqb en (enabled st))
            || negb (d =? debounceMs st) || fresh); [|reflexivity].
  rewrite comm_runEffectCleanup.
  change (setLastChangeAt (now st)
            (setProps c en d (setStatus s (runEffectCleanup st))))
    with (setStatus s (setLastChangeAt (now st)
                         (setProps c en d (runEffectCleanup st)))).
  rewrite comm_debounceEffect. reflexivity.
Qed.

Lemma forget_step (e : Event) (s : AutoSaveStatus) (st : Hook) :
  forgetStatus (step e (setStatus s st)) = forgetStatus (step e st).
Proof.
  destruct e as [c en d fresh|dt|pid|pid err| | |]; cbn [step].
  - simpl isMountedRef. destruct (isMountedRef st); [|reflexivity].
    apply forget_render.
  - unfold advance.
    change (now (setStatus s st)) with (now st).
    change (timers (setStatus s st)) with (timers st).
    change (nextTimerId (setStatus s st)) with (nextTimerId st).
    apply (forget_lift (setNow (now st + dt))); [reflexivity|].
    apply forget_fold. reflexivity.
  - unfold lookupPending; simpl.
    destruct (find _ (inflight st)) as [p|]; [|reflexivity].
    unfold saveResolved, callOnSuccess; simpl.
    destruct (isMountedRef st); [|reflexivity].
    destruct (hasOnSuccess st); reflexivity.
  - unfold lookupPending; simpl.
    destruct (find _ (inflight st)) as [p|]; [|reflexivity].
    unfold saveRejected, callOnError; simpl.
    destruct (isMountedRef st); [|reflexivity].
    destruct (hasOnError st); reflexivity.
  - unfold forceSave. simpl content. rewrite forget_clearTimerRef.
    apply forget_performSave.
  - simpl isMountedRef. destruct (isMountedRef st); reflexivity.
  - simpl isMountedRef. destruct (isMountedRef st); [|reflexivity].
    rewrite !unmount_unfold. simpl.
    destruct (timerRef st); reflexivity.
Qed.

(** X2.  Nothing the hook does depends on the status: started with any
    other status, it makes the same calls of [onSave] at the same times, keeps
    the same snapshot, timers and pending promises through any events.  So
    [resetStatus] changes what the indicator shows and nothing else. *)
Theorem status_is_only_written (st : Hook) (s : AutoSaveStatus)
    (evs : list Event) :
  forgetStatus (run evs (setStatus s st)) = forgetStatus (run evs st)
  /\ forgetStatus (run (ResetStatus :: evs) st) = forgetStatus (run evs st)
  /\ saveCalls (run evs (setStatus s st)) = saveCalls (run evs st)
  /\ lastSavedContentRef (run evs (setStatus s st))
     = lastSavedContentRef (run evs st)
  /\ timers (run evs (setStatus s st)) = timers (run evs st)
  /\ inflight (run evs (setStatus s st)) = inflight (run evs st).
Proof.
  assert (G : forall evs a b, forgetStatus a = forgetStatus b ->
                forgetStatus (run evs a) = forgetStatus (run evs b)).
  { induction evs0 as [|e evs0 IH]; simpl; intros a b E; auto.
    apply IH. apply (forget_lift (step e)); auto.
    intros s0 st0. apply forget_step. }
  assert (E : forgetStatus (run evs (setStatus s st)) = forgetStatus (run evs st))
    by (apply G; reflexivity).
  split; [exact E|].
  split.
  { change (run (ResetStatus :: evs) st) with (run evs (step ResetStatus st)).
    cbn [step]. destruct (isMountedRef st); [|reflexivity].
    apply G. reflexivity. }
  split; [exact (f_equal saveCalls E)|].
  split; [exact (f_equal lastSavedContentRef E)|].
  split; [exact (f_equal timers E) | exact (f_equal inflight E)].
Qed.

(** ** Saves that overlap *)

Lemma fold_runTimer_inflight (l : list Timer) (s : Hook) :
  isMountedRef s = true ->
  inflight (fold_left (fun s tm => runTimer tm s) l s)
  = inflight s ++ pendingOf (nextPromiseId s) l.
Proof.
  revert s. induction l as [|tm l IH]; simpl; intros s Hm.
  - symmetry. apply app_nil_r.
  - destruct (runTimer_frame tm s) as (S & _).
    destruct S as (_ & _ & _ & _ & M & _).
    rewrite IH by congruence.
    unfold runTimer, performSave.
    destruct (callback tm) as [c|]; simpl; rewrite Hm; simpl.
    + rewrite <- app_assoc. reflexivity.
    + reflexivity.
Qed.

Lemma pendingOf_debounceTimers (n : nat) (l : list Timer) :
  pendingOf n l = pendingOf n (debounceTimers l).
Proof.
  revert n. unfold debounceTimers.
  induction l as [|tm l IH]; simpl; intros n; auto.
  destruct (callback tm) eqn:E; simpl; rewrite ?E; auto.
  f_equal. apply IH.
Qed.

Lemma advance_inflight (dt : nat) (st : Hook) :
  isMountedRef st = true ->
  inflight (advance dt st)
  = inflight st
    ++ pendingOf (nextPromiseId st)
         (filter (isDue (now st + dt)) (debounceTimers (timers st))).
Proof.
  intros Hm. unfold advance. simpl.
  rewrite fold_runTimer_inflight by exact Hm. simpl.
  rewrite pendingOf_debounceTimers, debounceTimers_filter. reflexivity.
Qed.

(** X3.  The hook has no guard against overlapping saves.  When the content
    changes while a save is pending and then rests for [debounceMs], [onSave]
    is called again, with the new content, while the earlier promise is still
    pending: two saves are in flight at once. *)
Theorem change_during_save_starts_second_save (st : Hook) (pid : nat)
    (p : PendingSave) (c : string) :
  wf st = true ->
  isMountedRef st = true ->
  enabled st = true ->
  lookupPending pid st = Some p ->
  c <> content st ->
  c <> lastSavedContentRef st ->
  let d := debounceMs st in
  let st' := run [Render c true d false; Advance d] st in
  saveCalls st' = saveCalls st ++ [(now st + d, c)]
  /\ inflight st' = inflight st ++ [mkPending (nextPromiseId st) c false]
  /\ lookupPending pid st' = Some p.
Proof.
  intros W Hm Hen Hp Hc HL d st'. apply wf_Wf in W.
  assert (E1 : String.eqb c (content st) = false) by (apply String.eqb_neq; auto).
  assert (E2 : String.eqb c (lastSavedContentRef st) = false)
    by (apply String.eqb_neq; auto).
  split; [|split].
  - pose proof (burst_saves st c [] W Hm Hen) as B. simpl in B.
    rewrite E1, E2 in B. simpl in B. rewrite Nat.add_0_r in B.
    apply B; reflexivity.
  - unfold st'. cbn [run fold_left step]. rewrite Hm.
    assert (Hd : depsChanged c true d false st = true)
      by (unfold depsChanged; rewrite E1; reflexivity).
    pose proof (render_changed c true d false st W Hd) as R. cbv zeta in R.
    destruct R as (R1 & R2 & R3 & R4 & R5 & R6 & R7 & R8 & R9 & R10 & R11).
    destruct (render_keeps_promises c true d false st) as (P1 & P2 & _).
    rewrite advance_inflight by congruence.
    rewrite R11, E2, P1, P2, R6. simpl.
    unfold isDue, fireAt; simpl. rewrite Nat.leb_refl. reflexivity.
  - unfold st'. apply pending_through_run; auto.
Qed.

Lemma change_during_save_starts_second_save_witness :
  let st := run [Render "a" true 1000 false; Advance 1000]
              (mount "" true 1000 false false) in
  let st' := run [Render "ab" true 1000 false; Advance 1000] st in
  saveCalls st' = [(1000, "a"%string); (2000, "ab"%string)]
  /\ inflight st' = [mkPending 1 "a" false; mkPending 2 "ab" false].
Proof.
  intros st st'.
  destruct (change_during_save_starts_second_save st 1
              (mkPending 1 "a" false) "ab"
              eq_refl eq_refl eq_refl eq_refl
              ltac:(discriminate) ltac:(discriminate)) as (H1 & H2 & _).
  split; [exact H1 | exact H2].
Defined.

(** ** The snapshot follows the order of the resolutions *)

Lemma resolve_mounted (pid : nat) (p : PendingSave) (st : Hook) :
  isMountedRef st = true -> lookupPending pid st = Some p ->
  lastSavedContentRef (step (Resolve pid) st) = pendingContent p
  /\ isMountedRef (step (Resolve pid) st) = true
  /\ content (step (Resolve pid) st) = content st.
Proof.
  intros Hm Hp. cbn [step]. rewrite Hp.
  destruct (saveResolved_mounted p (removePending pid st) Hm)
    as (H1 & _ & H3 & _ & _ & _ & H7 & _).
  auto.
Qed.

(** X4.  The snapshot is the content of the save that resolved last, not
    of the save that was started last: of two pending saves, the one whose
    promise resolves second leaves its content in the snapshot, so an older
    save that resolves late puts the snapshot back. *)
Theorem snapshot_follows_resolution_order (st : Hook) (older newer : nat)
    (a b : PendingSave) :
  isMountedRef st = true ->
  lookupPending older st = Some a ->
  lookupPending newer st = Some b ->
  older <> newer ->
  lastSavedContentRef (run [Resolve older; Resolve newer] st) = pendingContent b
  /\ lastSavedContentRef (run [Resolve newer; Resolve older] st)
     = pendingContent a.
Proof.
  intros Hm Ha Hb Hne.
  assert (Sa : settles newer (Resolve older) = false)
    by (simpl; apply Nat.eqb_neq; auto).
  assert (Sb : settles older (Resolve newer) = false)
    by (simpl; apply Nat.eqb_neq; auto).
  destruct (resolve_mounted older a st Hm Ha) as (_ & M1 & C1).
  destruct (resolve_mounted newer b st Hm Hb) as (_ & M2 & C2).
  pose proof (pending_until_settled newer b (Resolve older) st Hb Sa) as Hb'.
  pose proof (pending_until_settled older a (Resolve newer) st Ha Sb) as Ha'.
  destruct (resolve_mounted newer b _ M1 Hb') as (L1 & _ & _).
  destruct (resolve_mounted older a _ M2 Ha') as (L2 & _ & _).
  split; [exact L1 | exact L2].
Qed.

Lemma snapshot_follows_resolution_order_witness :
  let st := run [Render "a" true 1000 false; Advance 1000;
                 Render "ab" true 1000 false; Advance 1000]
              (mount "" true 1000 false false) in
  content st = "ab"%string
  /\ lastSavedContentRef (run [Resolve 1; Resolve 2] st) = "ab"%string
  /\ lastSavedContentRef (run [Resolve 2; Resolve 1] st) = "a"%string.
Proof.
  intros st.
  destruct (snapshot_follows_resolution_order st 1 2
              (mkPending 1 "a" false) (mkPending 2 "ab" false)
              eq_refl eq_refl eq_refl ltac:(discriminate)) as (H1 & H2).
  split; [reflexivity | split; [exact H1 | exact H2]].
Defined.

(** ** Switching auto-save off, and renders that keep the content *)

Lemma no_timer_no_save (dt : nat) (st : Hook) :
  Wf st -> isMountedRef st = true -> debounceTimers (timers st) = [] ->
  saveCalls (advance dt st) = saveCalls st
  /\ debounceTimers (timers (advance dt st)) = []
  /\ isMountedRef (advance dt st) = true.
Proof.
  intros W Hm Hd.
  destruct (advance_fields dt st W) as (_ & _ & _ & M & _ & _ & _ & _ & T).
  split; [|split; [|congruence]].
  - rewrite advance_saves by auto.
    rewrite savesOf_debounceTimers, debounceTimers_filter, Hd. simpl.
    apply app_nil_r.
  - rewrite T, debounceTimers_filter, Hd. reflexivity.
Qed.

Lemma waiting_without_timer (waits : list nat) (s : Hook) :
  Wf s -> isMountedRef s = true -> debounceTimers (timers s) = [] ->
  saveCalls (run (map Advance waits) s) = saveCalls s.
Proof.
  revert s. induction waits as [|w waits IH]; simpl; intros s W M T; auto.
  destruct (no_timer_no_save w s W M T) as (A & B & C).
  rewrite IH; auto. apply Wf_advance, W.
Qed.

(** X5.  Switching auto-save off cancels the debounced save that is
    pending: however much time passes afterwards, [onSave] is not called.
    Switching it on again while the content still differs from the snapshot
    starts the whole delay anew. *)
Theorem disabling_cancels_pending_save (st : Hook) (waits : list nat)
    (pause : nat) :
  wf st = true ->
  isMountedRef st = true ->
  enabled st = true ->
  let c := content st in
  let d := debounceMs st in
  let off := step (Render c false d false) st in
  debounceTimers (timers off) = []
  /\ saveCalls (run (map Advance waits) off) = saveCalls st
  /\ (c <> lastSavedContentRef st ->
      saveCalls (run [Advance pause; Render c true d false; Advance d] off)
      = saveCalls st ++ [(now st + pause + d, c)]).
Proof.
  intros W Hm Hen c d off. apply wf_Wf in W.
  assert (Hd : depsChanged c false d false st = true).
  { unfold depsChanged. rewrite Hen. simpl. rewrite orb_true_r. reflexivity. }
  pose proof (render_changed c false d false st W Hd) as R. cbv zeta in R.
  destruct R as (R1 & R2 & R3 & R4 & R5 & R6 & R7 & R8 & R9 & R10 & R11).
  assert (Woff : Wf off) by (apply Wf_step, W).
  assert (Eoff : off = render c false d false st)
    by (unfold off; cbn [step]; rewrite Hm; reflexivity).
  assert (Moff : isMountedRef off = true) by (rewrite Eoff; congruence).
  assert (Toff : debounceTimers (timers off) = [])
    by (rewrite Eoff, R11; reflexivity).
  split; [exact Toff | split].
  - rewrite <- R8, <- Eoff. apply waiting_without_timer; auto.
  - intros HL.
    assert (E2 : String.eqb c (lastSavedContentRef st) = false)
      by (apply String.eqb_neq; auto).
    assert (Foff : enabled off = false /\ debounceMs off = d
                   /\ lastSavedContentRef off = lastSavedContentRef st
                   /\ saveCalls off = saveCalls st /\ now off = now st)
      by (rewrite Eoff; auto).
    destruct Foff as (F1 & F2 & F3 & F4 & F5).
    change (run [Advance pause; Render c true d false; Advance d] off)
      with (run [Render c true d false; Advance d] (advance pause off)).
    destruct (no_timer_no_save pause off Woff Moff Toff) as (A & B & C).
    destruct (advance_fields pause off Woff)
      as (A1 & A2 & A3 & A4 & A5 & A6 & A7 & A8 & A9).
    remember (advance pause off) as mid eqn:Emid.
    assert (Wmid : Wf mid) by (rewrite Emid; apply Wf_advance, Woff).
    assert (Hd2 : depsChanged c true d false mid = true).
    { unfold depsChanged. rewrite A2, F1. simpl.
      rewrite orb_true_r. reflexivity. }
    pose proof (render_changed c true d false mid Wmid Hd2) as Q.
    cbv zeta in Q.
    destruct Q as (Q1 & Q2 & Q3 & Q4 & Q5 & Q6 & Q7 & Q8 & Q9 & Q10 & Q11).
    cbn [run fold_left step]. rewrite C.
    remember (render c true d false mid) as on eqn:Eon.
    assert (Won : Wf on) by (rewrite Eon; apply Wf_render; auto).
    rewrite advance_saves by (auto; congruence).
    rewrite savesOf_debounceTimers, debounceTimers_filter, Q11.
    rewrite A6, F3, E2. cbn [andb negb filter].
    unfold isDue at 1. unfold fireAt at 1. cbn [setAt delay].
    rewrite Q6, Nat.leb_refl.
    unfold savesOf, fireAt. cbn [flat_map callback setAt delay app].
    rewrite Q8, A, F4, A8, F5. reflexivity.
Qed.

Lemma disabling_cancels_pending_save_witness :
  let st := run [Render "a" true 1000 false; Advance 400]
              (mount "" true 1000 false false) in
  let off := step (Render "a" false 1000 false) st in
  debounceTimers (timers st) <> []
  /\ saveCalls (run (map Advance [600; 5000]) off) = []
  /\ saveCalls (run [Advance 100; Render "a" true 1000 false; Advance 1000] off)
     = [(1500, "a"%string)].
Proof.
  intros st off.
  destruct (disabling_cancels_pending_save st [600; 5000] 100
              eq_refl eq_refl eq_refl) as (_ & H2 & H3).
  split; [discriminate | split; [exact H2|]].
  apply H3. discriminate.
Defined.


Lemma quiet_step (c : string) (e : Event) (st : Hook) :
  keepsContent c e = true ->
  Wf st -> isMountedRef st = true ->
  content st = c -> lastSavedContentRef st = c ->
  debounceTimers (timers st) = [] ->
  isMountedRef (step e st) = true
  /\ content (step e st) = c /\ lastSavedContentRef (step e st) = c
  /\ debounceTimers (timers (step e st)) = []
  /\ saveCalls (step e st) = saveCalls st
  /\ (status st = idle -> status (step e st) = idle).
Proof.
  intros He W Hm Hc HL HT.
  destruct e as [c' en d fresh|dt|pid|pid err| | |]; try discriminate;
    cbn [step keepsContent] in *.
  - apply String.eqb_eq in He. subst c'. rewrite Hm.
    destruct (depsChanged c en d fresh st) eqn:Hd;
      [|unfold render; rewrite Hd; auto 10].
    pose proof (render_changed c en d fresh st W Hd) as R. cbv zeta in R.
    destruct R as (R1 & R2 & R3 & R4 & R5 & R6 & R7 & R8 & R9 & R10 & R11).
    rewrite R11, HL, String.eqb_refl, andb_false_r.
    repeat match goal with |- _ /\ _ => split end; congruence.
  - destruct (no_timer_no_save dt st W Hm HT) as (A & B & C).
    destruct (advance_fields dt st W) as (A1 & _ & _ & _ & _ & A6 & _).
    repeat match goal with |- _ /\ _ => split end; try congruence.
    intros Hs. unfold advance. simpl.
    destruct (fold_runTimer_quiet (filter (isDue (now st + dt)) (timers st))
                (setTimers (filter (fun tm => negb (isDue (now st + dt) tm))
                              (timers st)) (nextTimerId st) st)) as [_ Q].
    + right. rewrite debounceTimers_filter, HT. reflexivity.
    + simpl in Q. destruct Q as [Q|Q]; congruence.
Qed.

(** X6.  The hook never saves the content it was mounted with.  As long as
    the content stays what it was at the mount, neither the passage of time
    nor renders that toggle [enabled], change [debounceMs] or bring new
    callbacks arm a timer or call [onSave]; the status stays ['idle'] and
    [hasUnsavedChanges] stays false. *)
Theorem unchanged_content_never_saves (c : string) (en : bool) (d : nat)
    (onSuccess onError : bool) (evs : list Event) :
  forallb (keepsContent c) evs = true ->
  let st := run evs (mount c en d onSuccess onError) in
  saveCalls st = []
  /\ debounceTimers (timers st) = []
  /\ status st = idle
  /\ hasUnsavedChanges st = false.
Proof.
  intros He st.
  assert (G : forall evs s,
            forallb (keepsContent c) evs = true ->
            Wf s -> isMountedRef s = true ->
            content s = c -> lastSavedContentRef s = c ->
            debounceTimers (timers s) = [] -> saveCalls s = [] ->
            status s = idle ->
            saveCalls (run evs s) = []
            /\ debounceTimers (timers (run evs s)) = []
            /\ status (run evs s) = idle
            /\ content (run evs s) = lastSavedContentRef (run evs s)).
  { induction evs0 as [|e evs0 IH]; simpl; intros s H W Hm Hc HL HT HS Hi.
    - repeat split; congruence.
    - apply andb_true_iff in H. destruct H as [H1 H2].
      destruct (quiet_step c e s H1 W Hm Hc HL HT) as (A & B & C & D & E & F).
      apply IH; auto; [apply Wf_step, W | congruence]. }
  assert (M : isMountedRef (mount c en d onSuccess onError) = true
              /\ content (mount c en d onSuccess onError) = c
              /\ lastSavedContentRef (mount c en d onSuccess onError) = c
              /\ debounceTimers (timers (mount c en d onSuccess onError)) = []
              /\ saveCalls (mount c en d onSuccess onError) = []
              /\ status (mount c en d onSuccess onError) = idle).
  { unfold mount, debounceEffect; simpl. rewrite String.eqb_refl.
    destruct en; simpl; auto 10. }
  destruct M as (M1 & M2 & M3 & M4 & M5 & M6).
  destruct (G evs _ He (Wf_mount c en d onSuccess onError) M1 M2 M3 M4 M5 M6)
    as (A & B & C & D).
  fold st in A, B, C, D.
  repeat split; auto.
  unfold hasUnsavedChanges. rewrite D, String.eqb_refl. reflexivity.
Qed.

Lemma unchanged_content_never_saves_witness :
  let st := run [Advance 5000; Render "draft" false 1000 false;
                 Render "draft" true 250 true; Advance 5000]
              (mount "draft" true 1000 false false) in
  saveCalls st = [] /\ status st = idle /\ hasUnsavedChanges st = false.
Proof.
  intros st.
  destruct (unchanged_content_never_saves "draft" true 1000 false false
              [Advance 5000; Render "draft" false 1000 false;
               Render "draft" true 250 true; Advance 5000] eq_refl)
    as (H1 & _ & H3 & H4).
  split; [exact H1 | split; [exact H3 | exact H4]].
Defined.

End AutoSaveMore.

(** * Further properties of the [code] override *)

Module PreviewMore.
Import Preview PreviewAux.

Lemma takeWord_allWordChars (s : string) : allWordChars (takeWord s) = true.
Proof.
  induction s as [|c s IH]; simpl; auto.
  destruct (isWordChar c) eqn:E; simpl; auto. rewrite E, IH. reflexivity.
Qed.

Lemma languageHere_word (s w : string) :
  languageHere s = Some w -> w <> EmptyString /\ allWordChars w = true.
Proof.
  unfold languageHere. destruct (dropPrefix "language-" s) as [rest|];
    [|discriminate].
  pose proof (takeWord_allWordChars rest) as H.
  destruct (takeWord rest) as [|c t]; [discriminate|].
  intros [= <-]. split; [discriminate | exact H].
Qed.

Lemma languageOf_word (s w : string) :
  languageOf s = Some w -> w <> EmptyString /\ allWordChars w = true.
Proof.
  induction s as [|c s IH]; simpl.
  - discriminate.
  - destruct (languageHere (String c s)) eqn:E.
    + intros [= <-]. apply (languageHere_word _ _ E).
    + exact IH.
Qed.

(** X7.  The language the override gives the highlighter is never empty
    and consists of word characters only.  A fence tagged with a language
    whose name has another character in it, such as the registered alias
    [c++], never reaches the highlighter under that name. *)
Theorem highlighter_language_is_a_word (className : option string)
    (children : ReactNode) (lang text : string) :
  code className children = Highlighted lang text ->
  lang <> EmptyString
  /\ allWordChars lang = true
  /\ lang <> "c++"%string.
Proof.
  unfold code.
  destruct (languageOf _) as [w|] eqn:E; [|discriminate].
  intros [= <- _]. destruct (languageOf_word _ _ E) as [H1 H2].
  repeat split; auto.
  intros ->. discriminate.
Qed.

Lemma highlighter_language_is_a_word_witness :
  code (Some "language-c++"%string) (NodeText "int x;
") = Highlighted "c" "int x;"
  /\ allWordChars "c" = true.
Proof.
  split; [reflexivity|].
  apply (highlighter_language_is_a_word (Some "language-c++"%string)
           (NodeText "int x;
") "c" "int x;" eq_refl).
Defined.

End PreviewMore.

(** * Properties of the environment configuration *)

Module EnvFacts.
Import Env.

(** X8.  [validateEnv] warns of a "missing" [API_BASE_URL] exactly when
    [VITE_API_BASE_URL] is defined and empty.  When the variable really is
    missing, [env] holds the fallback URL and no warning is written. *)
Theorem validateEnv_warns_only_of_empty_variable (meta : ImportMetaEnv) :
  (validateEnv (env meta)
   = ["Missing required environment variable: API_BASE_URL"%string]
   <-> viteVar meta "VITE_API_BASE_URL" = Some EmptyString)
  /\ (validateEnv (env meta) = []
      <-> viteVar meta "VITE_API_BASE_URL" <> Some EmptyString)
  /\ (viteVar meta "VITE_API_BASE_URL" = None ->
      API_BASE_URL (env meta) = "http://localhost:5151/api"%string
      /\ validateEnv (env meta) = []).
Proof.
  unfold validateEnv, env, getEnvVar; simpl.
  destruct (viteVar meta "VITE_API_BASE_URL") as [[|c v]|]; simpl.
  - repeat split; try discriminate; auto.
    intros H. exfalso. apply H. reflexivity.
  - repeat split; try discriminate; auto.
  - repeat split; try discriminate; auto.
Qed.

End EnvFacts.

(** * Properties of the API client and of the save of an answer *)

Module SaveAnswerFacts.
Import SaveAnswer.

Lemma default_message_not_empty (code : Z) :
  getDefaultErrorMessage code <> EmptyString.
Proof.
  unfold getDefaultErrorMessage.
  repeat match goal with
         | |- context [if ?b then _ else _] => destruct b
         end; discriminate.
Qed.

(** X9.  A message the server sent always wins over the table of default
    messages, an empty one included: the message of the [ApiError] is empty
    only when the body of the error response carries an empty [Message].
    Without a response the status code is 0. *)
Theorem transformError_message (error : AxiosError) :
  (message (transformError error) = EmptyString
   <-> exists r body,
         response error = Some r /\ data r = Some body
         /\ Message body = Some EmptyString)
  /\ (forall r body m,
        response error = Some r -> data r = Some body ->
        Message body = Some m ->
        transformError error = mkApiError (httpStatus r) m)
  /\ (response error = None -> statusCode (transformError error) = 0%Z).
Proof.
  unfold transformError.
  destruct (response error) as [r|] eqn:Er.
  - split; [|split; [|discriminate]].
    + simpl. destruct (data r) as [body|] eqn:Ed.
      * destruct (Message body) as [m|] eqn:Em.
        -- split.
           ++ intros ->. exists r, body. auto.
           ++ intros (r' & body' & [= <-] & Hd & Hm).
              rewrite Ed in Hd. injection Hd as <-. congruence.
        -- split.
           ++ intros H. exfalso. apply (default_message_not_empty _ H).
           ++ intros (r' & body' & [= <-] & Hd & Hm).
              rewrite Ed in Hd. injection Hd as <-. congruence.
      * split.
        -- intros H. exfalso. apply (default_message_not_empty _ H).
        -- intros (r' & body' & [= <-] & Hd & _). congruence.
    + intros r' body m [= <-] Hd Hm. rewrite Hd, Hm. reflexivity.
  - split; [|split].
    + split.
      * destruct (request error); simpl; [discriminate|].
        destruct (errorMessage error); discriminate.
      * intros (r & _ & H & _). discriminate.
    + intros r body m H. discriminate.
    + intros _. destruct (request error); reflexivity.
Qed.

Lemma handleSaveAnswer_resolves (backend : PutRequest -> HttpResult)
    (id : option string) (question : option QuestionDetailDto)
    (content : string) :
  snd (handleSaveAnswer backend id question content) = Resolved tt.
Proof.
  unfold handleSaveAnswer.
  destruct id as [qid|]; [|reflexivity].
  destruct (answerIdOf question) as [aid|]; [|reflexivity].
  destruct (missing (Some qid) || missing (Some aid)); [reflexivity|].
  destruct (mutateAsync backend qid aid content) as [effects [r|e]];
    [|reflexivity].
  destruct (Status r); reflexivity.
Qed.

(** X10.  The [onSave] the answer editor is given never rejects.  Whatever
    the server answers, and also when the question or its answer id is missing
    and nothing is sent at all, the promise resolves, so the auto-save hook
    that awaits it moves to ['saved'] and takes the content for saved; a save
    that failed shows as an error toast only.  When both ids are there,
    exactly one PUT goes to [/answer/<AnswerId>], with the id of the question
    and the content in its body. *)
Theorem failed_save_shows_as_saved (backend : PutRequest -> HttpResult)
    (id : option string) (question : option QuestionDetailDto)
    (st : AutoSave.Hook) (pid : nat) (p : AutoSave.PendingSave) :
  AutoSave.isMountedRef st = true ->
  AutoSave.lookupPending pid st = Some p ->
  let content := AutoSave.pendingContent p in
  let effects := fst (handleSaveAnswer backend id question content) in
  let outcome := snd (handleSaveAnswer backend id question content) in
  let st' := AutoSave.step (settled pid outcome) st in
  outcome = Resolved tt
  /\ AutoSave.status st' = AutoSave.saved
  /\ AutoSave.lastSavedContentRef st' = content
  /\ (missing id || missing (answerIdOf question) = true -> effects = [])
  /\ (forall qid aid,
        id = Some qid -> answerIdOf question = Some aid ->
        Env.emptyString qid = false -> Env.emptyString aid = false ->
        let req := mkPut ("/answer/" ++ aid)%string qid content in
        filter isSent effects = [Sent req]
        /\ (existsb isErrorToast effects = false
            <-> exists m, backend req = HttpOk (mkResponse Succeeded m))).
Proof.
  intros Hm Hp content effects outcome st'.
  assert (Ho : outcome = Resolved tt) by apply handleSaveAnswer_resolves.
  split; [exact Ho|].
  assert (Hs : AutoSave.status st' = AutoSave.saved
               /\ AutoSave.lastSavedContentRef st' = content).
  { unfold st'. rewrite Ho. cbn [settled AutoSave.step]. rewrite Hp.
    destruct (AutoSaveFacts.saveResolved_mounted p
                (AutoSave.removePending pid st) Hm) as (H1 & H2 & _).
    auto. }
  destruct Hs as [Hs1 Hs2].
  split; [exact Hs1 | split; [exact Hs2 | split]].
  - intros Hmiss. unfold effects, handleSaveAnswer.
    destruct id as [qid|]; [|reflexivity].
    destruct (answerIdOf question) as [aid|]; [|reflexivity].
    rewrite Hmiss. reflexivity.
  - intros qid aid -> Ha Hq Haid req.
    unfold effects, handleSaveAnswer. rewrite Ha.
    cbn [missing]. rewrite Hq, Haid. cbn [orb].
    unfold mutateAsync, update, put. rewrite Haid.
    change (mkPut (answersEndpoint ++ "/" ++ aid) qid content) with req.
    destruct (backend req) as [[[|] m]|error]; simpl.
    + split; [reflexivity|]. split; [|reflexivity].
      intros _. exists m. reflexivity.
    + split; [reflexivity|]. split; [discriminate|].
      intros [m' H]. discriminate.
    + split; [reflexivity|]. split; [discriminate|].
      intros [m' H]. discriminate.
Qed.

Lemma failed_save_shows_as_saved_witness :
  let st := AutoSave.run [AutoSave.Render "text" true 1000 false;
                          AutoSave.Advance 1000]
              (AutoSave.mount "" true 1000 false false) in
  let offline := fun _ : PutRequest =>
                   HttpError (mkAxiosError None true "Network Error") in
  let q := Some (mkQuestion (Some "a1"%string) None) in
  let result := handleSaveAnswer offline (Some "q1"%string) q "text" in
  AutoSave.isMountedRef st = true
  /\ AutoSave.lookupPending 1 st = Some (AutoSave.mkPending 1 "text" false)
  /\ filter isSent (fst result) = [Sent (mkPut "/answer/a1" "q1" "text")]
  /\ existsb isErrorToast (fst result) = true
  /\ AutoSave.status (AutoSave.step (settled 1 (snd result)) st)
     = AutoSave.saved
  /\ AutoSave.lastSavedContentRef (AutoSave.step (settled 1 (snd result)) st)
     = "text"%string.
Proof.
  intros st offline q result.
  destruct (failed_save_shows_as_saved offline (Some "q1"%string) q st 1
              (AutoSave.mkPending 1 "text" false) eq_refl eq_refl)
    as (_ & H2 & H3 & _ & H5).
  destruct (H5 "q1"%string "a1"%string eq_refl eq_refl eq_refl eq_refl)
    as [H6 _].
  split; [reflexivity|]. split; [reflexivity|].
  split; [exact H6|]. split; [reflexivity|].
  split; [exact H2 | exact H3].
Defined.

End SaveAnswerFacts.

(** * Properties of the answer editor *)

Module EditorFacts.
Import Editor.

Lemma hook_step (e : Event) (ed : State) :
  hook (step e ed) = AutoSave.run (hookEvents e ed) (hook ed).
Proof.
  unfold hookEvents.
  destruct e; cbn [step]; destruct (mounted ed) eqn:Hm; try reflexivity.
  - unfold receiveProps.
    destruct (String.eqb (initialContent p) (initialContent (props ed)));
      reflexivity.
  - unfold handleKeyDown.
    destruct ((ctrlKey || metaKey) && String.eqb key "s") eqn:E1; cbn [andb].
    + unfold handleManualSave. cbn [preventDefault props].
      destruct (autoSave (props ed)) eqn:E2;
        destruct (String.eqb key "Escape" && _); reflexivity.
    + destruct (String.eqb key "Escape" && _); reflexivity.
  - unfold clickSave, handleManualSave.
    destruct (saveButtonEnabled ed) eqn:E; [|reflexivity].
    unfold saveButtonEnabled in E.
    destruct (autoSave (props ed)); [discriminate | reflexivity].
  - unfold clickCancel. destruct (cancelButtonEnabled ed); reflexivity.
Qed.

Lemma step_mounted (e : Event) (ed : State) :
  mounted (step e ed) = match e with
                        | Unmount => false
                        | _ => mounted ed
                        end.
Proof.
  destruct e; cbn [step]; try reflexivity;
    destruct (mounted ed) eqn:Hm; try reflexivity; try exact Hm.
  - unfold receiveProps.
    destruct (String.eqb _ _); cbn; exact Hm.
  - unfold handleKeyDown, handleManualSave.
    repeat match goal with
           | |- context [if ?b then _ else _] => destruct b
           end; cbn; exact Hm.
  - unfold clickSave, handleManualSave.
    repeat match goal with
           | |- context [if ?b then _ else _] => destruct b
           end; cbn; exact Hm.
  - unfold clickCancel. destruct (cancelButtonEnabled ed); cbn; exact Hm.
Qed.

(** A render leaves the hook with the props it was given. *)
Lemma render_props (c : string) (en : bool) (d : nat) (fresh : bool)
    (st : AutoSave.Hook) :
  AutoSave.Wf st ->
  let st' := AutoSave.render c en d fresh st in
  AutoSave.content st' = c /\ AutoSave.enabled st' = en
  /\ AutoSave.debounceMs st' = d
  /\ AutoSave.isMountedRef st' = AutoSave.isMountedRef st
  /\ AutoSave.lastSavedContentRef st' = AutoSave.lastSavedContentRef st
  /\ AutoSave.saveCalls st' = AutoSave.saveCalls st
  /\ AutoSave.status st' = AutoSave.status st
  /\ AutoSave.now st' = AutoSave.now st.
Proof.
  intros W st'.
  destruct (AutoSave.depsChanged c en d fresh st) eqn:E.
  - destruct (AutoSaveFacts.render_changed c en d fresh st W E)
      as (H1 & H2 & H3 & H4 & _ & H6 & H7 & H8 & H9 & _).
    repeat match goal with |- _ /\ _ => split end; assumption.
  - unfold st', AutoSave.render. rewrite E.
    unfold AutoSave.depsChanged in E.
    repeat (apply orb_false_iff in E; destruct E as [E ?]).
    apply negb_false_iff in E. apply String.eqb_eq in E.
    match goal with H : negb (Bool.eqb _ _) = false |- _ =>
      apply negb_false_iff in H; apply Bool.eqb_prop in H; rename H into He end.
    match goal with H : negb (_ =? _) = false |- _ =>
      apply negb_false_iff in H; apply Nat.eqb_eq in H; rename H into Hd end.
    repeat match goal with |- _ /\ _ => split end; auto.
Qed.

(** What is not a render leaves the props of the hook alone, and only the
    unmount unmounts it. *)
Lemma step_control (e : AutoSave.Event) (st : AutoSave.Hook) :
  AutoSave.Wf st ->
  match e with AutoSave.Render _ _ _ _ => False | _ => True end ->
  AutoSave.content (AutoSave.step e st) = AutoSave.content st
  /\ AutoSave.enabled (AutoSave.step e st) = AutoSave.enabled st
  /\ AutoSave.debounceMs (AutoSave.step e st) = AutoSave.debounceMs st
  /\ (e <> AutoSave.Unmount ->
      AutoSave.isMountedRef (AutoSave.step e st) = AutoSave.isMountedRef st).
Proof.
  intros W He. destruct e; try contradiction; cbn [AutoSave.step].
  - destruct (AutoSaveFacts.advance_fields dt st W)
      as (H1 & H2 & H3 & H4 & _). auto.
  - destruct (AutoSave.lookupPending pid st); [|auto].
    unfold AutoSave.saveResolved, AutoSave.removePending, AutoSave.callOnSuccess.
    cbn. destruct (AutoSave.isMountedRef st) eqn:Hm; cbn;
      [destruct (AutoSave.hasOnSuccess st); cbn|]; auto.
  - destruct (AutoSave.lookupPending pid st); [|auto].
    unfold AutoSave.saveRejected, AutoSave.removePending, AutoSave.callOnError.
    cbn. destruct (AutoSave.isMountedRef st) eqn:Hm; cbn;
      [destruct (AutoSave.hasOnError st); cbn|]; auto.
  - unfold AutoSave.forceSave, AutoSave.performSave, AutoSave.clearTimerRef,
      AutoSave.clearTimeout.
    destruct (AutoSave.timerRef st); cbn;
      destruct (AutoSave.isMountedRef st) eqn:Hm; cbn; auto.
  - destruct (AutoSave.isMountedRef st) eqn:Hm; cbn; auto.
  - destruct (AutoSave.isMountedRef st) eqn:Hm; [|auto].
    rewrite AutoSaveFacts.unmount_unfold.
    destruct (AutoSave.timerRef st); cbn; repeat split; auto;
      intros H; exfalso; apply H; reflexivity.
Qed.

Lemma synced_mount (p : Props) : synced (mount p).
Proof.
  unfold synced. cbn [mount hook mounted content props].
  split; [apply AutoSaveFacts.Wf_mount|].
  unfold AutoSave.mount, AutoSave.debounceEffect. cbn.
  destruct (hookEnabled p); cbn.
  - destruct (String.eqb (initialContent p) (initialContent p)); cbn; auto.
  - auto.
Qed.

Lemma synced_renderHook (fresh : bool) (ed : State) :
  AutoSave.Wf (hook ed) -> AutoSave.isMountedRef (hook ed) = mounted ed ->
  mounted ed = true ->
  synced (renderHook fresh ed).
Proof.
  intros W Hm Hmt. unfold synced, renderHook.
  cbn [setHook hook mounted content props hookRender AutoSave.step].
  rewrite Hm, Hmt.
  destruct (render_props (content ed) (hookEnabled (props ed))
              (autoSaveDelay (props ed)) fresh (hook ed) W)
    as (H1 & H2 & H3 & H4 & _).
  split; [apply AutoSaveFacts.Wf_render; [exact W | congruence]|].
  split; [congruence|]. auto.
Qed.

Lemma synced_other (e : AutoSave.Event) (ed : State) :
  synced ed ->
  match e with
  | AutoSave.Render _ _ _ _ | AutoSave.Unmount => False
  | _ => True
  end ->
  synced (setHook (AutoSave.step e (hook ed)) ed).
Proof.
  intros (W & Hm & Hp) He. unfold synced.
  cbn [setHook hook mounted content props].
  assert (He' : match e with AutoSave.Render _ _ _ _ => False | _ => True end)
    by (destruct e; auto).
  assert (Hu : e <> AutoSave.Unmount) by (destruct e; try discriminate; auto).
  destruct (step_control e (hook ed) W He') as (H1 & H2 & H3 & H4).
  split; [apply AutoSaveFacts.Wf_step; exact W|].
  split; [rewrite (H4 Hu); exact Hm|].
  intros Hmt. destruct (Hp Hmt) as (P1 & P2 & P3).
  repeat split; congruence.
Qed.

Lemma synced_fields (ed : State) (d : list string) (c p : nat) :
  synced ed ->
  synced (mkEditor (props ed) (content ed) (hook ed) (mounted ed) d c p).
Proof. intros H. exact H. Qed.

Lemma synced_handleManualSave (ed : State) :
  synced ed -> synced (handleManualSave ed).
Proof.
  intros S. unfold handleManualSave.
  destruct (autoSave (props ed)).
  - apply synced_other; [exact S | exact I].
  - exact S.
Qed.

Lemma synced_step (e : Event) (ed : State) : synced ed -> synced (step e ed).
Proof.
  intros S. pose proof S as (W & Hm & Hp).
  destruct e; cbn [step]; try (destruct (mounted ed) eqn:Hmt; [|exact S]).
  - unfold handleChange.
    apply synced_renderHook; cbn [hook mounted setContent]; congruence.
  - unfold receiveProps.
    assert (S1 : synced (renderHook fresh (setProps p ed)))
      by (apply synced_renderHook; cbn [hook mounted setProps]; congruence).
    destruct (String.eqb _ _); [exact S1|].
    destruct S1 as (W1 & Hm1 & _).
    apply synced_renderHook; cbn [hook mounted setContent]; auto.
  - unfold handleKeyDown.
    destruct ((ctrlKey || metaKey) && String.eqb key "s").
    + assert (S1 : synced (handleManualSave (preventDefault ed)))
        by (apply synced_handleManualSave; exact S).
      destruct (String.eqb key "Escape" && _); exact S1.
    + destruct (String.eqb key "Escape" && _); exact S.
  - unfold clickSave. destruct (saveButtonEnabled ed); [|exact S].
    apply synced_handleManualSave; exact S.
  - unfold clickCancel. destruct (cancelButtonEnabled ed); exact S.
  - apply synced_other; [exact S | exact I].
  - apply synced_other; [exact S | exact I].
  - apply synced_other; [exact S | exact I].
  - unfold synced, unmount. cbn [hook mounted content props AutoSave.step].
    rewrite Hm.
    split; [apply AutoSaveFacts.Wf_unmount; exact W|].
    split; [apply AutoSaveFacts.unmount_frame | discriminate].
Qed.

Lemma synced_run (evs : list Event) (ed : State) :
  synced ed -> synced (run evs ed).
Proof.
  revert ed. induction evs as [|e evs IH]; intros ed S; [exact S|].
  apply IH, synced_step, S.
Qed.

Lemma synced_reachable (p : Props) (evs : list Event) :
  synced (run evs (mount p)).
Proof. apply synced_run, synced_mount. Qed.

(** X11.  While the editor is disabled or in manual mode, no auto-save is
    pending: in every state the mounted component reaches, there is no
    debounce timer, and the passing of time calls [onSave] never. *)
Theorem disabled_editor_never_autosaves (p : Props) (evs : list Event)
    (dt : nat) :
  let ed := run evs (mount p) in
  mounted ed = true ->
  disabled (props ed) = true \/ autoSave (props ed) = false ->
  AutoSave.debounceTimers (AutoSave.timers (hook ed)) = []
  /\ AutoSave.saveCalls (hook (step (Tick dt) ed)) = AutoSave.saveCalls (hook ed).
Proof.
  intros ed Hmt Hoff.
  destruct (synced_reachable p evs) as (W & Hm & Hp). fold ed in W, Hm, Hp.
  destruct (Hp Hmt) as (_ & Hen & _).
  assert (Hd : AutoSave.debounceTimers (AutoSave.timers (hook ed)) = []).
  { apply AutoSaveFacts.debounceTimers_nil. intros tm Hin.
    pose proof (AutoSave.wf_timers _ W _ Hin) as (_ & _ & F).
    destruct (AutoSave.callback tm); [|reflexivity].
    destruct F as (_ & _ & F & _). rewrite Hen in F.
    unfold hookEnabled in F.
    destruct Hoff as [H|H]; rewrite H in F; cbn in F;
      [rewrite andb_false_r in F|]; discriminate. }
  split; [exact Hd|].
  cbn [step setHook hook AutoSave.step].
  rewrite AutoSaveFacts.advance_saves; [|exact W | congruence].
  rewrite AutoSaveFacts.savesOf_debounceTimers,
    AutoSaveFacts.debounceTimers_filter, Hd.
  cbn. apply app_nil_r.
Qed.

Lemma disabled_editor_never_autosaves_witness :
  let p := mkProps "a" false false true 1000 true in
  let ed := run [Change (Some "ab"%string);
                 ReceiveProps (mkProps "a" false true true 1000 true) false]
              (mount p) in
  AutoSave.debounceTimers (AutoSave.timers (hook ed)) = []
  /\ AutoSave.saveCalls (hook (step (Tick 5000) ed)) = [].
Proof.
  intros p ed.
  apply (disabled_editor_never_autosaves p
           [Change (Some "ab"%string);
            ReceiveProps (mkProps "a" false true true 1000 true) false]
           5000 eq_refl (or_introl eq_refl)).
Defined.

Lemma untouched_mount (p : Props) :
  autoSave p = false -> untouched (initialContent p) (mount p).
Proof.
  intros Ha. unfold untouched, mount, AutoSave.mount, AutoSave.debounceEffect,
    hookEnabled.
  rewrite Ha. cbn. repeat split; auto.
Qed.

Lemma untouched_render (c0 : string) (fresh : bool) (ed : State) :
  autoSave (props ed) = false ->
  AutoSave.enabled (hook ed) = false ->
  AutoSave.effectCleanup (hook ed) = false ->
  AutoSave.timerRef (hook ed) = None ->
  AutoSave.timers (hook ed) = [] ->
  AutoSave.inflight (hook ed) = [] ->
  AutoSave.saveCalls (hook ed) = [] ->
  AutoSave.status (hook ed) = AutoSave.idle ->
  AutoSave.lastSavedContentRef (hook ed) = c0 ->
  AutoSave.isMountedRef (hook ed) = true ->
  mounted ed = true ->
  untouched c0 (renderHook fresh ed).
Proof.
  intros Ha He Hc Hr Ht Hi Hs Hst Hl Hm Hmt.
  unfold untouched, renderHook.
  cbn [setHook hook mounted content props hookRender AutoSave.step].
  rewrite Hm. unfold hookEnabled. rewrite Ha. cbn [andb].
  unfold AutoSave.render.
  destruct (AutoSave.depsChanged _ _ _ _ _) eqn:E.
  - unfold AutoSave.runEffectCleanup. rewrite Hc.
    unfold AutoSave.debounceEffect. cbn.
    repeat match goal with |- _ /\ _ => split end; auto; congruence.
  - unfold AutoSave.depsChanged in E.
    repeat (apply orb_false_iff in E; destruct E as [E ?]).
    apply negb_false_iff in E. apply String.eqb_eq in E.
    repeat match goal with |- _ /\ _ => split end; auto; congruence.
Qed.

Lemma untouched_step (c0 : string) (e : Event) (ed : State) :
  staysManual e = true -> untouched c0 ed -> untouched c0 (step e ed).
Proof.
  intros He U.
  pose proof U as (Ha & Hen & Hc & Hr & Ht & Hi & Hs & Hst & Hl & Hm & Hcont).
  destruct e; cbn [step]; try (destruct (mounted ed) eqn:Hmt; [|exact U]).
  - unfold handleChange.
    apply untouched_render; cbn [hook mounted props setContent]; auto.
  - unfold receiveProps. cbn [staysManual] in He.
    apply negb_true_iff in He.
    assert (U1 : untouched c0 (renderHook fresh (setProps p ed)))
      by (apply untouched_render; cbn [hook mounted props setProps]; auto).
    destruct (String.eqb _ _); [exact U1|].
    destruct U1 as (Ha1 & Hen1 & Hc1 & Hr1 & Ht1 & Hi1 & Hs1 & Hst1 & Hl1 & Hm1 & _).
    apply untouched_render; cbn [hook mounted props setContent]; auto.
    rewrite Hm1. cbn. exact Hmt.
  - unfold handleKeyDown, handleManualSave. cbn [preventDefault props].
    rewrite Ha.
    destruct ((ctrlKey || metaKey) && String.eqb key "s");
      cbn [props]; destruct (String.eqb key "Escape" && _); exact U.
  - unfold clickSave, handleManualSave. rewrite Ha.
    destruct (saveButtonEnabled ed); exact U.
  - unfold clickCancel. destruct (cancelButtonEnabled ed); exact U.
  - unfold untouched. cbn [setHook hook mounted content props AutoSave.step].
    unfold AutoSave.advance. rewrite Ht. cbn.
    repeat match goal with |- _ /\ _ => split end; auto.
  - unfold untouched. cbn [setHook hook mounted content props AutoSave.step].
    unfold AutoSave.lookupPending. rewrite Hi. cbn [find]. exact U.
  - unfold untouched. cbn [setHook hook mounted content props AutoSave.step].
    unfold AutoSave.lookupPending. rewrite Hi. cbn [find]. exact U.
  - unfold untouched, unmount. cbn [hook mounted content props AutoSave.step].
    rewrite Hm, AutoSaveFacts.unmount_unfold, Hr. cbn.
    repeat match goal with |- _ /\ _ => split end; auto; discriminate.
Qed.

Lemma untouched_run (c0 : string) (evs : list Event) (ed : State) :
  forallb staysManual evs = true -> untouched c0 ed -> untouched c0 (run evs ed).
Proof.
  revert ed. induction evs as [|e evs IH]; intros ed He U; [exact U|].
  cbn [forallb] in He. apply andb_true_iff in He. destruct He as [He1 He2].
  apply IH; [exact He2|]. apply untouched_step; assumption.
Qed.

(** X12.  In manual mode the hook never learns of a save.  Whatever the
    user and the parent do, and however many manual saves resolve, the hook
    calls [onSave] never, its status stays ['idle'] and its snapshot stays the
    initial content of the mount; so "Unsaved changes" is shown exactly when
    the text differs from that first content, also right after a manual save
    of it, and the status shown is never ['saved'] or ['error']. *)
Theorem manual_mode_never_marks_saved (p : Props) (evs : list Event) :
  autoSave p = false ->
  forallb staysManual evs = true ->
  let ed := run evs (mount p) in
  AutoSave.saveCalls (hook ed) = []
  /\ AutoSave.lastSavedContentRef (hook ed) = initialContent p
  /\ displayStatus ed
     = (if isSaving (props ed) then AutoSave.saving else AutoSave.idle)
  /\ (mounted ed = true ->
      showsUnsaved ed = negb (String.eqb (content ed) (initialContent p))).
Proof.
  intros Ha He ed.
  destruct (untouched_run (initialContent p) evs (mount p) He
              (untouched_mount p Ha))
    as (Ha' & _ & _ & _ & _ & _ & Hs & Hst & Hl & _ & Hc).
  fold ed in Ha', Hs, Hst, Hl, Hc.
  split; [exact Hs|]. split; [exact Hl|]. split.
  - unfold displayStatus. rewrite Hst. reflexivity.
  - intros Hmt. unfold showsUnsaved, AutoSave.hasUnsavedChanges.
    rewrite Ha', Hl, (Hc Hmt). reflexivity.
Qed.

Lemma manual_mode_never_marks_saved_witness :
  let p := mkProps "a" false false false 1000 false in
  let ed := run [Change (Some "ab"%string); ClickSave; SaveResolved 1;
                 Tick 5000]
              (mount p) in
  directSaves ed = ["ab"%string]
  /\ showsUnsaved ed = true
  /\ saveButtonEnabled ed = true
  /\ displayStatus ed = AutoSave.idle.
Proof.
  intros p ed.
  destruct (manual_mode_never_marks_saved p
              [Change (Some "ab"%string); ClickSave; SaveResolved 1; Tick 5000]
              eq_refl eq_refl)
    as (_ & _ & H3 & H4).
  split; [reflexivity|]. split; [exact (H4 eq_refl)|].
  split; [reflexivity | exact H3].
Defined.

(** X13.  The keyboard shortcuts are not subject to what disables the
    buttons.  On a mounted editor Ctrl+S or Cmd+S calls [onSave] with the
    current text at once, through [forceSave] with auto-save on and directly
    in manual mode, whether or not the editor is disabled, a save is running
    or anything has changed; and Escape calls [onCancel] when there is one.
    The "Save Answer" and "Cancel" buttons do nothing while the editor is
    disabled or saving. *)
Theorem shortcuts_ignore_disabled (p : Props) (evs : list Event)
    (ctrlKey metaKey : bool) :
  let ed := run evs (mount p) in
  mounted ed = true ->
  ctrlKey || metaKey = true ->
  let ed' := step (KeyDown ctrlKey metaKey "s") ed in
  prevented ed' = S (prevented ed)
  /\ (autoSave (props ed) = true ->
      AutoSave.saveCalls (hook ed')
      = AutoSave.saveCalls (hook ed) ++ [(AutoSave.now (hook ed), content ed)]
      /\ AutoSave.status (hook ed') = AutoSave.saving
      /\ directSaves ed' = directSaves ed)
  /\ (autoSave (props ed) = false ->
      directSaves ed' = directSaves ed ++ [content ed]
      /\ hook ed' = hook ed)
  /\ (hasOnCancel (props ed) = true ->
      cancelCalls (step (KeyDown false false "Escape") ed)
      = S (cancelCalls ed))
  /\ (disabled (props ed) = true \/ isSaving (props ed) = true ->
      step ClickSave ed = ed /\ step ClickCancel ed = ed).
Proof.
  intros ed Hmt Hk ed'.
  destruct (synced_reachable p evs) as (W & Hm & Hp). fold ed in W, Hm, Hp.
  destruct (Hp Hmt) as (Hc & _ & _).
  assert (E : ed' = handleManualSave (preventDefault ed)).
  { unfold ed'. cbn [step]. rewrite Hmt. unfold handleKeyDown.
    rewrite Hk. cbn [andb String.eqb Ascii.eqb Bool.eqb]. reflexivity. }
  repeat match goal with |- _ /\ _ => split end.
  - rewrite E. unfold handleManualSave. cbn [preventDefault props].
    destruct (autoSave (props ed)); reflexivity.
  - intros Ha. rewrite E. unfold handleManualSave.
    cbn [preventDefault props]. rewrite Ha.
    cbn [setHook hook directSaves AutoSave.step preventDefault].
    destruct (AutoSaveFacts.forceSave_mounted (hook ed))
      as (_ & _ & H3 & H4 & _); [congruence|].
    rewrite H3, H4, Hc. auto.
  - intros Ha. rewrite E. unfold handleManualSave.
    cbn [preventDefault props]. rewrite Ha. cbn. auto.
  - intros Ho. cbn [step]. rewrite Hmt. unfold handleKeyDown.
    cbn [orb andb String.eqb Ascii.eqb Bool.eqb]. rewrite Ho. reflexivity.
  - intros H. split.
    + cbn [step]. rewrite Hmt. unfold clickSave, saveButtonEnabled.
      destruct H as [H|H]; rewrite H; cbn;
        rewrite ?orb_true_r, ?andb_false_r; reflexivity.
    + cbn [step]. rewrite Hmt. unfold clickCancel, cancelButtonEnabled.
      destruct H as [H|H]; rewrite H; cbn;
        rewrite ?orb_true_r, ?andb_false_r; reflexivity.
Qed.

Lemma shortcuts_ignore_disabled_witness :
  let p := mkProps "a" true true true 1000 true in
  let ed := run [Tick 10] (mount p) in
  AutoSave.saveCalls (hook (step (KeyDown true false "s") ed)) = [(10, "a"%string)]
  /\ step ClickCancel ed = ed
  /\ cancelCalls (step (KeyDown false false "Escape") ed) = 1.
Proof.
  intros p ed.
  destruct (shortcuts_ignore_disabled p [Tick 10] true false eq_refl eq_refl)
    as (_ & H2 & _ & H4 & H5).
  split; [exact (proj1 (H2 eq_refl))|].
  split; [exact (proj2 (H5 (or_introl eq_refl))) | exact (H4 eq_refl)].
Defined.

(** X14.  A new [initialContent] replaces the text of the editor.  When the
    parent hands a mounted editor an [initialContent] that differs from the
    previous one and from the text, the text becomes that content and what
    was typed is dropped without a call of [onSave]: the only debounce timer
    left is the one for the new content, which is armed as for typed text,
    when auto-save is enabled and the new content differs from the
    snapshot. *)
Theorem reload_replaces_typed_text (p : Props) (evs : list Event)
    (p' : Props) (fresh : bool) :
  let ed := run evs (mount p) in
  mounted ed = true ->
  initialContent p' <> initialContent (props ed) ->
  initialContent p' <> content ed ->
  let ed' := step (ReceiveProps p' fresh) ed in
  content ed' = initialContent p'
  /\ AutoSave.saveCalls (hook ed') = AutoSave.saveCalls (hook ed)
  /\ AutoSave.lastSavedContentRef (hook ed')
     = AutoSave.lastSavedContentRef (hook ed)
  /\ exists id,
       AutoSave.debounceTimers (AutoSave.timers (hook ed'))
       = if hookEnabled p'
            && negb (String.eqb (initialContent p')
                       (AutoSave.lastSavedContentRef (hook ed)))
         then [AutoSave.mkTimer id (AutoSave.now (hook ed)) (autoSaveDelay p')
                 (AutoSave.DebouncedSave (initialContent p'))]
         else [].
Proof.
  intros ed Hmt Hi Hc ed'.
  destruct (synced_reachable p evs) as (W & Hm & Hp). fold ed in W, Hm, Hp.
  destruct (Hp Hmt) as (Hcont & _ & _).
  assert (Hmh : AutoSave.isMountedRef (hook ed) = true) by congruence.
  set (h1 := AutoSave.render (content ed) (hookEnabled p') (autoSaveDelay p')
               fresh (hook ed)).
  assert (E : ed' = mkEditor p' (initialContent p')
                      (AutoSave.render (initialContent p') (hookEnabled p')
                         (autoSaveDelay p') false h1)
                      true (directSaves ed) (cancelCalls ed) (prevented ed)).
  { unfold ed'. cbn [step]. rewrite Hmt. unfold receiveProps.
    apply String.eqb_neq in Hi. rewrite Hi.
    unfold renderHook.
    cbn [setHook setContent setProps hook mounted content props hookRender
         directSaves cancelCalls prevented AutoSave.step].
    rewrite Hmh. fold h1.
    destruct (render_props (content ed) (hookEnabled p') (autoSaveDelay p')
                fresh (hook ed) W) as (_ & _ & _ & R4 & _).
    fold h1 in R4. rewrite R4, Hmh.
    unfold setHook, setContent, setProps. cbn. rewrite Hmt. reflexivity. }
  destruct (render_props (content ed) (hookEnabled p') (autoSaveDelay p')
              fresh (hook ed) W) as (R1 & R2 & R3 & R4 & R5 & R6 & R7 & R8).
  fold h1 in R1, R2, R3, R4, R5, R6, R7, R8.
  assert (W1 : AutoSave.Wf h1)
    by (apply AutoSaveFacts.Wf_render; [exact W | exact Hmh]).
  assert (D : AutoSave.depsChanged (initialContent p') (hookEnabled p')
                (autoSaveDelay p') false h1 = true).
  { unfold AutoSave.depsChanged. rewrite R1.
    apply String.eqb_neq in Hc. rewrite Hc. reflexivity. }
  destruct (AutoSaveFacts.render_changed _ _ _ _ h1 W1 D)
    as (_ & _ & _ & _ & _ & _ & C7 & C8 & _ & _ & C11).
  rewrite E. cbn [content hook].
  split; [reflexivity|]. split; [congruence|]. split; [congruence|].
  exists (AutoSave.nextTimerId h1). rewrite C11, R5, R8. reflexivity.
Qed.

Lemma reload_replaces_typed_text_witness :
  let p := mkProps "abc" false false true 1000 true in
  let ed := run [Change (Some "abcd"%string); Tick 1000; Change (Some "abcde"%string);
                 SaveResolved 1]
              (mount p) in
  let ed' := step (ReceiveProps (mkProps "abcd" false false true 1000 true) true)
               ed in
  content ed = "abcde"%string
  /\ content ed' = "abcd"%string
  /\ AutoSave.saveCalls (hook (run [Tick 5000] ed')) = [(1000, "abcd"%string)]
  /\ AutoSave.debounceTimers (AutoSave.timers (hook ed')) = [].
Proof.
  intros p ed ed'.
  destruct (reload_replaces_typed_text p
              [Change (Some "abcd"%string); Tick 1000;
               Change (Some "abcde"%string); SaveResolved 1]
              (mkProps "abcd" false false true 1000 true) true eq_refl)
    as (H1 & _ & _ & id & H4).
  - discriminate.
  - discriminate.
  - split; [reflexivity|]. split; [exact H1|].
    split; [reflexivity | exact H4].
Defined.

End EditorFacts.

(** * Further properties of [useDebounce] *)

Module DebounceMore.
Import Debounce DebounceAux.

Section More.

Variable T : Type.
Variable same : T -> T -> bool.

Local Abbreviation Hook := (Debounce.Hook T).
Local Abbreviation Event := (Debounce.Event T).
Local Abbreviation step := (Debounce.step same).
Local Abbreviation run := (Debounce.run same).

(** The derived value, the input and the values the pending timers carry
    are all among [seen]. *)
Local Abbreviation known seen st :=
  (In (debouncedValue st) seen /\ In (value st) seen
   /\ forall tm, In tm (timers st) -> In (payload tm) seen).

Lemma In_enqueue_payload (tm x : Timer T) (q : list (Timer T)) :
  In x (enqueue tm q) -> x = tm \/ In x q.
Proof.
  induction q as [|y q IH]; simpl.
  - intros [H|[]]; auto.
  - destruct (fireAt tm <? fireAt y); simpl.
    + intros [H|[H|H]]; auto.
    + intros [H|H]; auto. destruct (IH H); auto.
Qed.

Lemma In_cleanup (st : Hook) (tm : Timer T) :
  In tm (cleanup st) -> In tm (timers st).
Proof.
  unfold cleanup. destruct (timeoutId st); [|auto].
  intros H. apply filter_In in H. tauto.
Qed.

Lemma fold_runTimer_known (seen : list T) (l : list (Timer T)) (st : Hook) :
  known seen st -> (forall tm, In tm l -> In (payload tm) seen) ->
  known seen (fold_left (fun s tm => runTimer tm s) l st).
Proof.
  revert st. induction l as [|tm l IH]; intros st K Hl; [exact K|].
  cbn [fold_left]. apply IH.
  - destruct K as (K1 & K2 & K3). unfold runTimer. cbn.
    repeat split; auto. apply Hl. left. reflexivity.
  - intros x Hx. apply Hl. right. exact Hx.
Qed.

Lemma known_step (seen : list T) (e : Event) (st : Hook) :
  known seen st -> known (seen ++ inputs [e]) (step e st).
Proof.
  intros (K1 & K2 & K3).
  assert (M : forall x, In x seen -> In x (seen ++ inputs [e]))
    by (intros x Hx; apply in_or_app; left; exact Hx).
  destruct e as [v d|dt|]; cbn [Debounce.step].
  - assert (Hv : In v (seen ++ inputs [Render v d]))
      by (apply in_or_app; right; left; reflexivity).
    destruct (mounted st); [|repeat split; auto].
    unfold render. destruct (depsChanged same v d st).
    + unfold effect. cbn. repeat split; auto.
      intros tm Hin. apply In_enqueue_payload in Hin.
      destruct Hin as [->|Hin]; [exact Hv|].
      apply M, K3, (In_cleanup st), Hin.
    + cbn. repeat split; auto.
  - unfold advance. cbn [inputs flat_map]. rewrite app_nil_r.
    match goal with
    | |- context [fold_left ?f ?l ?s] =>
        pose proof (fold_runTimer_known seen l s) as F
    end.
    destruct F as (F1 & F2 & F3).
    + cbn. repeat split; auto.
      intros tm Hin. apply filter_In in Hin. apply K3. tauto.
    + intros tm Hin. apply filter_In in Hin. apply K3. tauto.
    + cbn. repeat split; auto.
  - cbn [inputs flat_map]. rewrite app_nil_r.
    destruct (mounted st); [|repeat split; auto].
    unfold unmount. cbn. repeat split; auto.
    intros tm Hin. apply K3, (In_cleanup st), Hin.
Qed.

Lemma known_run (evs : list Event) (seen : list T) (st : Hook) :
  known seen st -> known (seen ++ inputs evs) (run evs st).
Proof.
  revert seen st. induction evs as [|e evs IH]; intros seen st K.
  - cbn. rewrite app_nil_r. exact K.
  - cbn [Debounce.run fold_left].
    replace (seen ++ inputs (e :: evs)) with ((seen ++ inputs [e]) ++ inputs evs).
    + apply IH, known_step, K.
    + rewrite <- app_assoc. f_equal. unfold inputs. cbn [flat_map].
      rewrite app_nil_r. reflexivity.
Qed.

(** X15.  The debounced value is never a value of the hook's own making:
    whatever happens, it is the value of the first render or a value a later
    render passed in, and so is the value of every pending timer. *)
Theorem debounced_value_was_an_input (v0 : T) (d0 : nat) (evs : list Event) :
  let st := run evs (mount v0 d0) in
  In (debouncedValue st) (v0 :: inputs evs)
  /\ forall tm, In tm (timers st) -> In (payload tm) (v0 :: inputs evs).
Proof.
  intros st.
  destruct (known_run evs [v0] (mount v0 d0)) as (K1 & _ & K3).
  - unfold mount, effect. cbn. repeat split; auto.
    intros tm [<-|[]]. left. reflexivity.
  - split; [exact K1 | exact K3].
Qed.

Hypothesis same_eq : forall a b, same a b = true <-> a = b.

(** X16.  The delay is a dependency of the effect like the value: a render
    that changes only the delay starts the wait again.  The pending update is
    put off until the new delay has passed since that render, however close
    it was; and when nothing was pending, a timer is set all the same, which
    leaves the debounced value as it is. *)
Theorem delay_change_restarts_wait (st : Hook) (d dt : nat) :
  wf same st = true ->
  mounted st = true ->
  d <> delay st ->
  let st' := step (Render (value st) d) st in
  timers st' = [mkTimer (nextTimerId st) (now st) d (value st)]
  /\ debouncedValue st' = debouncedValue st
  /\ (dt < d -> debouncedValue (step (Advance T dt) st') = debouncedValue st)
  /\ debouncedValue (step (Advance T d) st') = value st.
Proof.
  intros W Hm Hd st'.
  assert (D : depsChanged same (value st) d st = true).
  { unfold depsChanged. apply orb_true_iff. right.
    apply negb_true_iff, Nat.eqb_neq. exact Hd. }
  set (tm := mkTimer (nextTimerId st) (now st) d (value st)).
  set (s1 := mkHook (value st) d (debouncedValue st) (Some (nextTimerId st))
               (now st) true (now st) [tm] (S (nextTimerId st))).
  assert (E : st' = s1).
  { unfold st'. cbn [Debounce.step]. rewrite Hm.
    rewrite (DebounceFacts.effect_rerun T same same_eq _ _ _ W D), Hm.
    reflexivity. }
  rewrite E.
  split; [reflexivity|]. split; [reflexivity|].
  split.
  - intros Hlt. cbn [Debounce.step].
    rewrite (DebounceFacts.advance_pending T dt s1 tm eq_refl).
    change (fireAt tm) with (now st + d). change (now s1) with (now st).
    destruct (now st + d <=? now st + dt) eqn:L; [|reflexivity].
    apply Nat.leb_le in L. lia.
  - cbn [Debounce.step].
    rewrite (DebounceFacts.advance_pending T d s1 tm eq_refl).
    change (fireAt tm) with (now st + d). change (now s1) with (now st).
    rewrite Nat.leb_refl. reflexivity.
Qed.

End More.

Lemma delay_change_restarts_wait_witness :
  let st := Debounce.run String.eqb
              [Render "r"%string 300; Advance string 299]
              (Debounce.mount ""%string 300) in
  let st' := Debounce.step String.eqb (Render "r"%string 500) st in
  debouncedValue (Debounce.step String.eqb (Advance string 1) st) = "r"%string
  /\ debouncedValue (Debounce.step String.eqb (Advance string 499) st')
     = ""%string
  /\ debouncedValue (Debounce.step String.eqb (Advance string 500) st')
     = "r"%string.
Proof.
  intros st st'.
  destruct (delay_change_restarts_wait string String.eqb String.eqb_eq st 500 499
              eq_refl eq_refl)
    as (_ & _ & H3 & H4).
  - discriminate.
  - split; [reflexivity|]. split; [apply H3; lia | exact H4].
Defined.

End DebounceMore.

(** * Properties of the search box of the question filters *)

Module FiltersFacts.
Import Filters.

Lemma syncEffect_quiet (d : string) (f : QuestionFilters) :
  d <> EmptyString ->
  forall f', syncEffect d f = Some f' ->
  f' = mkFilters (Some d) (technologyId f) (difficultyLevel f)
  /\ syncEffect d f' = None.
Proof.
  intros Hd f'. unfold syncEffect.
  destruct (differs d f); [|discriminate].
  intros [= <-]. destruct d as [|c d]; [contradiction|].
  split; [reflexivity|].
  unfold differs. cbn [query orUndefined].
  rewrite String.eqb_refl. reflexivity.
Qed.

Lemma syncEffect_empty (f : QuestionFilters) :
  query f <> Some EmptyString ->
  syncEffect EmptyString f
  = Some (mkFilters None (technologyId f) (difficultyLevel f)).
Proof.
  intros Hq. unfold syncEffect, differs.
  destruct (query f) as [q|]; [|reflexivity].
  destruct q; [contradiction | reflexivity].
Qed.

Lemma settle_empty (n : nat) (f : QuestionFilters) :
  query f <> Some EmptyString ->
  settle n EmptyString f
  = (n, match n with
        | 0 => f
        | S _ => mkFilters None (technologyId f) (difficultyLevel f)
        end).
Proof.
  revert f. induction n as [|n IH]; intros f Hq; [reflexivity|].
  cbn [settle]. rewrite (syncEffect_empty f Hq).
  rewrite IH by (cbn; discriminate).
  destruct n; reflexivity.
Qed.

(** X17.  The report of the search text to the parent comes to rest only
    for a search that is not empty.  With a debounced search that is not
    empty, [onChange] is called at most once, and the filters then carry the
    search, the other fields as they were.  With the empty search, as at the
    mount under [QuestionsPage], the effect calls [onChange] in every render,
    each time with filters that say the same, so every render brings the
    next one. *)
Theorem empty_search_reports_forever (renders : nat) (debouncedSearch : string)
    (filters : QuestionFilters) :
  query filters <> Some EmptyString ->
  (debouncedSearch = EmptyString ->
   fst (settle renders debouncedSearch filters) = renders
   /\ forall filters',
        syncEffect debouncedSearch filters = Some filters' ->
        query filters' = None
        /\ syncEffect debouncedSearch filters' = Some filters')
  /\ (debouncedSearch <> EmptyString ->
      fst (settle renders debouncedSearch filters) <= 1
      /\ (0 < renders ->
          snd (settle renders debouncedSearch filters)
          = mkFilters (Some debouncedSearch) (technologyId filters)
              (difficultyLevel filters))).
Proof.
  intros Hq. split.
  - intros ->. rewrite (settle_empty renders filters Hq). split; [reflexivity|].
    intros f'. rewrite (syncEffect_empty filters Hq). intros [= <-].
    split; [reflexivity|].
    rewrite syncEffect_empty by (cbn; discriminate). reflexivity.
  - intros Hd. destruct renders as [|n]; cbn [settle].
    + split; [cbn; lia | intros H; lia].
    + destruct (syncEffect debouncedSearch filters) as [f'|] eqn:E.
      * destruct (syncEffect_quiet debouncedSearch filters Hd f' E) as [-> Hn].
        destruct n as [|n]; cbn [settle].
        -- split; [cbn; lia | reflexivity].
        -- rewrite Hn. split; [cbn; lia | reflexivity].
      * split; [cbn; lia|]. intros _. cbn [snd].
        unfold syncEffect in E. destruct (differs debouncedSearch filters) eqn:D;
          [discriminate|].
        unfold differs in D. destruct filters as [[q|] t l]; cbn in *;
          [|discriminate].
        apply negb_false_iff, String.eqb_eq in D. subst. reflexivity.
Qed.

Lemma empty_search_reports_forever_witness :
  fst (settle 1000 "" (mkFilters None None None)) = 1000
  /\ settle 1000 "rocq" (mkFilters None (Some "t1"%string) None)
     = (1, mkFilters (Some "rocq"%string) (Some "t1"%string) None).
Proof.
  destruct (empty_search_reports_forever 1000 ""
              (mkFilters None None None)) as [H1 _]; [discriminate|].
  destruct (empty_search_reports_forever 1000 "rocq"
              (mkFilters None (Some "t1"%string) None)) as [_ H2];
    [discriminate|].
  split; [exact (proj1 (H1 eq_refl)) | reflexivity].
Defined.

End FiltersFacts.
